(** * Tylephone: the ESP32 DAC synthesizer, basic and rotary-menu editions

    A shallow embedding of the two sketches of the repository
    ([esp32_synth.ino], the basic edition, and the rotary-menu edition) and
    the properties of their sample-generation and playback engine.

    Conventions of the embedding.
    - [int] is a 32-bit two's-complement integer, carried as a [Z] and wrapped
      by [wrap_int] where the source arithmetic can leave the range;
      [unsigned long] is 32 bits wide on the ESP32 ([to_ulong]); [uint8_t]
      values are wrapped by [to_uint8].
    - [float] is IEEE-754 binary32 and [double] binary64, both carried by the
      standard library's [spec_float]; a decimal literal is the correctly
      rounded quotient of two integers.
    - The C library's [sin] is not specified bit for bit: the sine table is
      taken over the real numbers, the cast to [uint8_t] truncating as in C.
    - Integer division by zero and a float-to-int conversion that leaves the
      range of [int] are faults; fallible operations return a [result].
    - [digitalRead] and [millis] are inputs ([Inputs]); the DAC and the timer
      alarm are fields of the state.  Serial output and the LEDs are
      write-only and are left out; the 7-segment display is write-only too and
      is modelled on its own ([updateDisplay] gives the pin writes), outside
      the functions that call it. *)

From Stdlib Require Import ZArith List Bool Lia QArith Qround Reals Lra.
From Stdlib Require Import Floats.SpecFloat.
Import ListNotations.
Local Open Scope Z_scope.

(** ** Machine arithmetic *)

Definition INT_MIN : Z := - 2 ^ 31.
Definition INT_MAX : Z := 2 ^ 31 - 1.

Definition wrap_int (z : Z) : Z := (z + 2 ^ 31) mod 2 ^ 32 - 2 ^ 31.
Definition to_uint8 (z : Z) : Z := z mod 256.
Definition to_ulong (z : Z) : Z := z mod 2 ^ 32.
Definition to_uint64 (z : Z) : Z := z mod 2 ^ 64.

Definition int_add (a b : Z) : Z := wrap_int (a + b).
Definition int_sub (a b : Z) : Z := wrap_int (a - b).
Definition int_mul (a b : Z) : Z := wrap_int (a * b).

(** ** Faults and the error monad *)

Inductive fault : Type :=
| DivisionByZero
| FloatToIntOutOfRange.

Inductive result (A : Type) : Type :=
| Ok (a : A)
| Fault (f : fault).

Arguments Ok {A} a.
Arguments Fault {A} f.

Definition bind {A B : Type} (c : result A) (k : A -> result B) : result B :=
  match c with
  | Ok a => k a
  | Fault f => Fault f
  end.

Notation "x <- c ;; k" := (bind c (fun x => k))
  (at level 61, c at next level, right associativity).

(** [a / b] on [int]: truncating division, a fault when [b] is zero. *)
Definition int_div (a b : Z) : result Z :=
  if b =? 0 then Fault DivisionByZero else Ok (wrap_int (Z.quot a b)).

(** ** Floating point *)

(** The integer [z] as a [double] and as a [float]. *)
Definition double_of_int (z : Z) : spec_float := binary_normalize 53 1024 z 0 false.
Definition float_of_int (z : Z) : spec_float := binary_normalize 24 128 z 0 false.

(** The decimal literal [num/den] (as in [261.63] = 26163/100), a [double]. *)
Definition double_literal (num den : Z) : spec_float :=
  SFdiv 53 1024 (double_of_int num) (double_of_int den).

(** Conversion [double] to [float] (round to nearest even) and back (exact). *)
Definition double_to_float (x : spec_float) : spec_float :=
  match x with
  | S754_finite s m e => binary_normalize 24 128 (cond_Zopp s (Zpos m)) e s
  | _ => x
  end.

Definition float_to_double (x : spec_float) : spec_float :=
  match x with
  | S754_finite s m e => binary_normalize 53 1024 (cond_Zopp s (Zpos m)) e s
  | _ => x
  end.

(** [(int)x]: truncation toward zero; outside the range of [int] (and for
    infinities and NaN) the conversion is undefined. *)
Definition float_to_int (x : spec_float) : result Z :=
  match x with
  | S754_zero _ => Ok 0
  | S754_finite s m e =>
      let t := if 0 <=? e then Zpos m * 2 ^ e else Z.quot (Zpos m) (2 ^ (- e)) in
      let v := cond_Zopp s t in
      if (INT_MIN <=? v) && (v <=? INT_MAX) then Ok v else Fault FloatToIntOutOfRange
  | _ => Fault FloatToIntOutOfRange
  end.

(** [x <= 0] holds of a [float]: a zero of either sign, a negative number or
    minus infinity. *)
Definition float_nonpositive (x : spec_float) : Prop :=
  match x with
  | S754_zero _ => True
  | S754_finite s _ _ => s = true
  | S754_infinity s => s = true
  | S754_nan => False
  end.

(** [(uint8_t)x] for a [double] taken as a real number. *)
Definition Rtrunc (x : R) : Z :=
  if Rle_dec 0 x then Int_part x else - Int_part (- x).

Definition double_to_uint8 (x : R) : Z := to_uint8 (Rtrunc x).

(** ** Configuration shared by the two editions *)

Definition SAMPLES : Z := 256.

Definition NOTE_FREQS_OCT4 : list spec_float :=
  map (fun hundredths => double_to_float (double_literal hundredths 100))
      [ 26163   (* C4 *)
      ; 27718   (* C#4 *)
      ; 29366   (* D4 *)
      ; 31113   (* D#4 *)
      ; 32963   (* E4 *)
      ; 34923   (* F4 *)
      ; 36999   (* F#4 *)
      ; 39200   (* G4 *)
      ; 41530   (* G#4 *)
      ; 44000   (* A4 *)
      ; 46616   (* A#4 *)
      ; 49388   (* B4 *) ].

(** The value [playNote] gives its local [freq], in either edition:
    [isHighOctave ? baseFreq * 2.0 : baseFreq] is a [double], narrowed when it
    initialises the [float]. *)
Definition note_frequency (noteIndex : Z) (isHighOctave : bool) : spec_float :=
  let baseFreq := nth (Z.to_nat noteIndex) NOTE_FREQS_OCT4 S754_nan in
  double_to_float
    (if isHighOctave
     then SFmul 53 1024 (float_to_double baseFreq) (double_literal 20 10)
     else float_to_double baseFreq).

Inductive WaveType : Type := SQUARE | TRIANGLE | SINE.

Inductive Level : Type := LOW | HIGH.

Definition Level_eqb (a b : Level) : bool :=
  match a, b with
  | LOW, LOW | HIGH, HIGH => true
  | _, _ => false
  end.

(** ** Waveform tables *)

Record Tables : Type := mkTables {
  squareWave : list Z;
  triangleWave : list Z;
  sineWave : list Z
}.

(** The three global arrays before [setup] runs: zero-initialised. *)
Definition zero_tables : Tables :=
  let z := repeat 0 (Z.to_nat SAMPLES) in mkTables z z z.

(** [arr[i] = v]. *)
Fixpoint store (arr : list Z) (i : nat) (v : Z) : list Z :=
  match arr, i with
  | [], _ => []
  | _ :: t, O => v :: t
  | h :: t, S j => h :: store t j v
  end.

(** [for (int i = 0; i < n; i++) body]. *)
Definition for_range {S : Type} (n : nat) (body : Z -> S -> S) (s : S) : S :=
  fold_left (fun st i => body (Z.of_nat i) st) (seq 0 n) s.

Definition sine_sample (i : Z) : Z :=
  double_to_uint8 (127.5 + 127.5 * sin (2.0 * PI * IZR i / IZR SAMPLES))%R.

(** The [double] that [sine_sample] casts, as a real number. *)
Definition sine_value (i : Z) : R :=
  (127.5 + 127.5 * sin (2.0 * PI * IZR i / IZR SAMPLES))%R.

Definition triangle_sample (i : Z) : Z :=
  if i <? Z.quot SAMPLES 2
  then to_uint8 (Z.quot (int_mul i 512) SAMPLES)
  else to_uint8 (int_sub 255 (Z.quot (int_mul (int_sub i (Z.quot SAMPLES 2)) 512) SAMPLES)).

Definition square_sample (i : Z) : Z :=
  if i <? Z.quot SAMPLES 2 then 255 else 0.

Definition generateWaveforms (t : Tables) : Tables :=
  let n := Z.to_nat SAMPLES in
  (* Sine wave *)
  let t := for_range n (fun i t =>
             mkTables (squareWave t) (triangleWave t)
                      (store (sineWave t) (Z.to_nat i) (sine_sample i))) t in
  (* Triangle wave *)
  let t := for_range n (fun i t =>
             mkTables (squareWave t)
                      (store (triangleWave t) (Z.to_nat i) (triangle_sample i))
                      (sineWave t)) t in
  (* Square wave *)
  for_range n (fun i t =>
    mkTables (store (squareWave t) (Z.to_nat i) (square_sample i))
             (triangleWave t) (sineWave t)) t.

(** The tables as they stand once [setup] has run; read-only afterwards. *)
Definition tables : Tables := generateWaveforms zero_tables.

(** What a [currentWaveform] pointer points to. *)
Definition deref (w : WaveType) : list Z :=
  match w with
  | SQUARE => squareWave tables
  | TRIANGLE => triangleWave tables
  | SINE => sineWave tables
  end.

(** [currentWaveform[currentSample]]. *)
Definition sample_at (w : WaveType) (i : Z) : Z := nth (Z.to_nat i) (deref w) 0.

(** ** The hardware timer *)

Record Timer : Type := mkTimer {
  alarm_value : Z;
  autoreload : bool;
  alarm_enabled : bool
}.

Definition timerAlarmDisable (t : Timer) : Timer :=
  mkTimer (alarm_value t) (autoreload t) false.

Definition timerAlarmWrite (t : Timer) (value : Z) (reload : bool) : Timer :=
  mkTimer (to_uint64 value) reload (alarm_enabled t).

Definition timerAlarmEnable (t : Timer) : Timer :=
  mkTimer (alarm_value t) (autoreload t) true.

(** [digitalRead] on every pin and [millis], as seen by one call. *)
Record Inputs : Type := mkInputs {
  digitalRead : Z -> Level;
  millis : Z
}.

(** ** The 7-segment display *)

(** [arr[i]] for a constant table: nothing is read outside it. *)
Definition array_read (arr : list Z) (i : Z) : option Z :=
  if i <? 0 then None else nth_error arr (Z.to_nat i).

(** The output loop of [updateDisplay]: the [digitalWrite] calls, in order,
    each with its pin and level. *)
Definition write_segments (pins : list Z) (pattern : Z) : list (Z * Level) :=
  for_range 7 (fun i writes =>
                 writes ++ [(nth (Z.to_nat i) pins 0,
                             if Z.land pattern (Z.shiftl 1 i) =? 0 then LOW else HIGH)])
            [].

(** ** The basic edition ([esp32_synth.ino]) *)

Module Basic.

Definition KEY_PINS : list Z := [13; 12; 14; 27; 26; 25; 33; 32; 15; 2; 0; 4].
Definition ENCODER_CLK : Z := 18.
Definition ENCODER_DT : Z := 19.
Definition OCTAVE_SWITCH : Z := 21.
Definition BTN_SQUARE : Z := 22.
Definition BTN_TRIANGLE : Z := 23.
Definition BTN_SINE : Z := 5.
Definition debounceDelay : Z := 50.

Record State : Type := mkState {
  currentWaveform : WaveType;     (* which table the pointer designates *)
  currentSample : Z;
  currentFreq : Z;
  volume : Z;
  selectedWaveform : WaveType;
  isHighOctave : bool;
  currentNote : Z;
  lastEncoderCLK : Level;
  encoderPos : Z;
  timer : Timer;
  lastDebounceTime : list Z;
  dac : Z                         (* last value given to dac_output_voltage *)
}.

Definition set_currentWaveform (v : WaveType) (s : State) : State :=
  mkState v (currentSample s) (currentFreq s) (volume s) (selectedWaveform s)
          (isHighOctave s) (currentNote s) (lastEncoderCLK s) (encoderPos s)
          (timer s) (lastDebounceTime s) (dac s).
Definition set_currentSample (v : Z) (s : State) : State :=
  mkState (currentWaveform s) v (currentFreq s) (volume s) (selectedWaveform s)
          (isHighOctave s) (currentNote s) (lastEncoderCLK s) (encoderPos s)
          (timer s) (lastDebounceTime s) (dac s).
Definition set_currentFreq (v : Z) (s : State) : State :=
  mkState (currentWaveform s) (currentSample s) v (volume s) (selectedWaveform s)
          (isHighOctave s) (currentNote s) (lastEncoderCLK s) (encoderPos s)
          (timer s) (lastDebounceTime s) (dac s).
Definition set_volume (v : Z) (s : State) : State :=
  mkState (currentWaveform s) (currentSample s) (currentFreq s) v (selectedWaveform s)
          (isHighOctave s) (currentNote s) (lastEncoderCLK s) (encoderPos s)
          (timer s) (lastDebounceTime s) (dac s).
Definition set_selectedWaveform (v : WaveType) (s : State) : State :=
  mkState (currentWaveform s) (currentSample s) (currentFreq s) (volume s) v
          (isHighOctave s) (currentNote s) (lastEncoderCLK s) (encoderPos s)
          (timer s) (lastDebounceTime s) (dac s).
Definition set_isHighOctave (v : bool) (s : State) : State :=
  mkState (currentWaveform s) (currentSample s) (currentFreq s) (volume s)
          (selectedWaveform s) v (currentNote s) (lastEncoderCLK s) (encoderPos s)
          (timer s) (lastDebounceTime s) (dac s).
Definition set_currentNote (v : Z) (s : State) : State :=
  mkState (currentWaveform s) (currentSample s) (currentFreq s) (volume s)
          (selectedWaveform s) (isHighOctave s) v (lastEncoderCLK s) (encoderPos s)
          (timer s) (lastDebounceTime s) (dac s).
Definition set_lastEncoderCLK (v : Level) (s : State) : State :=
  mkState (currentWaveform s) (currentSample s) (currentFreq s) (volume s)
          (selectedWaveform s) (isHighOctave s) (currentNote s) v (encoderPos s)
          (timer s) (lastDebounceTime s) (dac s).
Definition set_encoderPos (v : Z) (s : State) : State :=
  mkState (currentWaveform s) (currentSample s) (currentFreq s) (volume s)
          (selectedWaveform s) (isHighOctave s) (currentNote s) (lastEncoderCLK s) v
          (timer s) (lastDebounceTime s) (dac s).
Definition set_timer (v : Timer) (s : State) : State :=
  mkState (currentWaveform s) (currentSample s) (currentFreq s) (volume s)
          (selectedWaveform s) (isHighOctave s) (currentNote s) (lastEncoderCLK s)
          (encoderPos s) v (lastDebounceTime s) (dac s).
Definition set_lastDebounceTime (v : list Z) (s : State) : State :=
  mkState (currentWaveform s) (currentSample s) (currentFreq s) (volume s)
          (selectedWaveform s) (isHighOctave s) (currentNote s) (lastEncoderCLK s)
          (encoderPos s) (timer s) v (dac s).
Definition dac_output_voltage (v : Z) (s : State) : State :=
  mkState (currentWaveform s) (currentSample s) (currentFreq s) (volume s)
          (selectedWaveform s) (isHighOctave s) (currentNote s) (lastEncoderCLK s)
          (encoderPos s) (timer s) (lastDebounceTime s) (to_uint8 v).

(** The globals as initialised, after [setup]: tables generated, the alarm
    written with 100 and enabled, [setWaveform(SINE)] done. *)
Definition initial_state : State :=
  mkState SINE 0 0 128 SINE false (-1) HIGH 50 (mkTimer 100 true true) [0; 0; 0] 0.

(** *** Timer interrupt *)

Definition onTimer (s : State) : State :=
  if currentFreq s >? 0 then
    let scaledValue :=
      to_uint8 (Z.quot (int_mul (sample_at (currentWaveform s) (currentSample s))
                                (volume s)) 255) in
    let s := dac_output_voltage scaledValue s in
    set_currentSample (Z.rem (int_add (currentSample s) 1) SAMPLES) s
  else
    dac_output_voltage 0 s.

(** *** Frequency control *)

Definition setFrequency (freq : spec_float) (s : State) : result State :=
  if SFleb freq (float_of_int 0) then
    Ok (set_currentFreq 0 s)
  else
    f <- float_to_int freq ;;
    let s := set_currentFreq f s in
    let t := timerAlarmDisable (timer s) in
    period <- int_div 1000000 (int_mul (currentFreq s) SAMPLES) ;;
    let t := timerAlarmWrite t period true in
    let t := timerAlarmEnable t in
    Ok (set_timer t s).

Definition stopNote (s : State) : State :=
  let s := set_currentFreq 0 s in
  let s := set_currentNote (-1) s in
  dac_output_voltage 0 s.

Definition playNote (noteIndex : Z) (s : State) : result State :=
  if (noteIndex <? 0) || (noteIndex >=? 12) then
    Ok (stopNote s)
  else
    let baseFreq := nth (Z.to_nat noteIndex) NOTE_FREQS_OCT4 S754_nan in
    (* Adjust for octave (high octave = double frequency) *)
    let freq :=
      double_to_float
        (if isHighOctave s
         then SFmul 53 1024 (float_to_double baseFreq) (double_literal 20 10)
         else float_to_double baseFreq) in
    s <- setFrequency freq s ;;
    Ok (set_currentNote noteIndex s).

(** *** Keyboard scanning *)

(** The [for] loop of [scanKeyboard] from key [i] on, over the remaining
    pins; the boolean is [anyKeyPressed]. *)
Fixpoint scanKeys (io : Inputs) (pins : list Z) (i : Z) (s : State)
  : result (State * bool) :=
  match pins with
  | [] => Ok (s, false)
  | pin :: rest =>
      if Level_eqb (digitalRead io pin) HIGH then
        s <- (if negb (currentNote s =? i) then playNote i s else Ok s) ;;
        Ok (s, true)
      else scanKeys io rest (i + 1) s
  end.

Definition scanKeyboard (io : Inputs) (s : State) : result State :=
  r <- scanKeys io KEY_PINS 0 s ;;
  let '(s, anyKeyPressed) := r in
  if negb anyKeyPressed && negb (currentNote s =? -1) then Ok (stopNote s) else Ok s.

(** *** Rotary encoder *)

Definition readEncoder (io : Inputs) (s : State) : State :=
  let currentCLK := digitalRead io ENCODER_CLK in
  let s :=
    if negb (Level_eqb currentCLK (lastEncoderCLK s)) && Level_eqb currentCLK LOW then
      let s :=
        if Level_eqb (digitalRead io ENCODER_DT) HIGH then
          let s := set_encoderPos (int_add (encoderPos s) 1) s in
          if encoderPos s >? 100 then set_encoderPos 100 s else s
        else
          let s := set_encoderPos (int_sub (encoderPos s) 1) s in
          if encoderPos s <? 0 then set_encoderPos 0 s else s in
      set_volume (to_uint8 (Z.quot (int_mul (encoderPos s) 255) 100)) s
    else s in
  set_lastEncoderCLK currentCLK s.

(** *** Waveform selection *)

Definition setWaveform (type : WaveType) (s : State) : State :=
  let s := set_selectedWaveform type s in
  match type with
  | SQUARE => set_currentWaveform SQUARE s
  | TRIANGLE => set_currentWaveform TRIANGLE s
  | SINE => set_currentWaveform SINE s
  end.

Definition button (io : Inputs) (currentTime : Z) (pin : Z) (k : nat)
           (type : WaveType) (s : State) : State :=
  if Level_eqb (digitalRead io pin) LOW
     && (to_ulong (currentTime - nth k (lastDebounceTime s) 0) >? debounceDelay)
  then
    let s := setWaveform type s in
    set_lastDebounceTime (store (lastDebounceTime s) k currentTime) s
  else s.

Definition readWaveformButtons (io : Inputs) (s : State) : State :=
  let currentTime := to_ulong (millis io) in
  let s := button io currentTime BTN_SQUARE 0 SQUARE s in
  let s := button io currentTime BTN_TRIANGLE 1 TRIANGLE s in
  button io currentTime BTN_SINE 2 SINE s.

(** *** Main loop *)

(** One iteration; the pauses ([delay]) and the display are left out. *)
Definition loop (io : Inputs) (s : State) : result State :=
  (* Read octave switch *)
  let s := set_isHighOctave (Level_eqb (digitalRead io OCTAVE_SWITCH) LOW) s in
  let s := readEncoder io s in
  let s := readWaveformButtons io s in
  scanKeyboard io s.

(** *** Runs *)

(** [n] consecutive invocations of [onTimer]: the values written to the
    DAC, oldest first, and the state reached. *)
Fixpoint ticks (n : nat) (s : State) : list Z * State :=
  match n with
  | O => ([], s)
  | S k =>
      let s1 := onTimer s in
      let '(out, s2) := ticks k s1 in
      (dac s1 :: out, s2)
  end.

(** *** 7-segment display *)

Definition SEG_PINS : list Z := [34; 35; 36; 39; 34; 35; 36].

Definition VOLUME_PATTERNS : list Z :=
  [ 1     (* 0b00000001 *)
  ; 3     (* 0b00000011 *)
  ; 7     (* 0b00000111 *)
  ; 15    (* 0b00001111 *)
  ; 31    (* 0b00011111 *)
  ; 63    (* 0b00111111 *)
  ; 127   (* 0b01111111 *)
  ; 127   (* 0b01111111 *)
  ; 127   (* 0b01111111 *) ].

Definition WAVEFORM_PATTERNS : list Z :=
  [ 37    (* 0b00100101, Square *)
  ; 33    (* 0b00100001, Triangle *)
  ; 39    (* 0b00100111, Sine *) ].

(** The [digitalWrite] calls of one [updateDisplay]; [None] when the pattern
    would be read outside its table. *)
Definition updateDisplay (showWaveform : bool) (s : State) : option (list (Z * Level)) :=
  match
    (if showWaveform then
       array_read WAVEFORM_PATTERNS
                  (match selectedWaveform s with SQUARE => 0 | TRIANGLE => 1 | SINE => 2 end)
     else
       let segmentIndex := Z.quot (int_mul (encoderPos s) 8) 100 in
       let segmentIndex := if segmentIndex >? 8 then 8 else segmentIndex in
       array_read VOLUME_PATTERNS segmentIndex)
  with
  | Some pattern => Some (write_segments SEG_PINS pattern)
  | None => None
  end.

(** *** Interleavings *)

(** What happens next: the timer interrupt fires, or the main loop runs one
    iteration (with the inputs it reads).  The interrupt is taken between two
    iterations. *)
Inductive Event : Type :=
| Tick
| Loop (io : Inputs).

Fixpoint run (events : list Event) (s : State) : result State :=
  match events with
  | [] => Ok s
  | Tick :: rest => run rest (onTimer s)
  | Loop io :: rest => s1 <- loop io s ;; run rest s1
  end.

(** The state invariant of the sketch. *)
Definition well_formed (s : State) : Prop :=
  0 <= currentSample s < SAMPLES /\
  0 <= volume s <= 255 /\
  0 <= encoderPos s <= 100 /\
  currentWaveform s = selectedWaveform s /\
  ((currentNote s = -1 /\ currentFreq s = 0) \/
   (0 <= currentNote s < 12 /\ 261 <= currentFreq s <= 987)) /\
  alarm_enabled (timer s) = true /\
  3 <= alarm_value (timer s) <= 100 /\
  0 <= dac s <= 255.

End Basic.

(** ** The rotary-menu edition *)

Module Menu.

Definition KEY_PINS : list Z := [13; 12; 14; 27; 26; 33; 32; 15; 2; 4; 16; 17].
Definition ENCODER_CLK : Z := 18.
Definition ENCODER_DT : Z := 19.
Definition ENCODER_SW : Z := 21.
Definition RATCHET_BASE_HZ : Z := 8.
Definition buttonDebounce : Z := 200.

Inductive UIMode : Type := REST | MENU_BROWSE | SETTING_ADJUST.

Inductive MenuScreen : Type := MENU_WAVEFORM | MENU_OCTAVE | MENU_CHOPPINESS.

(** The enumerators as integers, and the casts back. *)
Definition WaveType_to_int (w : WaveType) : Z :=
  match w with SQUARE => 0 | TRIANGLE => 1 | SINE => 2 end.
Definition WaveType_of_int (z : Z) : WaveType :=
  if z =? 0 then SQUARE else if z =? 1 then TRIANGLE else SINE.
Definition MenuScreen_to_int (m : MenuScreen) : Z :=
  match m with MENU_WAVEFORM => 0 | MENU_OCTAVE => 1 | MENU_CHOPPINESS => 2 end.
Definition MenuScreen_of_int (z : Z) : MenuScreen :=
  if z =? 0 then MENU_WAVEFORM else if z =? 1 then MENU_OCTAVE else MENU_CHOPPINESS.

Record State : Type := mkState {
  currentMode : UIMode;
  currentMenu : MenuScreen;
  currentWaveform : WaveType;     (* which table the pointer designates *)
  currentSample : Z;
  currentFreq : Z;
  volume : Z;
  selectedWaveform : WaveType;
  isHighOctave : bool;
  choppiness : Z;
  currentNote : Z;
  lastRatchetToggle : Z;
  ratchetOn : bool;
  lastEncoderCLK : Level;
  encoderValue : Z;
  lastButtonState : Level;
  lastButtonPress : Z;
  timer : Timer;
  dac : Z     (* last value given to dac_output_voltage *)
}.

Definition set_currentMode (v : UIMode) (s : State) : State :=
  mkState v (currentMenu s) (currentWaveform s) (currentSample s) (currentFreq s)
          (volume s) (selectedWaveform s) (isHighOctave s) (choppiness s)
          (currentNote s) (lastRatchetToggle s) (ratchetOn s) (lastEncoderCLK s)
          (encoderValue s) (lastButtonState s) (lastButtonPress s) (timer s) (dac s).
Definition set_currentMenu (v : MenuScreen) (s : State) : State :=
  mkState (currentMode s) v (currentWaveform s) (currentSample s) (currentFreq s)
          (volume s) (selectedWaveform s) (isHighOctave s) (choppiness s)
          (currentNote s) (lastRatchetToggle s) (ratchetOn s) (lastEncoderCLK s)
          (encoderValue s) (lastButtonState s) (lastButtonPress s) (timer s) (dac s).
Definition set_currentWaveform (v : WaveType) (s : State) : State :=
  mkState (currentMode s) (currentMenu s) v (currentSample s) (currentFreq s)
          (volume s) (selectedWaveform s) (isHighOctave s) (choppiness s)
          (currentNote s) (lastRatchetToggle s) (ratchetOn s) (lastEncoderCLK s)
          (encoderValue s) (lastButtonState s) (lastButtonPress s) (timer s) (dac s).
Definition set_currentSample (v : Z) (s : State) : State :=
  mkState (currentMode s) (currentMenu s) (currentWaveform s) v (currentFreq s)
          (volume s) (selectedWaveform s) (isHighOctave s) (choppiness s)
          (currentNote s) (lastRatchetToggle s) (ratchetOn s) (lastEncoderCLK s)
          (encoderValue s) (lastButtonState s) (lastButtonPress s) (timer s) (dac s).
Definition set_currentFreq (v : Z) (s : State) : State :=
  mkState (currentMode s) (currentMenu s) (currentWaveform s) (currentSample s) v
          (volume s) (selectedWaveform s) (isHighOctave s) (choppiness s)
          (currentNote s) (lastRatchetToggle s) (ratchetOn s) (lastEncoderCLK s)
          (encoderValue s) (lastButtonState s) (lastButtonPress s) (timer s) (dac s).
Definition set_volume (v : Z) (s : State) : State :=
  mkState (currentMode s) (currentMenu s) (currentWaveform s) (currentSample s)
          (currentFreq s) v (selectedWaveform s) (isHighOctave s) (choppiness s)
          (currentNote s) (lastRatchetToggle s) (ratchetOn s) (lastEncoderCLK s)
          (encoderValue s) (lastButtonState s) (lastButtonPress s) (timer s) (dac s).
Definition set_selectedWaveform (v : WaveType) (s : State) : State :=
  mkState (currentMode s) (currentMenu s) (currentWaveform s) (currentSample s)
          (currentFreq s) (volume s) v (isHighOctave s) (choppiness s) (currentNote s)
          (lastRatchetToggle s) (ratchetOn s) (lastEncoderCLK s) (encoderValue s)
          (lastButtonState s) (lastButtonPress s) (timer s) (dac s).
Definition set_isHighOctave (v : bool) (s : State) : State :=
  mkState (currentMode s) (currentMenu s) (currentWaveform s) (currentSample s)
          (currentFreq s) (volume s) (selectedWaveform s) v (choppiness s)
          (currentNote s) (lastRatchetToggle s) (ratchetOn s) (lastEncoderCLK s)
          (encoderValue s) (lastButtonState s) (lastButtonPress s) (timer s) (dac s).
Definition set_choppiness (v : Z) (s : State) : State :=
  mkState (currentMode s) (currentMenu s) (currentWaveform s) (currentSample s)
          (currentFreq s) (volume s) (selectedWaveform s) (isHighOctave s) v
          (currentNote s) (lastRatchetToggle s) (ratchetOn s) (lastEncoderCLK s)
          (encoderValue s) (lastButtonState s) (lastButtonPress s) (timer s) (dac s).
Definition set_currentNote (v : Z) (s : State) : State :=
  mkState (currentMode s) (currentMenu s) (currentWaveform s) (currentSample s)
          (currentFreq s) (volume s) (selectedWaveform s) (isHighOctave s)
          (choppiness s) v (lastRatchetToggle s) (ratchetOn s) (lastEncoderCLK s)
          (encoderValue s) (lastButtonState s) (lastButtonPress s) (timer s) (dac s).
Definition set_lastRatchetToggle (v : Z) (s : State) : State :=
  mkState (currentMode s) (currentMenu s) (currentWaveform s) (currentSample s)
          (currentFreq s) (volume s) (selectedWaveform s) (isHighOctave s)
          (choppiness s) (currentNote s) v (ratchetOn s) (lastEncoderCLK s)
          (encoderValue s) (lastButtonState s) (lastButtonPress s) (timer s) (dac s).
Definition set_ratchetOn (v : bool) (s : State) : State :=
  mkState (currentMode s) (currentMenu s) (currentWaveform s) (currentSample s)
          (currentFreq s) (volume s) (selectedWaveform s) (isHighOctave s)
          (choppiness s) (currentNote s) (lastRatchetToggle s) v (lastEncoderCLK s)
          (encoderValue s) (lastButtonState s) (lastButtonPress s) (timer s) (dac s).
Definition set_lastEncoderCLK (v : Level) (s : State) : State :=
  mkState (currentMode s) (currentMenu s) (currentWaveform s) (currentSample s)
          (currentFreq s) (volume s) (selectedWaveform s) (isHighOctave s)
          (choppiness s) (currentNote s) (lastRatchetToggle s) (ratchetOn s) v
          (encoderValue s) (lastButtonState s) (lastButtonPress s) (timer s) (dac s).
Definition set_encoderValue (v : Z) (s : State) : State :=
  mkState (currentMode s) (currentMenu s) (currentWaveform s) (currentSample s)
          (currentFreq s) (volume s) (selectedWaveform s) (isHighOctave s)
          (choppiness s) (currentNote s) (lastRatchetToggle s) (ratchetOn s)
          (lastEncoderCLK s) v (lastButtonState s) (lastButtonPress s) (timer s)
          (dac s).
Definition set_lastButtonState (v : Level) (s : State) : State :=
  mkState (currentMode s) (currentMenu s) (currentWaveform s) (currentSample s)
          (currentFreq s) (volume s) (selectedWaveform s) (isHighOctave s)
          (choppiness s) (currentNote s) (lastRatchetToggle s) (ratchetOn s)
          (lastEncoderCLK s) (encoderValue s) v (lastButtonPress s) (timer s) (dac s).
Definition set_lastButtonPress (v : Z) (s : State) : State :=
  mkState (currentMode s) (currentMenu s) (currentWaveform s) (currentSample s)
          (currentFreq s) (volume s) (selectedWaveform s) (isHighOctave s)
          (choppiness s) (currentNote s) (lastRatchetToggle s) (ratchetOn s)
          (lastEncoderCLK s) (encoderValue s) (lastButtonState s) v (timer s) (dac s).
Definition set_timer (v : Timer) (s : State) : State :=
  mkState (currentMode s) (currentMenu s) (currentWaveform s) (currentSample s)
          (currentFreq s) (volume s) (selectedWaveform s) (isHighOctave s)
          (choppiness s) (currentNote s) (lastRatchetToggle s) (ratchetOn s)
          (lastEncoderCLK s) (encoderValue s) (lastButtonState s) (lastButtonPress s)
          v (dac s).
Definition dac_output_voltage (v : Z) (s : State) : State :=
  mkState (currentMode s) (currentMenu s) (currentWaveform s) (currentSample s)
          (currentFreq s) (volume s) (selectedWaveform s) (isHighOctave s)
          (choppiness s) (currentNote s) (lastRatchetToggle s) (ratchetOn s)
          (lastEncoderCLK s) (encoderValue s) (lastButtonState s) (lastButtonPress s)
          (timer s) (to_uint8 v).

(** The globals as initialised, after [setup]. *)
Definition initial_state : State :=
  mkState REST MENU_WAVEFORM SINE 0 0 128 SINE false 1 (-1) 0 true HIGH 50 HIGH 0
          (mkTimer 100 true true) 0.

(** *** Timer interrupt *)

(** The local [ratchetPeriod] of [onTimer]. *)
Definition ratchetPeriod (choppiness : Z) : result Z :=
  int_div 1000 (int_mul RATCHET_BASE_HZ (Z.quot choppiness 2)).

Definition onTimer (io : Inputs) (s : State) : result State :=
  (* Handle ratchet effect *)
  s <- (if choppiness s >? 1 then
          let now := to_ulong (millis io) in
          period <- ratchetPeriod (choppiness s) ;;
          if to_ulong (now - lastRatchetToggle s) >=? to_ulong period then
            let s := set_ratchetOn (negb (ratchetOn s)) s in
            Ok (set_lastRatchetToggle now s)
          else Ok s
        else
          Ok (set_ratchetOn true s)) ;;
  if (currentFreq s >? 0) && ratchetOn s then
    let scaledValue :=
      to_uint8 (Z.quot (int_mul (sample_at (currentWaveform s) (currentSample s))
                                (volume s)) 255) in
    let s := dac_output_voltage scaledValue s in
    Ok (set_currentSample (Z.rem (int_add (currentSample s) 1) SAMPLES) s)
  else
    Ok (dac_output_voltage 0 s).

(** *** Frequency control *)

Definition setFrequency (freq : spec_float) (s : State) : result State :=
  if SFleb freq (float_of_int 0) then
    Ok (set_currentFreq 0 s)
  else
    f <- float_to_int freq ;;
    let s := set_currentFreq f s in
    let t := timerAlarmDisable (timer s) in
    period <- int_div 1000000 (int_mul (currentFreq s) SAMPLES) ;;
    let t := timerAlarmWrite t period true in
    let t := timerAlarmEnable t in
    Ok (set_timer t s).

Definition stopNote (s : State) : State :=
  let s := set_currentFreq 0 s in
  let s := set_currentNote (-1) s in
  dac_output_voltage 0 s.

Definition playNote (io : Inputs) (noteIndex : Z) (s : State) : result State :=
  if (noteIndex <? 0) || (noteIndex >=? 12) then
    Ok (stopNote s)
  else
    let baseFreq := nth (Z.to_nat noteIndex) NOTE_FREQS_OCT4 S754_nan in
    let freq :=
      double_to_float
        (if isHighOctave s
         then SFmul 53 1024 (float_to_double baseFreq) (double_literal 20 10)
         else float_to_double baseFreq) in
    s <- setFrequency freq s ;;
    let s := set_currentNote noteIndex s in
    let s := set_lastRatchetToggle (to_ulong (millis io)) s in  (* Reset ratchet timing *)
    Ok (set_ratchetOn true s).

(** *** Keyboard scanning *)

Fixpoint scanKeys (io : Inputs) (pins : list Z) (i : Z) (s : State)
  : result (State * bool) :=
  match pins with
  | [] => Ok (s, false)
  | pin :: rest =>
      if Level_eqb (digitalRead io pin) HIGH then
        s <- (if negb (currentNote s =? i) then playNote io i s else Ok s) ;;
        Ok (s, true)
      else scanKeys io rest (i + 1) s
  end.

Definition scanKeyboard (io : Inputs) (s : State) : result State :=
  r <- scanKeys io KEY_PINS 0 s ;;
  let '(s, anyKeyPressed) := r in
  if negb anyKeyPressed && negb (currentNote s =? -1) then Ok (stopNote s) else Ok s.

(** *** Settings *)

Definition adjustCurrentSetting (io : Inputs) (direction : Z) (s : State)
  : result State :=
  match currentMenu s with
  | MENU_WAVEFORM =>
      (* Cycle through waveforms *)
      let s :=
        if direction >? 0
        then set_selectedWaveform
               (WaveType_of_int (Z.rem (WaveType_to_int (selectedWaveform s) + 1) 3)) s
        else set_selectedWaveform
               (WaveType_of_int (Z.rem (WaveType_to_int (selectedWaveform s) + 2) 3)) s in
      (* Update waveform pointer *)
      Ok (match selectedWaveform s with
          | SINE => set_currentWaveform SINE s
          | SQUARE => set_currentWaveform SQUARE s
          | TRIANGLE => set_currentWaveform TRIANGLE s
          end)
  | MENU_OCTAVE =>
      (* Toggle octave *)
      let s := set_isHighOctave (negb (isHighOctave s)) s in
      (* Update current note if playing *)
      if negb (currentNote s =? -1) then playNote io (currentNote s) s else Ok s
  | MENU_CHOPPINESS =>
      (* Cycle through choppiness: 1 -> 2 -> 4 -> 8 -> 1 *)
      if direction >? 0
      then Ok (set_choppiness
                 (if choppiness s >=? 8 then 1 else int_mul (choppiness s) 2) s)
      else Ok (set_choppiness
                 (if choppiness s <=? 1 then 8 else Z.quot (choppiness s) 2) s)
  end.

(** *** Rotary encoder *)

Definition constrain (x low high : Z) : Z :=
  if x <? low then low else if x >? high then high else x.

Definition readEncoder (io : Inputs) (s : State) : result State :=
  let currentCLK := digitalRead io ENCODER_CLK in
  s <- (if negb (Level_eqb currentCLK (lastEncoderCLK s)) && Level_eqb currentCLK LOW then
          let direction := if Level_eqb (digitalRead io ENCODER_DT) HIGH then 1 else -1 in
          match currentMode s with
          | REST =>
              (* Adjust volume *)
              let s := set_encoderValue (int_add (encoderValue s) (int_mul direction 5)) s in
              let s := set_encoderValue (constrain (encoderValue s) 0 100) s in
              Ok (set_volume (to_uint8 (Z.quot (int_mul (encoderValue s) 255) 100)) s)
          | MENU_BROWSE =>
              (* Cycle through menu screens *)
              if direction >? 0
              then Ok (set_currentMenu
                         (MenuScreen_of_int (Z.rem (MenuScreen_to_int (currentMenu s) + 1) 3)) s)
              else Ok (set_currentMenu
                         (MenuScreen_of_int (Z.rem (MenuScreen_to_int (currentMenu s) + 2) 3)) s)
          | SETTING_ADJUST => adjustCurrentSetting io direction s
          end
        else Ok s) ;;
  Ok (set_lastEncoderCLK currentCLK s).

Definition handleButtonPress (s : State) : State :=
  match currentMode s with
  | REST =>
      (* Enter menu *)
      let s := set_currentMode MENU_BROWSE s in
      set_currentMenu MENU_WAVEFORM s
  | MENU_BROWSE =>
      (* Enter setting adjustment *)
      set_currentMode SETTING_ADJUST s
  | SETTING_ADJUST =>
      (* Save and return to rest *)
      let s := set_currentMode REST s in
      set_encoderValue (Z.quot (int_mul (volume s) 100) 255) s
  end.

Definition readEncoderButton (io : Inputs) (s : State) : State :=
  let buttonState := digitalRead io ENCODER_SW in
  let s :=
    if Level_eqb buttonState LOW && Level_eqb (lastButtonState s) HIGH
       && (to_ulong (millis io - lastButtonPress s) >? buttonDebounce)
    then
      let s := handleButtonPress s in
      set_lastButtonPress (to_ulong (millis io)) s
    else s in
  set_lastButtonState buttonState s.

(** *** Main loop *)

Definition loop (io : Inputs) (s : State) : result State :=
  s <- readEncoder io s ;;
  let s := readEncoderButton io s in
  scanKeyboard io s.

(** *** Runs *)

(** Consecutive invocations of [onTimer], one per element of [ios] (the
    clock seen by each): the values written to the DAC, oldest first, and
    the state reached. *)
Fixpoint ticks (ios : list Inputs) (s : State) : result (list Z * State) :=
  match ios with
  | [] => Ok ([], s)
  | io :: rest =>
      s1 <- onTimer io s ;;
      r <- ticks rest s1 ;;
      Ok (dac s1 :: fst r, snd r)
  end.

(** Consecutive calls of [adjustCurrentSetting], one per direction. *)
Fixpoint adjust_many (io : Inputs) (directions : list Z) (s : State) : result State :=
  match directions with
  | [] => Ok s
  | d :: rest => s1 <- adjustCurrentSetting io d s ;; adjust_many io rest s1
  end.

Definition valid_choppiness (c : Z) : Prop := c = 1 \/ c = 2 \/ c = 4 \/ c = 8.

(** A note is sounding: a key is recorded and the programmed frequency is
    the one [playNote] gives that key at the current octave. *)
Definition sounding (s : State) : Prop :=
  0 <= currentNote s < 12 /\
  forall io, exists s', playNote io (currentNote s) s = Ok s' /\ currentFreq s' = currentFreq s.

(** *** 7-segment display *)

Definition SEG_PINS : list Z := [34; 35; 36; 39; 25; 26; 27].

Definition PATTERN_REST : Z := 73.              (* 0b01001001 *)

Definition VOLUME_PATTERNS : list Z :=
  [ 0     (* 0b00000000 *)
  ; 1     (* 0b00000001 *)
  ; 3     (* 0b00000011 *)
  ; 7     (* 0b00000111 *)
  ; 15    (* 0b00001111 *)
  ; 31    (* 0b00011111 *)
  ; 63    (* 0b00111111 *)
  ; 63    (* 0b00111111 *)
  ; 63    (* 0b00111111 *) ].

Definition PATTERN_MENU_WAVEFORM : Z := 118.    (* 0b01110110 *)
Definition PATTERN_MENU_OCTAVE : Z := 63.       (* 0b00111111 *)
Definition PATTERN_MENU_CHOPPINESS : Z := 6.    (* 0b00000110 *)

Definition PATTERN_WAVE_SINE : Z := 63.         (* 0b00111111 *)
Definition PATTERN_WAVE_SQUARE : Z := 39.       (* 0b00100111 *)
Definition PATTERN_WAVE_TRIANGLE : Z := 33.     (* 0b00100001 *)

Definition PATTERN_OCTAVE_LOW : Z := 8.         (* 0b00001000 *)
Definition PATTERN_OCTAVE_HIGH : Z := 1.        (* 0b00000001 *)

Definition PATTERN_CHOP_1 : Z := 16.            (* 0b00010000 *)
Definition PATTERN_CHOP_2 : Z := 24.            (* 0b00011000 *)
Definition PATTERN_CHOP_4 : Z := 56.            (* 0b00111000 *)
Definition PATTERN_CHOP_8 : Z := Z.lor 56 32.   (* 0b00111000 | 0b00100000 *)

(** The [digitalWrite] calls of one [updateDisplay]; [None] when the pattern
    would be read outside its table. *)
Definition updateDisplay (s : State) : option (list (Z * Level)) :=
  match
    (match currentMode s with
     | REST =>
         (* Show volume as filling circle *)
         let volumeLevel := Z.quot (int_mul (encoderValue s) 8) 100 in
         let volumeLevel := if volumeLevel >? 8 then 8 else volumeLevel in
         array_read VOLUME_PATTERNS volumeLevel
     | MENU_BROWSE =>
         (* Show which menu screen we're on *)
         Some (match currentMenu s with
               | MENU_WAVEFORM => PATTERN_MENU_WAVEFORM
               | MENU_OCTAVE => PATTERN_MENU_OCTAVE
               | MENU_CHOPPINESS => PATTERN_MENU_CHOPPINESS
               end)
     | SETTING_ADJUST =>
         (* Show current setting value *)
         Some (match currentMenu s with
               | MENU_WAVEFORM =>
                   match selectedWaveform s with
                   | SINE => PATTERN_WAVE_SINE
                   | SQUARE => PATTERN_WAVE_SQUARE
                   | TRIANGLE => PATTERN_WAVE_TRIANGLE
                   end
               | MENU_OCTAVE =>
                   if isHighOctave s then PATTERN_OCTAVE_HIGH else PATTERN_OCTAVE_LOW
               | MENU_CHOPPINESS =>
                   if choppiness s =? 1 then PATTERN_CHOP_1
                   else if choppiness s =? 2 then PATTERN_CHOP_2
                   else if choppiness s =? 4 then PATTERN_CHOP_4
                   else if choppiness s =? 8 then PATTERN_CHOP_8
                   else 0
               end)
     end)
  with
  | Some pattern => Some (write_segments SEG_PINS pattern)
  | None => None
  end.

(** *** Interleavings *)

(** What happens next: the timer interrupt fires (with the clock it reads),
    or the main loop runs one iteration (with the inputs it reads).  The
    interrupt is taken between two iterations. *)
Inductive Event : Type :=
| Tick (io : Inputs)
| Loop (io : Inputs).

Fixpoint run (events : list Event) (s : State) : result State :=
  match events with
  | [] => Ok s
  | Tick io :: rest => s1 <- onTimer io s ;; run rest s1
  | Loop io :: rest => s1 <- loop io s ;; run rest s1
  end.

(** The state invariant of the sketch. *)
Definition well_formed (s : State) : Prop :=
  0 <= currentSample s < SAMPLES /\
  0 <= volume s <= 255 /\
  0 <= encoderValue s <= 100 /\
  currentWaveform s = selectedWaveform s /\
  valid_choppiness (choppiness s) /\
  ((currentNote s = -1 /\ currentFreq s = 0) \/
   (0 <= currentNote s < 12 /\
    float_to_int (note_frequency (currentNote s) (isHighOctave s)) = Ok (currentFreq s))) /\
  alarm_enabled (timer s) = true /\
  3 <= alarm_value (timer s) <= 100 /\
  0 <= dac s <= 255.

End Menu.

(** ** Frames *)

(** What note-on and note-off leave alone. *)
Definition Basic_same_controls (s s' : Basic.State) : Prop :=
  Basic.currentWaveform s' = Basic.currentWaveform s /\
  Basic.currentSample s' = Basic.currentSample s /\
  Basic.volume s' = Basic.volume s /\
  Basic.selectedWaveform s' = Basic.selectedWaveform s /\
  Basic.isHighOctave s' = Basic.isHighOctave s /\
  Basic.lastEncoderCLK s' = Basic.lastEncoderCLK s /\
  Basic.encoderPos s' = Basic.encoderPos s /\
  Basic.lastDebounceTime s' = Basic.lastDebounceTime s.

Definition Menu_same_controls (s s' : Menu.State) : Prop :=
  Menu.currentMode s' = Menu.currentMode s /\
  Menu.currentMenu s' = Menu.currentMenu s /\
  Menu.currentWaveform s' = Menu.currentWaveform s /\
  Menu.currentSample s' = Menu.currentSample s /\
  Menu.volume s' = Menu.volume s /\
  Menu.selectedWaveform s' = Menu.selectedWaveform s /\
  Menu.isHighOctave s' = Menu.isHighOctave s /\
  Menu.choppiness s' = Menu.choppiness s /\
  Menu.lastEncoderCLK s' = Menu.lastEncoderCLK s /\
  Menu.encoderValue s' = Menu.encoderValue s /\
  Menu.lastButtonState s' = Menu.lastButtonState s /\
  Menu.lastButtonPress s' = Menu.lastButtonPress s.

(** ** The specification's formulas, for comparison with the code *)

(** Rounding to the nearest integer, halves upwards. *)
Definition spec_round (x : R) : Z := Int_part (x + 0.5)%R.

(** 4.1: sample[i] = round(127.5 + 127.5 sin(2 pi i / N)). *)
Definition spec_sine_sample (i : Z) : Z :=
  spec_round (127.5 + 127.5 * sin (2 * PI * IZR i / IZR SAMPLES))%R.

(** 4.3: interrupt period = 1,000,000 / (frequency_Hz x N) microseconds. *)
Definition spec_interrupt_period (frequency_Hz : Q) : Q :=
  (1000000 / (frequency_Hz * inject_Z SAMPLES))%Q.

(** 4.5: period = 1000 / (base_rate_hz x choppiness/2) milliseconds. *)
Definition spec_ratchet_period (base_rate_hz choppiness : Q) : Q :=
  (1000 / (base_rate_hz * (choppiness / 2)))%Q.

(** * Properties *)

(** ** Arrays and counted loops *)

Lemma store_length (arr : list Z) : forall i v, length (store arr i v) = length arr.
Proof.
  induction arr as [|h t IH]; intros [|i] v; simpl; auto.
Qed.

Lemma nth_store_same (arr : list Z) :
  forall i v d, (i < length arr)%nat -> nth i (store arr i v) d = v.
Proof.
  induction arr as [|h t IH]; intros [|i] v d H; simpl in *; try lia; auto.
  apply IH; lia.
Qed.

Lemma nth_store_other (arr : list Z) :
  forall i j v d, i <> j -> nth j (store arr i v) d = nth j arr d.
Proof.
  induction arr as [|h t IH]; intros [|i] [|j] v d H; simpl; auto; try congruence.
Qed.

Lemma for_range_S {S : Type} (n : nat) (body : Z -> S -> S) (s : S) :
  for_range (Datatypes.S n) body s = body (Z.of_nat n) (for_range n body s).
Proof.
  unfold for_range. rewrite seq_S, fold_left_app. reflexivity.
Qed.

Section Fill.

Variable f : Z -> Z.

Let fill (n : nat) (arr : list Z) : list Z :=
  for_range n (fun i a => store a (Z.to_nat i) (f i)) arr.

Lemma fill_length (n : nat) (arr : list Z) : length (fill n arr) = length arr.
Proof.
  induction n as [|n IH]; [reflexivity|].
  unfold fill in *. rewrite for_range_S, store_length. exact IH.
Qed.

Lemma fill_nth (n : nat) (arr : list Z) (k : nat) (d : Z) :
  (n <= length arr)%nat ->
  nth k (fill n arr) d = if (k <? n)%nat then f (Z.of_nat k) else nth k arr d.
Proof.
  induction n as [|n IH]; intros Hn.
  - reflexivity.
  - pose proof (fill_length n arr) as Hlen.
    unfold fill in *. rewrite for_range_S, Nat2Z.id.
    destruct (Nat.eq_dec k n) as [->|Hk].
    + rewrite nth_store_same by lia.
      replace (n <? Datatypes.S n)%nat with true by (symmetry; apply Nat.ltb_lt; lia).
      reflexivity.
    + rewrite nth_store_other by congruence.
      rewrite IH by lia.
      destruct (Nat.ltb_spec k n), (Nat.ltb_spec k (Datatypes.S n)); auto; lia.
Qed.

Lemma for_range_sineWave (n : nat) (t : Tables) :
  for_range n (fun i t => mkTables (squareWave t) (triangleWave t)
                                   (store (sineWave t) (Z.to_nat i) (f i))) t
  = mkTables (squareWave t) (triangleWave t) (fill n (sineWave t)).
Proof.
  induction n as [|n IH]; [destruct t; reflexivity|].
  unfold fill in *. rewrite !for_range_S, IH. reflexivity.
Qed.

Lemma for_range_triangleWave (n : nat) (t : Tables) :
  for_range n (fun i t => mkTables (squareWave t)
                                   (store (triangleWave t) (Z.to_nat i) (f i))
                                   (sineWave t)) t
  = mkTables (squareWave t) (fill n (triangleWave t)) (sineWave t).
Proof.
  induction n as [|n IH]; [destruct t; reflexivity|].
  unfold fill in *. rewrite !for_range_S, IH. reflexivity.
Qed.

Lemma for_range_squareWave (n : nat) (t : Tables) :
  for_range n (fun i t => mkTables (store (squareWave t) (Z.to_nat i) (f i))
                                   (triangleWave t) (sineWave t)) t
  = mkTables (fill n (squareWave t)) (triangleWave t) (sineWave t).
Proof.
  induction n as [|n IH]; [destruct t; reflexivity|].
  unfold fill in *. rewrite !for_range_S, IH. reflexivity.
Qed.

End Fill.

(** ** The generated tables *)

Lemma zero_tables_length :
  length (squareWave zero_tables) = Z.to_nat SAMPLES /\
  length (triangleWave zero_tables) = Z.to_nat SAMPLES /\
  length (sineWave zero_tables) = Z.to_nat SAMPLES.
Proof.
  unfold zero_tables; cbn [squareWave triangleWave sineWave].
  rewrite repeat_length. auto.
Qed.

Lemma in_table (i : Z) : 0 <= i < SAMPLES -> (Z.to_nat i <? Z.to_nat SAMPLES)%nat = true.
Proof.
  intros H. apply Nat.ltb_lt. unfold SAMPLES in *. lia.
Qed.

Lemma sineWave_nth (i : Z) :
  0 <= i < SAMPLES -> nth (Z.to_nat i) (sineWave tables) 0 = sine_sample i.
Proof.
  intros H. destruct zero_tables_length as (Hq & Ht & Hs).
  unfold tables, generateWaveforms.
  rewrite for_range_sineWave, for_range_triangleWave, for_range_squareWave.
  cbn [squareWave triangleWave sineWave].
  rewrite fill_nth by lia. rewrite in_table by assumption. f_equal. lia.
Qed.

Lemma triangleWave_nth (i : Z) :
  0 <= i < SAMPLES -> nth (Z.to_nat i) (triangleWave tables) 0 = triangle_sample i.
Proof.
  intros H. destruct zero_tables_length as (Hq & Ht & Hs).
  unfold tables, generateWaveforms.
  rewrite for_range_sineWave, for_range_triangleWave, for_range_squareWave.
  cbn [squareWave triangleWave sineWave].
  rewrite fill_nth by lia. rewrite in_table by assumption. f_equal. lia.
Qed.

Lemma squareWave_nth (i : Z) :
  0 <= i < SAMPLES -> nth (Z.to_nat i) (squareWave tables) 0 = square_sample i.
Proof.
  intros H. destruct zero_tables_length as (Hq & Ht & Hs).
  unfold tables, generateWaveforms.
  rewrite for_range_sineWave, for_range_triangleWave, for_range_squareWave.
  cbn [squareWave triangleWave sineWave].
  rewrite fill_nth by lia. rewrite in_table by assumption. f_equal. lia.
Qed.

(** The square table holds 255 over the first half of its indices and 0
    over the second half: a 50% duty cycle. *)
Lemma square_table_shape (i : Z) :
  0 <= i < SAMPLES ->
  nth (Z.to_nat i) (squareWave tables) 0 = if i <? SAMPLES / 2 then 255 else 0.
Proof.
  intros H. rewrite squareWave_nth by assumption. reflexivity.
Qed.


(** ** Machine arithmetic within range *)

(** Linear arithmetic with [/] and [mod] by constants. *)
Ltac div_lia := Z.to_euclidean_division_equations; lia.

Lemma wrap_int_small (z : Z) : INT_MIN <= z <= INT_MAX -> wrap_int z = z.
Proof.
  unfold INT_MIN, INT_MAX, wrap_int. intros H.
  rewrite Z.mod_small; lia.
Qed.

Lemma to_uint8_small (z : Z) : 0 <= z < 256 -> to_uint8 z = z.
Proof.
  intros H. unfold to_uint8. apply Z.mod_small. exact H.
Qed.

Lemma to_uint8_idem (z : Z) : to_uint8 (to_uint8 z) = to_uint8 z.
Proof.
  unfold to_uint8. apply Z.mod_mod. lia.
Qed.

(** ** The triangle table *)

Lemma triangle_sample_first_half (i : Z) :
  0 <= i < 128 -> triangle_sample i = 2 * i.
Proof.
  intros H. unfold triangle_sample, int_mul, SAMPLES.
  change (Z.quot 256 2) with 128.
  destruct (Z.ltb_spec i 128) as [_|]; [|lia].
  rewrite wrap_int_small by (unfold INT_MIN, INT_MAX; lia).
  rewrite Z.quot_div_nonneg by lia.
  rewrite to_uint8_small; div_lia.
Qed.

Lemma triangle_sample_second_half (i : Z) :
  128 <= i < 256 -> triangle_sample i = 511 - 2 * i.
Proof.
  intros H. unfold triangle_sample, int_mul, int_sub, SAMPLES.
  change (Z.quot 256 2) with 128.
  destruct (Z.ltb_spec i 128) as [|_]; [lia|].
  rewrite (wrap_int_small (i - 128)) by (unfold INT_MIN, INT_MAX; lia).
  rewrite (wrap_int_small ((i - 128) * 512)) by (unfold INT_MIN, INT_MAX; lia).
  rewrite Z.quot_div_nonneg by lia.
  rewrite wrap_int_small by (unfold INT_MIN, INT_MAX; div_lia).
  rewrite to_uint8_small; div_lia.
Qed.

(** C6. The triangle table is [i*512/N] over the first half and
    [255 - (i - N/2)*512/N] over the second; it starts at 0, reaches 254 at
    [N/2 - 1] (one below 255) and ends at 1 (one above 0, the nearest value
    the ramp reaches); it does not decrease over the first half and does not
    increase over the second. *)
Theorem triangle_table_shape (i j : Z) :
  0 <= i < SAMPLES -> i <= j < SAMPLES ->
  nth (Z.to_nat i) (triangleWave tables) 0
    = (if i <? SAMPLES / 2 then i * 512 / SAMPLES
       else 255 - (i - SAMPLES / 2) * 512 / SAMPLES) /\
  (j < SAMPLES / 2 ->
   nth (Z.to_nat i) (triangleWave tables) 0 <= nth (Z.to_nat j) (triangleWave tables) 0) /\
  (SAMPLES / 2 <= i ->
   nth (Z.to_nat j) (triangleWave tables) 0 <= nth (Z.to_nat i) (triangleWave tables) 0) /\
  nth 0 (triangleWave tables) 0 = 0 /\
  nth (Z.to_nat (SAMPLES / 2 - 1)) (triangleWave tables) 0 = 254 /\
  nth (Z.to_nat (SAMPLES - 1)) (triangleWave tables) 0 = 1.
Proof.
  intros Hi Hj.
  rewrite (triangleWave_nth i), (triangleWave_nth j) by lia.
  change 0%nat with (Z.to_nat 0).
  rewrite (triangleWave_nth 0), (triangleWave_nth (SAMPLES / 2 - 1)),
    (triangleWave_nth (SAMPLES - 1)) by (unfold SAMPLES; div_lia).
  unfold SAMPLES in *. change (256 / 2) with 128.
  repeat split.
  - destruct (Z.ltb_spec i 128).
    + rewrite triangle_sample_first_half by lia. div_lia.
    + rewrite triangle_sample_second_half by lia. div_lia.
  - intros H. rewrite !triangle_sample_first_half by lia. lia.
  - intros H. rewrite !triangle_sample_second_half by lia. lia.
Qed.

Lemma triangle_table_shape_witness :
  nth (Z.to_nat 100) (triangleWave tables) 0 = 200 /\
  nth (Z.to_nat 100) (triangleWave tables) 0 <= nth (Z.to_nat 120) (triangleWave tables) 0.
Proof.
  assert (Hi : 0 <= 100 < SAMPLES) by (unfold SAMPLES; lia).
  assert (Hj : 100 <= 120 < SAMPLES) by (unfold SAMPLES; lia).
  destruct (triangle_table_shape 100 120 Hi Hj) as (Hv & Hup & _).
  split.
  - exact Hv.
  - apply Hup. unfold SAMPLES. reflexivity.
Defined.

(** ** The sine table *)

Lemma sine_value_range (i : Z) : (0 <= sine_value i <= 255)%R.
Proof.
  unfold sine_value.
  pose proof (SIN_bound (2.0 * PI * IZR i / IZR SAMPLES)) as Hs.
  lra.
Qed.

Lemma Int_part_byte (x : R) :
  (0 <= x <= 255)%R -> 0 <= Int_part x <= 255.
Proof.
  intros [Hlo Hhi]. destruct (base_Int_part x) as [Hle Hgt].
  split.
  - assert (IZR (-1) < IZR (Int_part x))%R as H by (simpl; lra).
    apply lt_IZR in H. lia.
  - apply le_IZR. lra.
Qed.

Lemma sine_sample_floor (i : Z) : sine_sample i = Int_part (sine_value i).
Proof.
  pose proof (sine_value_range i) as Hr.
  change (sine_sample i) with (double_to_uint8 (sine_value i)).
  unfold double_to_uint8, Rtrunc.
  destruct (Rle_dec 0 (sine_value i)) as [_|Hn]; [|lra].
  apply to_uint8_small. pose proof (Int_part_byte _ Hr). lia.
Qed.

Lemma sine_value_half_turn (i : Z) :
  sine_value (i + SAMPLES / 2) = (255 - sine_value i)%R.
Proof.
  unfold sine_value, SAMPLES. change (256 / 2) with 128.
  rewrite plus_IZR.
  replace (2.0 * PI * (IZR i + IZR 128) / IZR 256)%R
    with (2.0 * PI * IZR i / IZR 256 + PI)%R by lra.
  rewrite neg_sin. lra.
Qed.

Lemma sqrt2_bounds : (1.414 < sqrt 2 < 1.415)%R.
Proof.
  assert (H0 : (0 <= sqrt 2)%R) by apply sqrt_pos.
  assert (H2 : (sqrt 2 * sqrt 2 = 2)%R) by (apply sqrt_def; lra).
  split; nra.
Qed.

Lemma sine_value_32 : sine_value 32 = (127.5 + 63.75 * sqrt 2)%R.
Proof.
  unfold sine_value, SAMPLES.
  replace (2.0 * PI * IZR 32 / IZR 256)%R with (PI / 4)%R by lra.
  rewrite sin_PI4.
  assert (H2 : (sqrt 2 * sqrt 2 = 2)%R) by (apply sqrt_def; lra).
  pose proof sqrt2_bounds.
  field_simplify_eq; lra.
Qed.

(** C5, as stated: at index 32 (an eighth of a turn) the table holds 217,
    where rounding 127.5 + 127.5 sin(pi/4) = 217.65... gives 218. *)
Lemma sine_table_is_not_rounded :
  nth (Z.to_nat 32) (sineWave tables) 0 = 217 /\
  spec_sine_sample 32 = 218 /\
  nth (Z.to_nat 32) (sineWave tables) 0 <> spec_sine_sample 32.
Proof.
  pose proof sqrt2_bounds as Hs.
  assert (Ht : nth (Z.to_nat 32) (sineWave tables) 0 = 217).
  { rewrite sineWave_nth by (unfold SAMPLES; lia).
    rewrite sine_sample_floor. symmetry. apply Int_part_spec.
    rewrite sine_value_32. lra. }
  assert (Hr : spec_sine_sample 32 = 218).
  { unfold spec_sine_sample, spec_round.
    replace (127.5 + 127.5 * sin (2 * PI * IZR 32 / IZR SAMPLES))%R
      with (sine_value 32) by (unfold sine_value; f_equal; f_equal; f_equal; lra).
    symmetry. apply Int_part_spec. rewrite sine_value_32. lra. }
  rewrite Ht, Hr. repeat split; lia.
Qed.

(** C5, amended. For every index i in [0, N) the sine table holds
    127.5 + 127.5 sin(2 pi i / N) truncated to an integer (the cast drops the
    fraction, it does not round), a value of [0, 255]; sample[0] is 127, and
    for i < N/2 the sum sample[i] + sample[i + N/2] is 254 or 255. *)
Theorem sine_table_truncated (i : Z) :
  0 <= i < SAMPLES ->
  (IZR (nth (Z.to_nat i) (sineWave tables) 0%Z) <= sine_value i
     < IZR (nth (Z.to_nat i) (sineWave tables) 0%Z) + 1)%R /\
  0 <= nth (Z.to_nat i) (sineWave tables) 0 <= 255 /\
  nth 0 (sineWave tables) 0 = 127 /\
  (i < SAMPLES / 2 ->
   254 <= nth (Z.to_nat i) (sineWave tables) 0
          + nth (Z.to_nat (i + SAMPLES / 2)) (sineWave tables) 0 <= 255).
Proof.
  intros Hi.
  rewrite sineWave_nth, sine_sample_floor by assumption.
  pose proof (sine_value_range i) as Hr.
  destruct (base_Int_part (sine_value i)) as [Hle Hgt].
  repeat split.
  - exact Hle.
  - lra.
  - apply (Int_part_byte _ Hr).
  - apply (Int_part_byte _ Hr).
  - change 0%nat with (Z.to_nat 0).
    rewrite sineWave_nth, sine_sample_floor by (unfold SAMPLES; lia).
    symmetry. apply Int_part_spec.
    unfold sine_value, SAMPLES.
    replace (2.0 * PI * IZR 0 / IZR 256)%R with 0%R by lra.
    rewrite sin_0. lra.
  - assert (Hh : 0 <= i + SAMPLES / 2 < SAMPLES) by (unfold SAMPLES in *; div_lia).
    rewrite (sineWave_nth _ Hh), sine_sample_floor, sine_value_half_turn.
    destruct (base_Int_part (255 - sine_value i)%R) as [Hle' Hgt'].
    assert (IZR (253 - Int_part (sine_value i))
            < IZR (Int_part (255 - sine_value i)))%R as Hlt
      by (rewrite minus_IZR; lra).
    apply lt_IZR in Hlt. lia.
  - assert (Hh : 0 <= i + SAMPLES / 2 < SAMPLES) by (unfold SAMPLES in *; div_lia).
    rewrite (sineWave_nth _ Hh), sine_sample_floor, sine_value_half_turn.
    destruct (base_Int_part (255 - sine_value i)%R) as [Hle' Hgt'].
    assert (IZR (Int_part (255 - sine_value i))
            <= IZR (255 - Int_part (sine_value i)))%R as Hlt
      by (rewrite minus_IZR; lra).
    apply le_IZR in Hlt. lia.
Qed.

Lemma sine_table_truncated_witness :
  0 <= nth (Z.to_nat 5) (sineWave tables) 0 <= 255 /\
  254 <= nth (Z.to_nat 5) (sineWave tables) 0
         + nth (Z.to_nat (5 + SAMPLES / 2)) (sineWave tables) 0 <= 255.
Proof.
  assert (Hi : 0 <= 5 < SAMPLES) by (unfold SAMPLES; lia).
  destruct (sine_table_truncated 5 Hi) as (_ & Hb & _ & Hsym).
  split.
  - exact Hb.
  - apply Hsym. unfold SAMPLES. reflexivity.
Defined.

(** ** Resolving and programming a note *)

(** The twelve keys. *)
Lemma note_cases (k : Z) : 0 <= k < 12 -> In k (map Z.of_nat (seq 0 12)).
Proof.
  intros H. replace k with (Z.of_nat (Z.to_nat k)) by lia.
  apply in_map, in_seq. lia.
Qed.

Ltac each_note H :=
  apply note_cases in H; cbn in H;
  repeat (destruct H as [H|H]; [symmetry in H|]); [subst .. | contradiction].

(** One key at one octave, by evaluation. *)
Ltac note_case :=
  repeat match goal with
         | s : Basic.State |- _ => destruct s
         | s : Menu.State |- _ => destruct s
         | b : bool |- _ => destruct b
         end;
  (eexists; split; [vm_compute; reflexivity | split; [lia | reflexivity]]).

(** The table frequencies are positive numbers; the high octave doubles them
    exactly (same mantissa, next exponent); truncated to [int] the doubled
    frequency is twice the truncated one, or one more. *)
Lemma note_frequency_octaves (n : Z) :
  0 <= n < 12 ->
  exists (m : positive) (e lo hi : Z),
    note_frequency n false = S754_finite false m e /\
    note_frequency n true = S754_finite false m (e + 1) /\
    float_to_int (note_frequency n false) = Ok lo /\
    float_to_int (note_frequency n true) = Ok hi /\
    261 <= lo <= 493 /\ 2 * lo <= hi <= 2 * lo + 1.
Proof.
  intros H. each_note H; do 4 eexists;
    (split; [vm_compute; reflexivity|]); (split; [vm_compute; reflexivity|]);
    (split; [vm_compute; reflexivity|]); (split; [vm_compute; reflexivity|]); lia.
Qed.

(** What [playNote] does with a valid key: the resolved frequency is
    truncated to [f]; the alarm is rewritten with 1000000 / (f * 256) and
    re-enabled. *)
Lemma Basic_playNote_valid (n : Z) (s : Basic.State) :
  0 <= n < 12 ->
  exists f : Z,
    float_to_int (note_frequency n (Basic.isHighOctave s)) = Ok f /\
    261 <= f <= 987 /\
    Basic.playNote n s
    = Ok (Basic.set_currentNote n
            (Basic.set_timer (mkTimer (1000000 / (f * SAMPLES)) true true)
               (Basic.set_currentFreq f s))).
Proof.
  intros H. each_note H; note_case.
Qed.

Lemma Menu_playNote_valid (io : Inputs) (n : Z) (s : Menu.State) :
  0 <= n < 12 ->
  exists f : Z,
    float_to_int (note_frequency n (Menu.isHighOctave s)) = Ok f /\
    261 <= f <= 987 /\
    Menu.playNote io n s
    = Ok (Menu.set_ratchetOn true
            (Menu.set_lastRatchetToggle (to_ulong (millis io))
               (Menu.set_currentNote n
                  (Menu.set_timer (mkTimer (1000000 / (f * SAMPLES)) true true)
                     (Menu.set_currentFreq f s))))).
Proof.
  intros H. each_note H; note_case.
Qed.

(** [playNote] passes [note_frequency] to [setFrequency]. *)
Lemma playNote_resolves (io : Inputs) (n : Z) (sb : Basic.State) (sm : Menu.State) :
  0 <= n < 12 ->
  Basic.playNote n sb
  = (s <- Basic.setFrequency (note_frequency n (Basic.isHighOctave sb)) sb ;;
     Ok (Basic.set_currentNote n s)) /\
  Menu.playNote io n sm
  = (s <- Menu.setFrequency (note_frequency n (Menu.isHighOctave sm)) sm ;;
     Ok (Menu.set_ratchetOn true
           (Menu.set_lastRatchetToggle (to_ulong (millis io))
              (Menu.set_currentNote n s)))).
Proof.
  intros H.
  assert (Hg : (n <? 0) || (n >=? 12) = false).
  { apply orb_false_iff. split; [apply Z.ltb_ge | rewrite Z.geb_leb; apply Z.leb_gt]; lia. }
  unfold Basic.playNote, Menu.playNote. rewrite Hg. split; reflexivity.
Qed.

(** ** Note-off *)

(** C7. For every note index outside [0, 11], [playNote] does exactly what
    [stopNote] does, in both editions: the target frequency becomes 0, the
    note identity -1, the DAC is written with 0, and nothing else changes (no
    table frequency is resolved, the timer is not reprogrammed). *)
Theorem playNote_out_of_range_is_stopNote
        (noteIndex : Z) (io : Inputs) (sb : Basic.State) (sm : Menu.State) :
  noteIndex < 0 \/ 11 < noteIndex ->
  Basic.playNote noteIndex sb = Ok (Basic.stopNote sb) /\
  Menu.playNote io noteIndex sm = Ok (Menu.stopNote sm) /\
  Basic.stopNote sb
    = Basic.dac_output_voltage 0 (Basic.set_currentNote (-1) (Basic.set_currentFreq 0 sb)) /\
  Menu.stopNote sm
    = Menu.dac_output_voltage 0 (Menu.set_currentNote (-1) (Menu.set_currentFreq 0 sm)) /\
  Basic.currentFreq (Basic.stopNote sb) = 0 /\
  Basic.currentNote (Basic.stopNote sb) = -1 /\
  Basic.timer (Basic.stopNote sb) = Basic.timer sb /\
  Menu.currentFreq (Menu.stopNote sm) = 0 /\
  Menu.currentNote (Menu.stopNote sm) = -1 /\
  Menu.timer (Menu.stopNote sm) = Menu.timer sm.
Proof.
  intros H.
  assert (Hg : (noteIndex <? 0) || (noteIndex >=? 12) = true).
  { apply orb_true_iff. destruct H as [H|H].
    - left. apply Z.ltb_lt. exact H.
    - right. apply Z.geb_le. lia. }
  unfold Basic.playNote, Menu.playNote. rewrite Hg.
  repeat split.
Qed.

Lemma playNote_out_of_range_is_stopNote_witness :
  Basic.playNote 12 Basic.initial_state = Ok (Basic.stopNote Basic.initial_state) /\
  Menu.playNote (mkInputs (fun _ => LOW) 0) (-1) Menu.initial_state
    = Ok (Menu.stopNote Menu.initial_state).
Proof.
  split.
  - apply (playNote_out_of_range_is_stopNote 12 (mkInputs (fun _ => LOW) 0)
             Basic.initial_state Menu.initial_state). lia.
  - apply (playNote_out_of_range_is_stopNote (-1) (mkInputs (fun _ => LOW) 0)
             Basic.initial_state Menu.initial_state). lia.
Defined.

(** ** The guard of [setFrequency] *)

Lemma float_nonpositive_leb (freq : spec_float) :
  float_nonpositive freq <-> SFleb freq (float_of_int 0) = true.
Proof.
  change (float_of_int 0) with (S754_zero false).
  destruct freq as [s|s| |s m e]; simpl; try tauto.
  - destruct s; simpl; intuition congruence.
  - split; [tauto | discriminate].
  - destruct s; simpl; intuition congruence.
Qed.

(** C8. For every frequency argument less than or equal to 0, [setFrequency]
    sets the target frequency to 0 and returns at once: the result is the
    state with only [currentFreq] changed, so the timer is left as it was and
    no period division (hence none by zero or by a negative number) takes
    place.  Both editions. *)
Theorem setFrequency_nonpositive_is_silence
        (freq : spec_float) (sb : Basic.State) (sm : Menu.State) :
  float_nonpositive freq ->
  Basic.setFrequency freq sb = Ok (Basic.set_currentFreq 0 sb) /\
  Menu.setFrequency freq sm = Ok (Menu.set_currentFreq 0 sm) /\
  Basic.currentFreq (Basic.set_currentFreq 0 sb) = 0 /\
  Basic.timer (Basic.set_currentFreq 0 sb) = Basic.timer sb /\
  Menu.currentFreq (Menu.set_currentFreq 0 sm) = 0 /\
  Menu.timer (Menu.set_currentFreq 0 sm) = Menu.timer sm.
Proof.
  intros H. apply float_nonpositive_leb in H.
  unfold Basic.setFrequency, Menu.setFrequency. rewrite H.
  repeat split.
Qed.

Lemma setFrequency_nonpositive_is_silence_witness :
  Basic.setFrequency (float_of_int (-3)) Basic.initial_state
    = Ok (Basic.set_currentFreq 0 Basic.initial_state) /\
  Menu.setFrequency (S754_zero true) Menu.initial_state
    = Ok (Menu.set_currentFreq 0 Menu.initial_state).
Proof.
  split.
  - apply (setFrequency_nonpositive_is_silence (float_of_int (-3))
             Basic.initial_state Menu.initial_state).
    reflexivity.
  - apply (setFrequency_nonpositive_is_silence (S754_zero true)
             Basic.initial_state Menu.initial_state).
    exact I.
Defined.

(** ** The phase index and the foreground code *)

(** Conjunctions only (an existential is left for its witness). *)
Ltac split_all := repeat match goal with |- _ /\ _ => split end.

(** Inversion of a successful monadic computation. *)
Ltac inv_ok :=
  repeat match goal with
         | H : Ok _ = Ok _ |- _ => injection H as H; try subst
         | H : Fault _ = Ok _ |- _ => discriminate H
         | H : bind ?c _ = Ok _ |- _ =>
             let E := fresh "E" in destruct c eqn:E; cbn [bind] in H
         | H : (if ?b then _ else _) = Ok _ |- _ =>
             let E := fresh "E" in destruct b eqn:E
         end.

Lemma Basic_setFrequency_phase (freq : spec_float) (s s' : Basic.State) :
  Basic.setFrequency freq s = Ok s' -> Basic.currentSample s' = Basic.currentSample s.
Proof.
  unfold Basic.setFrequency. intros H. inv_ok; reflexivity.
Qed.

Lemma Basic_playNote_phase (n : Z) (s s' : Basic.State) :
  Basic.playNote n s = Ok s' -> Basic.currentSample s' = Basic.currentSample s.
Proof.
  unfold Basic.playNote. intros H. inv_ok.
  - reflexivity.
  - apply Basic_setFrequency_phase in E0. exact E0.
Qed.

Lemma Basic_scanKeys_phase (io : Inputs) (pins : list Z) :
  forall (i : Z) (s s' : Basic.State) (any : bool),
    Basic.scanKeys io pins i s = Ok (s', any) ->
    Basic.currentSample s' = Basic.currentSample s.
Proof.
  induction pins as [|pin rest IH]; intros i s s' any H; simpl in H.
  - inv_ok. congruence.
  - destruct (Level_eqb (digitalRead io pin) HIGH).
    + destruct (negb (Basic.currentNote s =? i)); cbn [bind] in H.
      * destruct (Basic.playNote i s) as [s1|] eqn:E; cbn [bind] in H; [|discriminate].
        apply Basic_playNote_phase in E. congruence.
      * congruence.
    + apply IH in H. exact H.
Qed.

Lemma Basic_loop_phase (io : Inputs) (s s' : Basic.State) :
  Basic.loop io s = Ok s' -> Basic.currentSample s' = Basic.currentSample s.
Proof.
  unfold Basic.loop, Basic.scanKeyboard. intros H.
  destruct (Basic.scanKeys io Basic.KEY_PINS 0 _) as [[s1 any]|] eqn:E;
    cbn [bind] in H; [|discriminate].
  apply Basic_scanKeys_phase in E.
  assert (Hs : Basic.currentSample s' = Basic.currentSample s1)
    by (destruct (negb any && negb (Basic.currentNote s1 =? -1)); inv_ok; reflexivity).
  rewrite Hs, E. clear.
  unfold Basic.readWaveformButtons, Basic.button, Basic.readEncoder.
  repeat match goal with
         | |- context [if ?b then _ else _] => destruct b
         end; reflexivity.
Qed.

Lemma Menu_setFrequency_phase (freq : spec_float) (s s' : Menu.State) :
  Menu.setFrequency freq s = Ok s' -> Menu.currentSample s' = Menu.currentSample s.
Proof.
  unfold Menu.setFrequency. intros H. inv_ok; reflexivity.
Qed.

Lemma Menu_playNote_phase (io : Inputs) (n : Z) (s s' : Menu.State) :
  Menu.playNote io n s = Ok s' -> Menu.currentSample s' = Menu.currentSample s.
Proof.
  unfold Menu.playNote. intros H. inv_ok.
  - reflexivity.
  - apply Menu_setFrequency_phase in E0. exact E0.
Qed.

Lemma Menu_scanKeys_phase (io : Inputs) (pins : list Z) :
  forall (i : Z) (s s' : Menu.State) (any : bool),
    Menu.scanKeys io pins i s = Ok (s', any) ->
    Menu.currentSample s' = Menu.currentSample s.
Proof.
  induction pins as [|pin rest IH]; intros i s s' any H; simpl in H.
  - inv_ok. congruence.
  - destruct (Level_eqb (digitalRead io pin) HIGH).
    + destruct (negb (Menu.currentNote s =? i)); cbn [bind] in H.
      * destruct (Menu.playNote io i s) as [s1|] eqn:E; cbn [bind] in H; [|discriminate].
        apply Menu_playNote_phase in E. congruence.
      * congruence.
    + apply IH in H. exact H.
Qed.

Lemma Menu_adjustCurrentSetting_phase (io : Inputs) (d : Z) (s s' : Menu.State) :
  Menu.adjustCurrentSetting io d s = Ok s' ->
  Menu.currentSample s' = Menu.currentSample s.
Proof.
  unfold Menu.adjustCurrentSetting. intros H.
  destruct (Menu.currentMenu s).
  - inv_ok.
    destruct (d >? 0);
      match goal with
      | |- context [match ?w with SQUARE => _ | TRIANGLE => _ | SINE => _ end] =>
          destruct w
      end; reflexivity.
  - destruct (negb (Menu.currentNote _ =? -1)).
    + apply Menu_playNote_phase in H. exact H.
    + inv_ok. reflexivity.
  - inv_ok; reflexivity.
Qed.

Lemma Menu_readEncoder_phase (io : Inputs) (s s' : Menu.State) :
  Menu.readEncoder io s = Ok s' -> Menu.currentSample s' = Menu.currentSample s.
Proof.
  unfold Menu.readEncoder. intros H.
  destruct (negb _ && _).
  - destruct (Menu.currentMode s); cbn [bind] in H.
    + inv_ok. reflexivity.
    + inv_ok; reflexivity.
    + destruct (Menu.adjustCurrentSetting io _ s) as [s1|] eqn:E;
        cbn [bind] in H; [|discriminate].
      apply Menu_adjustCurrentSetting_phase in E. inv_ok. exact E.
  - cbn [bind] in H. inv_ok. reflexivity.
Qed.

Lemma Menu_readEncoderButton_phase (io : Inputs) (s : Menu.State) :
  Menu.currentSample (Menu.readEncoderButton io s) = Menu.currentSample s.
Proof.
  unfold Menu.readEncoderButton, Menu.handleButtonPress.
  destruct (_ && _); [|reflexivity].
  destruct (Menu.currentMode s); reflexivity.
Qed.

Lemma Menu_loop_phase (io : Inputs) (s s' : Menu.State) :
  Menu.loop io s = Ok s' -> Menu.currentSample s' = Menu.currentSample s.
Proof.
  unfold Menu.loop, Menu.scanKeyboard. intros H.
  destruct (Menu.readEncoder io s) as [s1|] eqn:E1; cbn [bind] in H; [|discriminate].
  destruct (Menu.scanKeys io Menu.KEY_PINS 0 _) as [[s2 any]|] eqn:E2;
    cbn [bind] in H; [|discriminate].
  apply Menu_readEncoder_phase in E1. apply Menu_scanKeys_phase in E2.
  rewrite Menu_readEncoderButton_phase in E2.
  assert (Hs : Menu.currentSample s' = Menu.currentSample s2)
    by (destruct (negb any && negb (Menu.currentNote s2 =? -1)); inv_ok; reflexivity).
  congruence.
Qed.

(** C10. Neither [playNote] nor [stopNote] touches the phase index
    [currentSample], in either edition, and no other foreground code does (a
    whole [loop] iteration leaves it as it was): only [onTimer] moves it.  So
    the first sample of a newly started note is read at the phase where the
    previous playback stopped, and the phase advances from there. *)
Theorem playNote_stopNote_keep_phase
        (n : Z) (io io' : Inputs) (sb : Basic.State) (sm : Menu.State) :
  0 <= n < 12 ->
  Basic.currentSample (Basic.stopNote sb) = Basic.currentSample sb /\
  Menu.currentSample (Menu.stopNote sm) = Menu.currentSample sm /\
  (forall k sb', Basic.playNote k sb = Ok sb' ->
                 Basic.currentSample sb' = Basic.currentSample sb) /\
  (forall k sm', Menu.playNote io k sm = Ok sm' ->
                 Menu.currentSample sm' = Menu.currentSample sm) /\
  (forall sb', Basic.loop io sb = Ok sb' ->
               Basic.currentSample sb' = Basic.currentSample sb) /\
  (forall sm', Menu.loop io sm = Ok sm' ->
               Menu.currentSample sm' = Menu.currentSample sm) /\
  (exists sb',
      Basic.playNote n sb = Ok sb' /\
      Basic.currentSample sb' = Basic.currentSample sb /\
      Basic.dac (Basic.onTimer sb')
        = to_uint8 (Z.quot (int_mul (sample_at (Basic.currentWaveform sb)
                                               (Basic.currentSample sb))
                                    (Basic.volume sb)) 255) /\
      Basic.currentSample (Basic.onTimer sb')
        = Z.rem (int_add (Basic.currentSample sb) 1) SAMPLES) /\
  (exists sm',
      Menu.playNote io n sm = Ok sm' /\
      Menu.currentSample sm' = Menu.currentSample sm /\
      (Menu.choppiness sm <= 1 ->
       exists sm'',
         Menu.onTimer io' sm' = Ok sm'' /\
         Menu.dac sm''
           = to_uint8 (Z.quot (int_mul (sample_at (Menu.currentWaveform sm)
                                                  (Menu.currentSample sm))
                                       (Menu.volume sm)) 255) /\
         Menu.currentSample sm''
           = Z.rem (int_add (Menu.currentSample sm) 1) SAMPLES)).
Proof.
  intros Hn. split_all; try reflexivity.
  - intros k sb'. apply Basic_playNote_phase.
  - intros k sm'. apply Menu_playNote_phase.
  - intros sb'. apply Basic_loop_phase.
  - intros sm'. apply Menu_loop_phase.
  - destruct (Basic_playNote_valid n sb Hn) as (f & _ & Hf & Hplay).
    eexists. split; [apply Hplay|].
    unfold Basic.onTimer. cbn.
    replace (f >? 0) with true by (symmetry; apply Z.gtb_lt; lia).
    cbn. rewrite to_uint8_idem. repeat split.
  - destruct (Menu_playNote_valid io n sm Hn) as (f & _ & Hf & Hplay).
    eexists. split; [apply Hplay|]. split; [reflexivity|].
    intros Hc. unfold Menu.onTimer. cbn.
    replace (Menu.choppiness sm >? 1) with false
      by (symmetry; rewrite Z.gtb_ltb; apply Z.ltb_ge; lia).
    cbn.
    replace (f >? 0) with true by (symmetry; apply Z.gtb_lt; lia).
    cbn. eexists. split; [reflexivity|]. cbn. rewrite to_uint8_idem. split; reflexivity.
Qed.

Lemma playNote_stopNote_keep_phase_witness :
  exists sb',
    Basic.playNote 9 (Basic.set_currentSample 77 Basic.initial_state) = Ok sb' /\
    Basic.currentSample sb' = 77 /\
    Basic.currentSample (Basic.onTimer sb') = 78.
Proof.
  assert (Hn : 0 <= 9 < 12) by lia.
  destruct (playNote_stopNote_keep_phase 9 (mkInputs (fun _ => LOW) 0)
              (mkInputs (fun _ => LOW) 1)
              (Basic.set_currentSample 77 Basic.initial_state)
              Menu.initial_state Hn)
    as (_ & _ & _ & _ & _ & _ & (sb' & Hp & Hs & _ & Ht) & _).
  exists sb'. split; [exact Hp|]. split; [exact Hs|exact Ht].
Defined.

(** ** Silence *)

Lemma Basic_onTimer_silent (s : Basic.State) :
  Basic.currentFreq s <= 0 -> Basic.onTimer s = Basic.dac_output_voltage 0 s.
Proof.
  intros H. unfold Basic.onTimer.
  replace (Basic.currentFreq s >? 0) with false
    by (symmetry; rewrite Z.gtb_ltb; apply Z.ltb_ge; lia).
  reflexivity.
Qed.

Lemma Basic_ticks_stopNote (n : nat) (s : Basic.State) :
  Basic.ticks n (Basic.stopNote s) = (repeat 0 n, Basic.stopNote s).
Proof.
  induction n as [|n IH]; [reflexivity|].
  cbn [Basic.ticks repeat].
  rewrite Basic_onTimer_silent by (cbn; lia).
  change (Basic.dac_output_voltage 0 (Basic.stopNote s)) with (Basic.stopNote s).
  rewrite IH. reflexivity.
Qed.

Lemma ratchetPeriod_valid (c : Z) :
  Menu.valid_choppiness c -> 1 < c ->
  exists p, Menu.ratchetPeriod c = Ok p /\ 0 < p.
Proof.
  intros [H|[H|[H|H]]] Hc; subst; try lia.
  - exists 125. split; [reflexivity|lia].
  - exists 62. split; [reflexivity|lia].
  - exists 31. split; [reflexivity|lia].
Qed.

(** One tick with the target frequency at 0: silence is written, the phase,
    the frequency and the choppiness level stay. *)
Lemma Menu_onTimer_silent (io : Inputs) (s : Menu.State) :
  Menu.currentFreq s <= 0 -> Menu.valid_choppiness (Menu.choppiness s) ->
  exists s',
    Menu.onTimer io s = Ok s' /\ Menu.dac s' = 0 /\
    Menu.currentSample s' = Menu.currentSample s /\
    Menu.currentFreq s' = Menu.currentFreq s /\
    Menu.choppiness s' = Menu.choppiness s.
Proof.
  intros Hf Hc.
  assert (Hz : (Menu.currentFreq s >? 0) = false)
    by (rewrite Z.gtb_ltb; apply Z.ltb_ge; lia).
  unfold Menu.onTimer.
  destruct (Z.gtb_spec (Menu.choppiness s) 1) as [Hgt|Hle].
  - destruct (ratchetPeriod_valid _ Hc Hgt) as (p & Hp & _).
    rewrite Hp. cbn [bind].
    destruct (_ >=? _); cbn; rewrite Hz; cbn; eexists; repeat split.
  - cbn. rewrite Hz. cbn. eexists. repeat split.
Qed.

Lemma Menu_ticks_silent (ios : list Inputs) :
  forall s : Menu.State,
    Menu.currentFreq s <= 0 -> Menu.valid_choppiness (Menu.choppiness s) ->
    exists s',
      Menu.ticks ios s = Ok (repeat 0 (length ios), s') /\
      Menu.currentSample s' = Menu.currentSample s /\
      Menu.currentFreq s' = Menu.currentFreq s.
Proof.
  induction ios as [|io rest IH]; intros s Hf Hc.
  - exists s. repeat split.
  - destruct (Menu_onTimer_silent io s Hf Hc) as (s1 & H1 & Hd & Hs & Hfr & Hch).
    destruct (IH s1) as (s2 & H2 & Hs2 & Hf2); [lia | congruence |].
    exists s2. cbn [Menu.ticks length repeat].
    rewrite H1. cbn [bind]. rewrite H2. cbn [bind fst snd].
    rewrite Hd. repeat split; congruence.
Qed.

(** The silence branch of one tick, whatever led to it. *)
Lemma Menu_onTimer_silence_branch (io : Inputs) (s s' : Menu.State) :
  Menu.onTimer io s = Ok s' ->
  Menu.currentFreq s <= 0 \/ Menu.ratchetOn s' = false ->
  Menu.dac s' = 0 /\ Menu.currentSample s' = Menu.currentSample s.
Proof.
  unfold Menu.onTimer. intros H Hsil.
  destruct (Menu.choppiness s >? 1).
  - destruct (Menu.ratchetPeriod _) as [p|]; cbn [bind] in H; [|discriminate].
    destruct (_ >=? _); cbn in H;
      destruct (Menu.currentFreq s >? 0) eqn:Ef; cbn in H;
      try (destruct (Menu.ratchetOn s) eqn:Er; cbn in H);
      inv_ok; cbn in *; try (split; reflexivity);
      destruct Hsil as [Hsil|Hsil]; try congruence;
      apply Z.gtb_lt in Ef; lia.
  - cbn in H. destruct (Menu.currentFreq s >? 0) eqn:Ef; cbn in H; inv_ok; cbn in *.
    + destruct Hsil as [Hsil|Hsil]; [apply Z.gtb_lt in Ef; lia | discriminate].
    + split; reflexivity.
Qed.

(** C2. After [stopNote] every later invocation of the emission routine
    writes the silence value 0 and leaves the phase index where it was, for
    any number of ticks (and, in the menu edition, whatever the clock shows at
    each tick and whichever of the levels 1, 2, 4, 8 the choppiness has).  More
    generally a tick that takes the silence branch (frequency 0, or gate
    closed) writes 0 and does not advance the phase. *)
Theorem silence_does_not_advance_phase
        (n : nat) (ios : list Inputs) (io : Inputs)
        (sb : Basic.State) (sm : Menu.State) :
  Menu.valid_choppiness (Menu.choppiness sm) ->
  Basic.ticks n (Basic.stopNote sb) = (repeat 0 n, Basic.stopNote sb) /\
  Basic.currentSample (snd (Basic.ticks n (Basic.stopNote sb))) = Basic.currentSample sb /\
  (exists sm',
      Menu.ticks ios (Menu.stopNote sm) = Ok (repeat 0 (length ios), sm') /\
      Menu.currentSample sm' = Menu.currentSample sm) /\
  (Basic.currentFreq sb <= 0 ->
   Basic.dac (Basic.onTimer sb) = 0 /\
   Basic.currentSample (Basic.onTimer sb) = Basic.currentSample sb) /\
  (exists sm', Menu.onTimer io sm = Ok sm') /\
  (forall sm',
      Menu.onTimer io sm = Ok sm' ->
      Menu.currentFreq sm <= 0 \/ Menu.ratchetOn sm' = false ->
      Menu.dac sm' = 0 /\ Menu.currentSample sm' = Menu.currentSample sm).
Proof.
  intros Hc. split_all.
  - apply Basic_ticks_stopNote.
  - rewrite Basic_ticks_stopNote. reflexivity.
  - destruct (Menu_ticks_silent ios (Menu.stopNote sm)) as (sm' & Ht & Hs & _).
    + cbn. lia.
    + exact Hc.
    + exists sm'. split; [exact Ht | exact Hs].
  - intros Hf. rewrite Basic_onTimer_silent by assumption. split; reflexivity.
  - unfold Menu.onTimer.
    destruct (Z.gtb_spec (Menu.choppiness sm) 1) as [Hgt|Hle].
    + destruct (ratchetPeriod_valid _ Hc Hgt) as (p & Hp & _).
      rewrite Hp. cbn [bind].
      destruct (_ >=? _); cbn [bind];
        match goal with |- context [if ?b then _ else _] => destruct b end;
        eexists; reflexivity.
    + cbn [bind].
      match goal with |- context [if ?b then _ else _] => destruct b end;
        eexists; reflexivity.
  - intros sm'. apply Menu_onTimer_silence_branch.
Qed.

Lemma silence_does_not_advance_phase_witness :
  Basic.ticks 3 (Basic.stopNote (Basic.set_currentSample 200 Basic.initial_state))
    = ([0; 0; 0], Basic.stopNote (Basic.set_currentSample 200 Basic.initial_state)) /\
  exists sm',
    Menu.ticks [mkInputs (fun _ => LOW) 10; mkInputs (fun _ => LOW) 200]
               (Menu.stopNote (Menu.set_choppiness 2 Menu.initial_state))
      = Ok ([0; 0], sm') /\
    Menu.currentSample sm' = 0.
Proof.
  assert (Hc : Menu.valid_choppiness
                 (Menu.choppiness (Menu.set_choppiness 2 Menu.initial_state)))
    by (right; left; reflexivity).
  destruct (silence_does_not_advance_phase 3
              [mkInputs (fun _ => LOW) 10; mkInputs (fun _ => LOW) 200]
              (mkInputs (fun _ => LOW) 10)
              (Basic.set_currentSample 200 Basic.initial_state)
              (Menu.set_choppiness 2 Menu.initial_state) Hc)
    as (Hb & _ & Hm & _).
  split; [exact Hb | exact Hm].
Defined.

(** ** The choppiness level *)

Lemma Menu_setFrequency_choppiness (freq : spec_float) (s s' : Menu.State) :
  Menu.setFrequency freq s = Ok s' -> Menu.choppiness s' = Menu.choppiness s.
Proof.
  unfold Menu.setFrequency. intros H. inv_ok; reflexivity.
Qed.

Lemma Menu_playNote_choppiness (io : Inputs) (n : Z) (s s' : Menu.State) :
  Menu.playNote io n s = Ok s' -> Menu.choppiness s' = Menu.choppiness s.
Proof.
  unfold Menu.playNote. intros H. inv_ok.
  - reflexivity.
  - apply Menu_setFrequency_choppiness in E0. exact E0.
Qed.

Lemma Menu_scanKeys_choppiness (io : Inputs) (pins : list Z) :
  forall (i : Z) (s s' : Menu.State) (any : bool),
    Menu.scanKeys io pins i s = Ok (s', any) ->
    Menu.choppiness s' = Menu.choppiness s.
Proof.
  induction pins as [|pin rest IH]; intros i s s' any H; simpl in H.
  - inv_ok. congruence.
  - destruct (Level_eqb (digitalRead io pin) HIGH).
    + destruct (negb (Menu.currentNote s =? i)); cbn [bind] in H.
      * destruct (Menu.playNote io i s) as [s1|] eqn:E; cbn [bind] in H; [|discriminate].
        apply Menu_playNote_choppiness in E. congruence.
      * congruence.
    + apply IH in H. exact H.
Qed.

(** One call of [adjustCurrentSetting] on the Choppiness screen. *)
Lemma Menu_adjust_choppiness_step (io : Inputs) (d : Z) (s : Menu.State) :
  Menu.currentMenu s = Menu.MENU_CHOPPINESS ->
  Menu.valid_choppiness (Menu.choppiness s) ->
  exists s',
    Menu.adjustCurrentSetting io d s = Ok s' /\
    Menu.currentMenu s' = Menu.MENU_CHOPPINESS /\
    Menu.choppiness s'
      = (if d >? 0
         then (if Menu.choppiness s =? 1 then 2 else
               if Menu.choppiness s =? 2 then 4 else
               if Menu.choppiness s =? 4 then 8 else 1)
         else (if Menu.choppiness s =? 1 then 8 else
               if Menu.choppiness s =? 8 then 4 else
               if Menu.choppiness s =? 4 then 2 else 1)).
Proof.
  intros Hm Hc. unfold Menu.adjustCurrentSetting. rewrite Hm.
  destruct (d >?  0); eexists; (split; [reflexivity|]); (split; [exact Hm|]);
    cbn; destruct Hc as [H|[H|[H|H]]]; rewrite H; reflexivity.
Qed.

Lemma Menu_adjustCurrentSetting_valid (io : Inputs) (d : Z) (s s' : Menu.State) :
  Menu.adjustCurrentSetting io d s = Ok s' ->
  Menu.valid_choppiness (Menu.choppiness s) ->
  Menu.valid_choppiness (Menu.choppiness s').
Proof.
  intros H Hc. destruct (Menu.currentMenu s) eqn:Hm.
  - unfold Menu.adjustCurrentSetting in H. rewrite Hm in H. inv_ok.
    destruct (d >? 0);
      match goal with
      | |- context [match ?w with SQUARE => _ | TRIANGLE => _ | SINE => _ end] =>
          destruct w
      end; exact Hc.
  - unfold Menu.adjustCurrentSetting in H. rewrite Hm in H.
    destruct (negb _).
    + apply Menu_playNote_choppiness in H. rewrite H. exact Hc.
    + inv_ok. exact Hc.
  - destruct (Menu_adjust_choppiness_step io d s Hm Hc) as (s1 & H1 & _ & Hv).
    assert (s1 = s') by congruence. subst s1. rewrite Hv.
    unfold Menu.valid_choppiness in *.
    destruct (d >? 0); destruct Hc as [E|[E|[E|E]]]; rewrite E; cbn; lia.
Qed.

Lemma Menu_loop_valid_choppiness (io : Inputs) (s s' : Menu.State) :
  Menu.loop io s = Ok s' ->
  Menu.valid_choppiness (Menu.choppiness s) ->
  Menu.valid_choppiness (Menu.choppiness s').
Proof.
  unfold Menu.loop, Menu.scanKeyboard. intros H Hc.
  destruct (Menu.readEncoder io s) as [s1|] eqn:E1; cbn [bind] in H; [|discriminate].
  destruct (Menu.scanKeys io Menu.KEY_PINS 0 _) as [[s2 any]|] eqn:E2;
    cbn [bind] in H; [|discriminate].
  apply Menu_scanKeys_choppiness in E2.
  assert (H2 : Menu.choppiness s' = Menu.choppiness s2)
    by (destruct (negb any && negb (Menu.currentNote s2 =? -1)); inv_ok; reflexivity).
  assert (Hb : Menu.choppiness (Menu.readEncoderButton io s1) = Menu.choppiness s1).
  { unfold Menu.readEncoderButton, Menu.handleButtonPress.
    match goal with |- context [if ?b then _ else _] => destruct b end;
      [|reflexivity].
    destruct (Menu.currentMode s1); reflexivity. }
  rewrite H2, E2, Hb. clear H H2 E2 Hb.
  unfold Menu.readEncoder in E1.
  destruct (negb _ && _).
  - destruct (Menu.currentMode s); cbn [bind] in E1.
    + inv_ok. exact Hc.
    + inv_ok; exact Hc.
    + destruct (Menu.adjustCurrentSetting io _ s) as [s3|] eqn:E;
        cbn [bind] in E1; [|discriminate].
      apply Menu_adjustCurrentSetting_valid in E; [|exact Hc]. inv_ok. exact E.
  - cbn [bind] in E1. inv_ok. exact Hc.
Qed.

Lemma Menu_onTimer_choppiness (io : Inputs) (s s' : Menu.State) :
  Menu.onTimer io s = Ok s' -> Menu.choppiness s' = Menu.choppiness s.
Proof.
  unfold Menu.onTimer. intros H.
  destruct (Menu.choppiness s >? 1).
  - destruct (Menu.ratchetPeriod _) as [p|]; cbn [bind] in H; [|discriminate].
    destruct (_ >=? _); cbn [bind] in H; inv_ok; reflexivity.
  - cbn [bind] in H. inv_ok; reflexivity.
Qed.

Lemma Menu_adjust_many_choppiness (io : Inputs) (directions : list Z) :
  forall s : Menu.State,
    Menu.currentMenu s = Menu.MENU_CHOPPINESS ->
    Menu.valid_choppiness (Menu.choppiness s) ->
    exists s',
      Menu.adjust_many io directions s = Ok s' /\
      Menu.currentMenu s' = Menu.MENU_CHOPPINESS /\
      Menu.valid_choppiness (Menu.choppiness s').
Proof.
  induction directions as [|d rest IH]; intros s Hm Hc.
  - exists s. repeat split; assumption.
  - destruct (Menu_adjust_choppiness_step io d s Hm Hc) as (s1 & H1 & Hm1 & _).
    pose proof (Menu_adjustCurrentSetting_valid io d s s1 H1 Hc) as Hc1.
    destruct (IH s1 Hm1 Hc1) as (s' & H' & Hm' & Hc').
    exists s'. cbn [Menu.adjust_many]. rewrite H1. cbn [bind].
    repeat split; assumption.
Qed.

(** C9. The choppiness level starts at 1, and every sequence of increments
    and decrements (calls of [adjustCurrentSetting] on the Choppiness screen,
    a positive direction incrementing) keeps it in {1, 2, 4, 8}: an increment
    maps 1 to 2, 2 to 4, 4 to 8 and 8 to 1, a decrement maps 1 to 8, 8 to 4,
    4 to 2 and 2 to 1.  Nothing else changes the level: a whole [loop]
    iteration keeps it in the set and [onTimer] leaves it as it is. *)
Theorem choppiness_stays_in_1_2_4_8
        (io : Inputs) (directions : list Z) (d : Z) (s : Menu.State) :
  Menu.currentMenu s = Menu.MENU_CHOPPINESS ->
  Menu.valid_choppiness (Menu.choppiness s) ->
  Menu.choppiness Menu.initial_state = 1 /\
  (exists s',
      Menu.adjust_many io directions
        (Menu.set_currentMenu Menu.MENU_CHOPPINESS Menu.initial_state) = Ok s' /\
      Menu.valid_choppiness (Menu.choppiness s')) /\
  (exists s',
      Menu.adjust_many io directions s = Ok s' /\
      Menu.valid_choppiness (Menu.choppiness s')) /\
  (exists s',
      Menu.adjustCurrentSetting io d s = Ok s' /\
      Menu.choppiness s'
        = (if d >? 0
           then (if Menu.choppiness s =? 1 then 2 else
                 if Menu.choppiness s =? 2 then 4 else
                 if Menu.choppiness s =? 4 then 8 else 1)
           else (if Menu.choppiness s =? 1 then 8 else
                 if Menu.choppiness s =? 8 then 4 else
                 if Menu.choppiness s =? 4 then 2 else 1))) /\
  (forall s', Menu.loop io s = Ok s' -> Menu.valid_choppiness (Menu.choppiness s')) /\
  (forall s', Menu.onTimer io s = Ok s' -> Menu.choppiness s' = Menu.choppiness s).
Proof.
  intros Hm Hc. split_all.
  - reflexivity.
  - destruct (Menu_adjust_many_choppiness io directions
                (Menu.set_currentMenu Menu.MENU_CHOPPINESS Menu.initial_state))
      as (s' & H & _ & Hv).
    + reflexivity.
    + left. reflexivity.
    + exists s'. split; assumption.
  - destruct (Menu_adjust_many_choppiness io directions s Hm Hc) as (s' & H & _ & Hv).
    exists s'. split; assumption.
  - destruct (Menu_adjust_choppiness_step io d s Hm Hc) as (s' & H & _ & Hv).
    exists s'. split; assumption.
  - intros s' H. exact (Menu_loop_valid_choppiness io s s' H Hc).
  - intros s'. apply Menu_onTimer_choppiness.
Qed.

Lemma choppiness_stays_in_1_2_4_8_witness :
  exists s',
    Menu.adjust_many (mkInputs (fun _ => LOW) 0) [1; 1; 1; 1; -1; 1; 1]
      (Menu.set_currentMenu Menu.MENU_CHOPPINESS Menu.initial_state) = Ok s' /\
    Menu.valid_choppiness (Menu.choppiness s').
Proof.
  assert (Hm : Menu.currentMenu
                 (Menu.set_currentMenu Menu.MENU_CHOPPINESS Menu.initial_state)
               = Menu.MENU_CHOPPINESS) by reflexivity.
  assert (Hc : Menu.valid_choppiness
                 (Menu.choppiness
                    (Menu.set_currentMenu Menu.MENU_CHOPPINESS Menu.initial_state)))
    by (left; reflexivity).
  destruct (choppiness_stays_in_1_2_4_8 (mkInputs (fun _ => LOW) 0)
              [1; 1; 1; 1; -1; 1; 1] 1
              (Menu.set_currentMenu Menu.MENU_CHOPPINESS Menu.initial_state) Hm Hc)
    as (_ & _ & H & _).
  exact H.
Defined.

(** ** The ratchet period *)

(** C4, as stated: at choppiness 8 the computed half-period is the integer
    31, not the 31.25 of the formula. *)
Lemma ratchet_period_8_is_not_31_25 :
  Menu.ratchetPeriod 8 = Ok 31 /\
  (spec_ratchet_period (inject_Z Menu.RATCHET_BASE_HZ) 8 == 31.25)%Q /\
  ~ (inject_Z 31 == spec_ratchet_period (inject_Z Menu.RATCHET_BASE_HZ) 8)%Q.
Proof.
  split; [reflexivity|]. split; [reflexivity|].
  intros H. vm_compute in H. discriminate H.
Qed.

(** C4, amended. In the menu edition, with base rate 8 Hz, the computed
    toggle half-period is 1000/(8 x 1) = 125 ms at choppiness 2 and the
    integer quotient 1000/(8 x 4) = 31 ms at choppiness 8: for the levels 2, 4
    and 8 it is 1000 / (base_rate_hz x choppiness/2) rounded down to whole
    milliseconds, and [onTimer] flips the gate exactly when that many
    milliseconds have elapsed since the last toggle. *)
Theorem ratchet_period_is_truncated (io : Inputs) (s : Menu.State) (c : Z) :
  c = 2 \/ c = 4 \/ c = 8 ->
  Menu.choppiness s = c ->
  Menu.ratchetPeriod 2 = Ok 125 /\
  (inject_Z 125 == spec_ratchet_period (inject_Z Menu.RATCHET_BASE_HZ) 2)%Q /\
  Menu.ratchetPeriod 8 = Ok 31 /\
  Menu.ratchetPeriod c
    = Ok (Qfloor (spec_ratchet_period (inject_Z Menu.RATCHET_BASE_HZ) (inject_Z c))) /\
  exists p s',
    Menu.ratchetPeriod c = Ok p /\
    Menu.onTimer io s = Ok s' /\
    Menu.ratchetOn s'
      = (if to_ulong (to_ulong (millis io) - Menu.lastRatchetToggle s) >=? p
         then negb (Menu.ratchetOn s) else Menu.ratchetOn s).
Proof.
  intros Hc Hs. split_all; try reflexivity.
  - destruct Hc as [H|[H|H]]; subst c; reflexivity.
  - assert (Hp : exists p, Menu.ratchetPeriod c = Ok p /\ to_ulong p = p).
    { destruct Hc as [H|[H|H]]; subst c; eexists; split; reflexivity. }
    destruct Hp as (p & Hp & Hu). exists p.
    unfold Menu.onTimer. rewrite Hs.
    replace (c >? 1) with true by (symmetry; apply Z.gtb_lt; lia).
    rewrite Hp. cbn [bind]. rewrite Hu.
    destruct (_ >=? p); cbn [bind];
      match goal with |- context [if ?b then _ else _] => destruct b end;
      eexists; repeat split.
Qed.

Lemma ratchet_period_is_truncated_witness :
  Menu.ratchetPeriod 4
    = Ok (Qfloor (spec_ratchet_period (inject_Z Menu.RATCHET_BASE_HZ) (inject_Z 4))).
Proof.
  assert (Hc : 4 = 2 \/ 4 = 4 \/ 4 = 8) by (right; left; reflexivity).
  assert (Hs : Menu.choppiness (Menu.set_choppiness 4 Menu.initial_state) = 4)
    by reflexivity.
  destruct (ratchet_period_is_truncated (mkInputs (fun _ => LOW) 0)
              (Menu.set_choppiness 4 Menu.initial_state) 4 Hc Hs)
    as (_ & _ & _ & H & _).
  exact H.
Defined.

(** ** The interrupt period *)

(** C3, as stated: for the A key at the low octave the resolved frequency is
    exactly 440 Hz and the programmed period is 8 microseconds, not
    1000000 / (440 x 256) = 8.87...; 256 ticks of 8 microseconds are not one
    cycle of 440 Hz. *)
Lemma interrupt_period_of_A4_is_not_exact :
  note_frequency 9 false = float_of_int 440 /\
  exists s',
    Basic.playNote 9 Basic.initial_state = Ok s' /\
    Basic.currentFreq s' = 440 /\
    alarm_value (Basic.timer s') = 8 /\
    ~ (inject_Z (alarm_value (Basic.timer s')) == spec_interrupt_period 440)%Q /\
    alarm_value (Basic.timer s') * SAMPLES * 440 <> 1000000.
Proof.
  split; [vm_compute; reflexivity|].
  eexists. split; [vm_compute; reflexivity|].
  split; [reflexivity|]. split; [reflexivity|]. split.
  - intros H. vm_compute in H. discriminate H.
  - vm_compute. discriminate.
Qed.

(** C3, amended. For every valid note index played, [playNote] truncates the
    resolved frequency to an integer f and programs the interrupt period to
    the integer quotient 1000000 / (f x N) microseconds (N = 256), with the
    alarm re-enabled; the quotient is positive and is the exact period rounded
    down, so the emission routine runs at least N times per cycle of f, not
    exactly N times.  Both editions. *)
Theorem playNote_programs_truncated_period
        (n : Z) (io : Inputs) (sb : Basic.State) (sm : Menu.State) :
  0 <= n < 12 ->
  (exists sb',
      Basic.playNote n sb = Ok sb' /\
      float_to_int (note_frequency n (Basic.isHighOctave sb)) = Ok (Basic.currentFreq sb') /\
      0 < Basic.currentFreq sb' /\
      Basic.currentNote sb' = n /\
      Basic.timer sb' = mkTimer (1000000 / (Basic.currentFreq sb' * SAMPLES)) true true /\
      0 < alarm_value (Basic.timer sb') /\
      alarm_value (Basic.timer sb') * (Basic.currentFreq sb' * SAMPLES) <= 1000000
        < (alarm_value (Basic.timer sb') + 1) * (Basic.currentFreq sb' * SAMPLES)) /\
  (exists sm',
      Menu.playNote io n sm = Ok sm' /\
      float_to_int (note_frequency n (Menu.isHighOctave sm)) = Ok (Menu.currentFreq sm') /\
      0 < Menu.currentFreq sm' /\
      Menu.currentNote sm' = n /\
      Menu.timer sm' = mkTimer (1000000 / (Menu.currentFreq sm' * SAMPLES)) true true /\
      0 < alarm_value (Menu.timer sm') /\
      alarm_value (Menu.timer sm') * (Menu.currentFreq sm' * SAMPLES) <= 1000000
        < (alarm_value (Menu.timer sm') + 1) * (Menu.currentFreq sm' * SAMPLES)).
Proof.
  intros Hn. split.
  - destruct (Basic_playNote_valid n sb Hn) as (f & Hf & Hb & Hplay).
    eexists. split; [exact Hplay|]. cbn. unfold SAMPLES.
    split_all; try assumption; try reflexivity; div_lia.
  - destruct (Menu_playNote_valid io n sm Hn) as (f & Hf & Hb & Hplay).
    eexists. split; [exact Hplay|]. cbn. unfold SAMPLES.
    split_all; try assumption; try reflexivity; div_lia.
Qed.

Lemma playNote_programs_truncated_period_witness :
  exists sm',
    Menu.playNote (mkInputs (fun _ => LOW) 5) 11 Menu.initial_state = Ok sm' /\
    float_to_int (note_frequency 11 (Menu.isHighOctave Menu.initial_state))
      = Ok (Menu.currentFreq sm') /\
    0 < Menu.currentFreq sm'.
Proof.
  assert (Hn : 0 <= 11 < 12) by lia.
  destruct (playNote_programs_truncated_period 11 (mkInputs (fun _ => LOW) 5)
              Basic.initial_state Menu.initial_state Hn)
    as (_ & sm' & Hp & Hf & Hpos & _).
  exists sm'. split; [exact Hp|]. split; [exact Hf | exact Hpos].
Defined.

(** ** Octave re-application *)

Lemma Ok_inj {A : Type} (a b : A) : Ok a = Ok b -> a = b.
Proof. intros H. injection H as H. exact H. Qed.

(** A sounding note's programmed frequency is the truncated resolved one. *)
Lemma Menu_sounding_frequency (s : Menu.State) :
  Menu.sounding s ->
  0 <= Menu.currentNote s < 12 /\
  float_to_int (note_frequency (Menu.currentNote s) (Menu.isHighOctave s))
    = Ok (Menu.currentFreq s).
Proof.
  intros [Hn Hp]. split; [exact Hn|].
  destruct (Hp (mkInputs (fun _ => LOW) 0)) as (s1 & H1 & Hf1).
  destruct (Menu_playNote_valid (mkInputs (fun _ => LOW) 0) _ s Hn) as (f & Hf & _ & Hplay).
  rewrite Hplay in H1. apply Ok_inj in H1. subst s1. cbn in Hf1. congruence.
Qed.

(** C1, as stated.  Menu edition: with the C key sounding at 261 Hz, the
    toggle to the high octave programs 523 Hz, not 522, and the toggle back
    programs 261 Hz, not 261.5.  Basic edition: with the A key held and the
    octave switch moved to high, a [loop] iteration records the new octave and
    leaves the programmed frequency at 440 Hz. *)
Lemma octave_toggle_is_not_exactly_double :
  (exists s1 s2 s3,
      Menu.playNote (mkInputs (fun _ => LOW) 0) 0
                    (Menu.set_currentMenu Menu.MENU_OCTAVE Menu.initial_state) = Ok s1 /\
      Menu.adjustCurrentSetting (mkInputs (fun _ => LOW) 1) 1 s1 = Ok s2 /\
      Menu.adjustCurrentSetting (mkInputs (fun _ => LOW) 2) 1 s2 = Ok s3 /\
      Menu.currentFreq s1 = 261 /\ Menu.currentFreq s2 = 523 /\ Menu.currentFreq s3 = 261 /\
      Menu.currentFreq s2 <> 2 * Menu.currentFreq s1 /\
      2 * Menu.currentFreq s3 <> Menu.currentFreq s2) /\
  (exists s1 s2,
      Basic.playNote 9 Basic.initial_state = Ok s1 /\
      Basic.loop (mkInputs (fun pin => if (pin =? 13) || (pin =? 12) || (pin =? 14)
                                          || (pin =? 27) || (pin =? 26) || (pin =? 25)
                                          || (pin =? 33) || (pin =? 32) || (pin =? 15)
                                          || (pin =? 0) || (pin =? 4)
                                          || (pin =? Basic.OCTAVE_SWITCH)
                                       then LOW else HIGH) 1) s1 = Ok s2 /\
      Basic.isHighOctave s1 = false /\ Basic.isHighOctave s2 = true /\
      Basic.currentNote s2 = 9 /\
      Basic.currentFreq s1 = 440 /\ Basic.currentFreq s2 = 440 /\
      Basic.timer s2 = Basic.timer s1).
Proof.
  split.
  - do 3 eexists.
    split; [vm_compute; reflexivity|].
    split; [vm_compute; reflexivity|].
    split; [vm_compute; reflexivity|].
    cbn. repeat split; lia.
  - do 2 eexists.
    split; [vm_compute; reflexivity|].
    split; [vm_compute; reflexivity|].
    cbn. repeat split.
Qed.

(** C1, amended. In the menu edition, if octave is toggled while a note is
    sounding, [playNote] runs again with the current note at the moment the
    flag changes, without a key press: the resolved frequency is exactly 2x
    (low to high) or 0.5x (high to low) the prior one, and the programmed
    frequency, its truncation to an integer, becomes 2x the prior value or one
    more (low to high; exactly 2x for G and A, whose table frequencies are
    whole numbers) or half the prior value rounded down (high to low); the
    interrupt period is rewritten for it and the note goes on sounding. *)
Theorem octave_toggle_retunes_sounding_note (io : Inputs) (d : Z) (s : Menu.State) :
  Menu.currentMenu s = Menu.MENU_OCTAVE ->
  Menu.sounding s ->
  exists (s' : Menu.State) (m : positive) (e : Z),
    Menu.adjustCurrentSetting io d s = Ok s' /\
    Menu.isHighOctave s' = negb (Menu.isHighOctave s) /\
    Menu.currentNote s' = Menu.currentNote s /\
    Menu.sounding s' /\
    note_frequency (Menu.currentNote s) false = S754_finite false m e /\
    note_frequency (Menu.currentNote s) true = S754_finite false m (e + 1) /\
    float_to_int (note_frequency (Menu.currentNote s) (Menu.isHighOctave s))
      = Ok (Menu.currentFreq s) /\
    float_to_int (note_frequency (Menu.currentNote s) (Menu.isHighOctave s'))
      = Ok (Menu.currentFreq s') /\
    (Menu.isHighOctave s = false ->
     2 * Menu.currentFreq s <= Menu.currentFreq s' <= 2 * Menu.currentFreq s + 1) /\
    (Menu.isHighOctave s = false ->
     Menu.currentNote s = 7 \/ Menu.currentNote s = 9 ->
     Menu.currentFreq s' = 2 * Menu.currentFreq s) /\
    (Menu.isHighOctave s = true -> Menu.currentFreq s' = Menu.currentFreq s / 2) /\
    Menu.timer s' = mkTimer (1000000 / (Menu.currentFreq s' * SAMPLES)) true true.
Proof.
  intros Hm Hs.
  destruct (Menu_sounding_frequency s Hs) as (Hn & Hcur).
  destruct (note_frequency_octaves _ Hn) as (m & e & lo & hi & Hlo & Hhi & Hilo & Hihi & Hb & Hd).
  set (s2 := Menu.set_isHighOctave (negb (Menu.isHighOctave s)) s).
  destruct (Menu_playNote_valid io (Menu.currentNote s) s2 Hn) as (f & Hf & Hfb & Hplay).
  change (Menu.isHighOctave s2) with (negb (Menu.isHighOctave s)) in Hf.
  assert (Hadj : Menu.adjustCurrentSetting io d s
                 = Menu.playNote io (Menu.currentNote s) s2).
  { unfold Menu.adjustCurrentSetting. rewrite Hm.
    change (Menu.currentNote (Menu.set_isHighOctave (negb (Menu.isHighOctave s)) s))
      with (Menu.currentNote s).
    replace (Menu.currentNote s =? -1) with false by (symmetry; apply Z.eqb_neq; lia).
    reflexivity. }
  eexists. exists m, e.
  split; [rewrite Hadj; exact Hplay|].
  cbn [Menu.isHighOctave Menu.currentNote Menu.currentFreq Menu.timer
       Menu.set_ratchetOn Menu.set_lastRatchetToggle Menu.set_currentNote
       Menu.set_timer Menu.set_currentFreq s2 Menu.set_isHighOctave].
  split_all; try reflexivity; try assumption.
  - split; [exact Hn|]. intros io'.
    match goal with |- context [Menu.playNote io' _ ?st] =>
      destruct (Menu_playNote_valid io' (Menu.currentNote s) st Hn) as (f' & Hf' & _ & Hp')
    end.
    eexists. split; [exact Hp'|].
    cbn in Hf' |- *. congruence.
  - intros Ho. rewrite Ho in *. cbn in Hf.
    assert (Menu.currentFreq s = lo) by congruence.
    assert (f = hi) by congruence. lia.
  - intros Ho Hga. rewrite Ho in *. cbn in Hf.
    assert (H7 : float_to_int (note_frequency 7 false) = Ok 392
                 /\ float_to_int (note_frequency 7 true) = Ok 784)
      by (split; vm_compute; reflexivity).
    assert (H9 : float_to_int (note_frequency 9 false) = Ok 440
                 /\ float_to_int (note_frequency 9 true) = Ok 880)
      by (split; vm_compute; reflexivity).
    destruct H7 as [H7 H7'], H9 as [H9 H9'].
    destruct Hga as [Hga|Hga]; rewrite Hga in *.
    + assert (Menu.currentFreq s = 392) by congruence.
      assert (f = 784) by congruence. lia.
    + assert (Menu.currentFreq s = 440) by congruence.
      assert (f = 880) by congruence. lia.
  - intros Ho. rewrite Ho in *. cbn in Hf.
    assert (Menu.currentFreq s = hi) by congruence.
    assert (f = lo) by congruence. div_lia.
Qed.

Lemma octave_toggle_retunes_sounding_note_witness :
  exists s' : Menu.State,
    Menu.adjustCurrentSetting (mkInputs (fun _ => LOW) 7) 1
      (Menu.mkState Menu.SETTING_ADJUST Menu.MENU_OCTAVE SINE 0 261 128 SINE false 1 0
                    0 true HIGH 50 HIGH 0 (mkTimer 14 true true) 0) = Ok s' /\
    Menu.isHighOctave s' = true /\
    Menu.currentNote s' = 0.
Proof.
  set (s := Menu.mkState Menu.SETTING_ADJUST Menu.MENU_OCTAVE SINE 0 261 128 SINE false 1 0
                         0 true HIGH 50 HIGH 0 (mkTimer 14 true true) 0).
  assert (Hm : Menu.currentMenu s = Menu.MENU_OCTAVE) by reflexivity.
  assert (Hs : Menu.sounding s).
  { split; [simpl; lia|]. intros io. eexists. split; reflexivity. }
  destruct (octave_toggle_retunes_sounding_note (mkInputs (fun _ => LOW) 7) 1 s Hm Hs)
    as (s' & m & e & Ha & Ho & Hn & _).
  exists s'. split; [exact Ha|]. split; [exact Ho | exact Hn].
Defined.

(** * Further properties of the code *)

(** ** The tables as arrays of bytes *)

Lemma square_table_shape_witness :
  nth (Z.to_nat 127) (squareWave tables) 0 = 255 /\
  nth (Z.to_nat 128) (squareWave tables) 0 = 0.
Proof.
  split.
  - apply (square_table_shape 127). unfold SAMPLES. lia.
  - apply (square_table_shape 128). unfold SAMPLES. lia.
Defined.

Lemma sample_at_byte (w : WaveType) (i : Z) :
  0 <= i < SAMPLES -> 0 <= sample_at w i <= 255.
Proof.
  intros Hi. unfold sample_at. destruct w; cbn [deref].
  - rewrite squareWave_nth by assumption. unfold square_sample.
    destruct (i <? _); lia.
  - rewrite triangleWave_nth by assumption. unfold SAMPLES in Hi.
    destruct (Z.lt_ge_cases i 128).
    + rewrite triangle_sample_first_half by lia. lia.
    + rewrite triangle_sample_second_half by lia. lia.
  - rewrite sineWave_nth, sine_sample_floor by assumption.
    apply Int_part_byte, sine_value_range.
Qed.



(** ** The emission routine while a note sounds *)

Lemma next_phase (c : Z) :
  0 <= c < SAMPLES -> Z.rem (int_add c 1) SAMPLES = (c + 1) mod SAMPLES.
Proof.
  unfold SAMPLES, int_add. intros H.
  rewrite wrap_int_small by (unfold INT_MIN, INT_MAX; lia).
  apply Z.rem_mod_nonneg; lia.
Qed.

Lemma Basic_onTimer_sounding (s : Basic.State) :
  0 < Basic.currentFreq s ->
  Basic.onTimer s
  = Basic.set_currentSample
      (Z.rem (int_add (Basic.currentSample s) 1) SAMPLES)
      (Basic.dac_output_voltage
         (to_uint8 (Z.quot (int_mul (sample_at (Basic.currentWaveform s)
                                               (Basic.currentSample s))
                                    (Basic.volume s)) 255)) s).
Proof.
  intros H. unfold Basic.onTimer.
  replace (Basic.currentFreq s >? 0) with true by (symmetry; apply Z.gtb_lt; lia).
  reflexivity.
Qed.

Lemma Basic_ticks_sounding (n : nat) :
  forall s : Basic.State,
    0 < Basic.currentFreq s -> 0 <= Basic.currentSample s < SAMPLES ->
    length (fst (Basic.ticks n s)) = n /\
    Basic.currentFreq (snd (Basic.ticks n s)) = Basic.currentFreq s /\
    Basic.currentSample (snd (Basic.ticks n s))
      = (Basic.currentSample s + Z.of_nat n) mod SAMPLES.
Proof.
  induction n as [|n IH]; intros s Hf Hc.
  - cbn. rewrite Z.add_0_r, Z.mod_small by assumption. auto.
  - cbn [Basic.ticks].
    destruct (Basic.ticks n (Basic.onTimer s)) as [out s2] eqn:E.
    destruct (IH (Basic.onTimer s)) as (Hl & Hfr & Hs).
    + rewrite Basic_onTimer_sounding by assumption. exact Hf.
    + rewrite Basic_onTimer_sounding by assumption. cbn.
      rewrite next_phase by assumption. apply Z.mod_pos_bound. unfold SAMPLES. lia.
    + rewrite E in *. cbn [fst snd length] in *.
      split; [congruence|]. split.
      * rewrite Hfr, Basic_onTimer_sounding by assumption. reflexivity.
      * rewrite Hs, Basic_onTimer_sounding by assumption. cbn.
        rewrite next_phase by assumption.
        rewrite Zplus_mod_idemp_l. f_equal. lia.
Qed.

Lemma Menu_onTimer_open (io : Inputs) (s : Menu.State) :
  0 < Menu.currentFreq s -> Menu.choppiness s <= 1 ->
  Menu.onTimer io s
  = Ok (Menu.set_currentSample
          (Z.rem (int_add (Menu.currentSample s) 1) SAMPLES)
          (Menu.dac_output_voltage
             (to_uint8 (Z.quot (int_mul (sample_at (Menu.currentWaveform s)
                                                   (Menu.currentSample s))
                                        (Menu.volume s)) 255))
             (Menu.set_ratchetOn true s))).
Proof.
  intros Hf Hc. unfold Menu.onTimer.
  replace (Menu.choppiness s >? 1) with false
    by (symmetry; rewrite Z.gtb_ltb; apply Z.ltb_ge; lia).
  cbn.
  replace (Menu.currentFreq s >? 0) with true by (symmetry; apply Z.gtb_lt; lia).
  reflexivity.
Qed.

Lemma Menu_ticks_open (ios : list Inputs) :
  forall s : Menu.State,
    0 < Menu.currentFreq s -> Menu.choppiness s <= 1 ->
    0 <= Menu.currentSample s < SAMPLES ->
    exists out s',
      Menu.ticks ios s = Ok (out, s') /\ length out = length ios /\
      Menu.currentSample s'
        = (Menu.currentSample s + Z.of_nat (length ios)) mod SAMPLES.
Proof.
  induction ios as [|io rest IH]; intros s Hf Hc Hs.
  - exists [], s. cbn. rewrite Z.add_0_r, Z.mod_small by assumption. auto.
  - cbn [Menu.ticks]. rewrite Menu_onTimer_open by assumption. cbn [bind].
    match goal with |- context [Menu.ticks rest ?st] =>
      destruct (IH st) as (out & s' & Ht & Hl & Hp)
    end; try assumption.
    { cbn. rewrite next_phase by assumption. apply Z.mod_pos_bound. unfold SAMPLES. lia. }
    rewrite Ht. cbn [bind fst snd]. eexists. exists s'.
    split; [reflexivity|]. split; [cbn; congruence|].
    rewrite Hp. cbn [Menu.currentSample Menu.set_currentSample length].
    rewrite next_phase by assumption.
    rewrite Zplus_mod_idemp_l. f_equal. lia.
Qed.

(** While a note sounds every tick advances the phase by one, modulo the
    table length: after n ticks the phase is (phase + n) mod N, so it never
    leaves [0, N) and N ticks bring it back to where it started.  In the menu
    edition this holds with the gate forced open (choppiness 1). *)
Theorem phase_wraps_after_a_full_cycle
        (n : nat) (ios : list Inputs) (sb : Basic.State) (sm : Menu.State) :
  0 < Basic.currentFreq sb -> 0 <= Basic.currentSample sb < SAMPLES ->
  0 < Menu.currentFreq sm -> 0 <= Menu.currentSample sm < SAMPLES ->
  Menu.choppiness sm = 1 ->
  Basic.currentSample (snd (Basic.ticks n sb))
    = (Basic.currentSample sb + Z.of_nat n) mod SAMPLES /\
  Basic.currentSample (snd (Basic.ticks (Z.to_nat SAMPLES) sb)) = Basic.currentSample sb /\
  (exists out sm',
      Menu.ticks ios sm = Ok (out, sm') /\ length out = length ios /\
      Menu.currentSample sm'
        = (Menu.currentSample sm + Z.of_nat (length ios)) mod SAMPLES) /\
  (length ios = Z.to_nat SAMPLES ->
   exists out sm',
     Menu.ticks ios sm = Ok (out, sm') /\ Menu.currentSample sm' = Menu.currentSample sm).
Proof.
  intros Hfb Hcb Hfm Hcm Hch.
  assert (Hwrap : forall c, 0 <= c < SAMPLES ->
                            (c + Z.of_nat (Z.to_nat SAMPLES)) mod SAMPLES = c).
  { intros c Hc. unfold SAMPLES in *. change (Z.of_nat (Z.to_nat 256)) with (1 * 256).
    rewrite Z.mod_add by lia. apply Z.mod_small. exact Hc. }
  split; [apply Basic_ticks_sounding; assumption|].
  split.
  { destruct (Basic_ticks_sounding (Z.to_nat SAMPLES) sb Hfb Hcb) as (_ & _ & H).
    rewrite H. apply Hwrap. exact Hcb. }
  split; [apply Menu_ticks_open; try assumption; lia|].
  intros Hlen.
  destruct (Menu_ticks_open ios sm) as (out & sm' & Ht & _ & Hp); try assumption; try lia.
  exists out, sm'. split; [exact Ht|]. rewrite Hp, Hlen. apply Hwrap. exact Hcm.
Qed.

Lemma phase_wraps_after_a_full_cycle_witness :
  Basic.currentSample
    (snd (Basic.ticks 3 (Basic.set_currentSample 254 (Basic.set_currentFreq 440
                                                        Basic.initial_state))))
  = (254 + 3) mod SAMPLES.
Proof.
  apply (phase_wraps_after_a_full_cycle 3 []
           (Basic.set_currentSample 254 (Basic.set_currentFreq 440 Basic.initial_state))
           (Menu.set_currentFreq 440 Menu.initial_state)).
  - simpl. lia.
  - unfold SAMPLES. simpl. lia.
  - simpl. lia.
  - unfold SAMPLES. simpl. lia.
  - reflexivity.
Defined.

(** ** Volume scaling *)

Lemma scaled_sample (a v : Z) :
  0 <= a <= 255 -> 0 <= v <= 255 ->
  to_uint8 (Z.quot (int_mul a v) 255) = a * v / 255 /\
  0 <= a * v / 255 <= a /\ a * v / 255 <= v.
Proof.
  intros Ha Hv.
  assert (Hp : 0 <= a * v <= 255 * 255) by nia.
  unfold int_mul. rewrite wrap_int_small by (unfold INT_MIN, INT_MAX; lia).
  rewrite Z.quot_div_nonneg by lia.
  assert (H1 : a * v / 255 <= a) by (apply Z.div_le_upper_bound; nia).
  assert (H2 : a * v / 255 <= v) by (apply Z.div_le_upper_bound; nia).
  assert (H0 : 0 <= a * v / 255) by (apply Z.div_pos; lia).
  rewrite to_uint8_small by lia. lia.
Qed.

(** A tick that sounds writes table[phase] x volume / 255 (rounded down) to
    the DAC: a byte, never above the table entry and never above the volume;
    at volume 255 it is the table entry itself and at volume 0 it is 0.  In
    the menu edition this is the tick's output whenever the gate is open
    after the ratchet update. *)
Theorem emitted_sample_is_scaled_by_volume
        (io : Inputs) (sb : Basic.State) (sm sm' : Menu.State) :
  0 < Basic.currentFreq sb -> 0 <= Basic.currentSample sb < SAMPLES ->
  0 <= Basic.volume sb <= 255 ->
  0 < Menu.currentFreq sm -> 0 <= Menu.currentSample sm < SAMPLES ->
  0 <= Menu.volume sm <= 255 ->
  Menu.onTimer io sm = Ok sm' -> Menu.ratchetOn sm' = true ->
  let vb := sample_at (Basic.currentWaveform sb) (Basic.currentSample sb) in
  let vm := sample_at (Menu.currentWaveform sm) (Menu.currentSample sm) in
  Basic.dac (Basic.onTimer sb) = vb * Basic.volume sb / 255 /\
  0 <= Basic.dac (Basic.onTimer sb) <= vb /\
  Basic.dac (Basic.onTimer sb) <= Basic.volume sb /\
  (Basic.volume sb = 255 -> Basic.dac (Basic.onTimer sb) = vb) /\
  (Basic.volume sb = 0 -> Basic.dac (Basic.onTimer sb) = 0) /\
  Menu.dac sm' = vm * Menu.volume sm / 255 /\
  0 <= Menu.dac sm' <= vm /\
  Menu.dac sm' <= Menu.volume sm /\
  (Menu.volume sm = 255 -> Menu.dac sm' = vm) /\
  (Menu.volume sm = 0 -> Menu.dac sm' = 0).
Proof.
  intros Hfb Hcb Hvb Hfm Hcm Hvm Ht Hg vb vm.
  pose proof (sample_at_byte (Basic.currentWaveform sb) _ Hcb) as Hb.
  pose proof (sample_at_byte (Menu.currentWaveform sm) _ Hcm) as Hm.
  fold vb in Hb. fold vm in Hm.
  destruct (scaled_sample vb _ Hb Hvb) as (Eb & Eb1 & Eb2).
  destruct (scaled_sample vm _ Hm Hvm) as (Em & Em1 & Em2).
  assert (Db : Basic.dac (Basic.onTimer sb) = vb * Basic.volume sb / 255).
  { rewrite Basic_onTimer_sounding by assumption. cbn.
    rewrite to_uint8_idem. exact Eb. }
  assert (Dm : Menu.dac sm' = vm * Menu.volume sm / 255).
  { unfold Menu.onTimer in Ht.
    assert (Hpos : (Menu.currentFreq sm >? 0) = true) by (apply Z.gtb_lt; lia).
    destruct (Menu.choppiness sm >? 1).
    - destruct (Menu.ratchetPeriod _) as [p|]; cbn [bind] in Ht; [|discriminate].
      destruct (_ >=? _); cbn in Ht; rewrite Hpos in Ht; cbn in Ht;
        destruct (Menu.ratchetOn sm) eqn:Er; cbn in Ht;
        apply Ok_inj in Ht; subst sm'; cbn in Hg |- *; try congruence;
        rewrite to_uint8_idem; exact Em.
    - cbn in Ht. rewrite Hpos in Ht. cbn in Ht. apply Ok_inj in Ht. subst sm'.
      cbn. rewrite to_uint8_idem. exact Em. }
  rewrite Db, Dm. split_all; try lia;
    intros E; rewrite E;
    first [ rewrite Z.div_mul by lia; reflexivity | rewrite Z.mul_0_r; reflexivity ].
Qed.

Lemma emitted_sample_is_scaled_by_volume_witness :
  Basic.dac (Basic.onTimer (Basic.set_currentFreq 440 (Basic.setWaveform SQUARE
                                                         Basic.initial_state)))
  = sample_at SQUARE 0 * 128 / 255.
Proof.
  set (io := mkInputs (fun _ => LOW) 0).
  set (sm := Menu.set_currentFreq 440 Menu.initial_state).
  assert (Ht : exists sm', Menu.onTimer io sm = Ok sm' /\ Menu.ratchetOn sm' = true)
    by (eexists; split; reflexivity).
  destruct Ht as (sm' & Ht & Hg).
  apply (emitted_sample_is_scaled_by_volume io
           (Basic.set_currentFreq 440 (Basic.setWaveform SQUARE Basic.initial_state))
           sm sm'); try exact Ht; try exact Hg; unfold SAMPLES; simpl; lia.
Defined.

(** ** The rotary encoder *)

Lemma int_add_small (a b : Z) :
  INT_MIN <= a + b <= INT_MAX -> int_add a b = a + b.
Proof. apply wrap_int_small. Qed.

Lemma int_sub_small (a b : Z) :
  INT_MIN <= a - b <= INT_MAX -> int_sub a b = a - b.
Proof. apply wrap_int_small. Qed.

Lemma int_mul_small (a b : Z) :
  INT_MIN <= a * b <= INT_MAX -> int_mul a b = a * b.
Proof. apply wrap_int_small. Qed.

(** The volume byte of an encoder position. *)
Lemma volume_of_position (p : Z) :
  0 <= p <= 100 ->
  to_uint8 (Z.quot (int_mul p 255) 100) = p * 255 / 100 /\ 0 <= p * 255 / 100 <= 255.
Proof.
  intros H. rewrite int_mul_small by (unfold INT_MIN, INT_MAX; lia).
  rewrite Z.quot_div_nonneg by lia.
  assert (0 <= p * 255 / 100 <= 255) by div_lia.
  rewrite to_uint8_small by lia. auto.
Qed.

(** Basic edition.  [readEncoder] acts on a falling edge of CLK only: the
    position moves by one in the direction DT gives, is clamped to [0, 100],
    and the volume becomes position x 255 / 100 (a byte).  Without a falling
    edge position and volume are unchanged, so a second call that reads the
    same CLK level never repeats the step. *)
Theorem Basic_readEncoder_steps_and_clamps (io io' : Inputs) (s : Basic.State) :
  0 <= Basic.encoderPos s <= 100 ->
  0 <= Basic.encoderPos (Basic.readEncoder io s) <= 100 /\
  Basic.lastEncoderCLK (Basic.readEncoder io s) = digitalRead io Basic.ENCODER_CLK /\
  (Basic.lastEncoderCLK s = HIGH -> digitalRead io Basic.ENCODER_CLK = LOW ->
   Basic.encoderPos (Basic.readEncoder io s)
     = (match digitalRead io Basic.ENCODER_DT with
        | HIGH => Z.min 100 (Basic.encoderPos s + 1)
        | LOW => Z.max 0 (Basic.encoderPos s - 1)
        end) /\
   Basic.volume (Basic.readEncoder io s)
     = Basic.encoderPos (Basic.readEncoder io s) * 255 / 100 /\
   0 <= Basic.volume (Basic.readEncoder io s) <= 255) /\
  (Basic.lastEncoderCLK s = LOW \/ digitalRead io Basic.ENCODER_CLK = HIGH ->
   Basic.encoderPos (Basic.readEncoder io s) = Basic.encoderPos s /\
   Basic.volume (Basic.readEncoder io s) = Basic.volume s) /\
  (digitalRead io' Basic.ENCODER_CLK = digitalRead io Basic.ENCODER_CLK ->
   Basic.encoderPos (Basic.readEncoder io' (Basic.readEncoder io s))
     = Basic.encoderPos (Basic.readEncoder io s) /\
   Basic.volume (Basic.readEncoder io' (Basic.readEncoder io s))
     = Basic.volume (Basic.readEncoder io s)).
Proof.
  intros Hp.
  assert (Hstill : forall (i : Inputs) (t : Basic.State),
             Basic.lastEncoderCLK t = LOW \/ digitalRead i Basic.ENCODER_CLK = HIGH ->
             Basic.encoderPos (Basic.readEncoder i t) = Basic.encoderPos t /\
             Basic.volume (Basic.readEncoder i t) = Basic.volume t).
  { intros i t H. unfold Basic.readEncoder.
    destruct (digitalRead i Basic.ENCODER_CLK), (Basic.lastEncoderCLK t);
      cbn; auto; destruct H; discriminate. }
  assert (Hclk : forall (i : Inputs) (t : Basic.State),
             Basic.lastEncoderCLK (Basic.readEncoder i t) = digitalRead i Basic.ENCODER_CLK)
    by (intros i t; reflexivity).
  assert (Hedge : Basic.lastEncoderCLK s = HIGH -> digitalRead io Basic.ENCODER_CLK = LOW ->
            Basic.encoderPos (Basic.readEncoder io s)
              = (match digitalRead io Basic.ENCODER_DT with
                 | HIGH => Z.min 100 (Basic.encoderPos s + 1)
                 | LOW => Z.max 0 (Basic.encoderPos s - 1)
                 end) /\
            Basic.volume (Basic.readEncoder io s)
              = Basic.encoderPos (Basic.readEncoder io s) * 255 / 100 /\
            0 <= Basic.volume (Basic.readEncoder io s) <= 255).
  { intros Hl Hc. unfold Basic.readEncoder. rewrite Hl, Hc. cbn.
    destruct (digitalRead io Basic.ENCODER_DT); cbn.
    - rewrite int_sub_small by (unfold INT_MIN, INT_MAX; lia).
      destruct (Z.ltb_spec (Basic.encoderPos s - 1) 0); cbn.
      + replace (Z.max 0 (Basic.encoderPos s - 1)) with 0 by lia.
        split; [reflexivity|]. split; [reflexivity|]. unfold to_uint8. cbn. lia.
      + replace (Z.max 0 (Basic.encoderPos s - 1)) with (Basic.encoderPos s - 1) by lia.
        destruct (volume_of_position (Basic.encoderPos s - 1)) as [E B]; [lia|].
        rewrite E. auto.
    - rewrite int_add_small by (unfold INT_MIN, INT_MAX; lia).
      destruct (Z.gtb_spec (Basic.encoderPos s + 1) 100); cbn.
      + replace (Z.min 100 (Basic.encoderPos s + 1)) with 100 by lia.
        split; [reflexivity|]. split; [reflexivity|]. unfold to_uint8. cbn. lia.
      + replace (Z.min 100 (Basic.encoderPos s + 1)) with (Basic.encoderPos s + 1) by lia.
        destruct (volume_of_position (Basic.encoderPos s + 1)) as [E B]; [lia|].
        rewrite E. auto. }
  split_all.
  - destruct (Basic.lastEncoderCLK s) eqn:Hl.
    + rewrite (proj1 (Hstill io s (or_introl Hl))). lia.
    + destruct (digitalRead io Basic.ENCODER_CLK) eqn:Hc.
      * destruct (Hedge eq_refl eq_refl) as (E & _). rewrite E.
        destruct (digitalRead io Basic.ENCODER_DT); lia.
      * rewrite (proj1 (Hstill io s (or_intror Hc))). lia.
  - destruct (Basic.lastEncoderCLK s) eqn:Hl.
    + rewrite (proj1 (Hstill io s (or_introl Hl))). lia.
    + destruct (digitalRead io Basic.ENCODER_CLK) eqn:Hc.
      * destruct (Hedge eq_refl eq_refl) as (E & _). rewrite E.
        destruct (digitalRead io Basic.ENCODER_DT); lia.
      * rewrite (proj1 (Hstill io s (or_intror Hc))). lia.
  - apply Hclk.
  - exact Hedge.
  - apply Hstill.
  - intros Hsame. apply Hstill. rewrite Hclk, Hsame.
    destruct (digitalRead io Basic.ENCODER_CLK); auto.
Qed.

Lemma Basic_readEncoder_steps_and_clamps_witness :
  Basic.encoderPos
    (Basic.readEncoder (mkInputs (fun _ => LOW) 0) (Basic.set_encoderPos 0 Basic.initial_state))
  = Z.max 0 (0 - 1).
Proof.
  set (io := mkInputs (fun _ => LOW) 0).
  assert (Hp : 0 <= Basic.encoderPos (Basic.set_encoderPos 0 Basic.initial_state) <= 100)
    by (simpl; lia).
  destruct (Basic_readEncoder_steps_and_clamps io io _ Hp) as (_ & _ & He & _).
  destruct (He eq_refl eq_refl) as (E & _). exact E.
Defined.

Lemma Basic_playNote_total (n : Z) (s : Basic.State) :
  exists s', Basic.playNote n s = Ok s' /\ Basic_same_controls s s' /\
             ((Basic.currentNote s' = -1 /\ Basic.currentFreq s' = 0 /\
               Basic.timer s' = Basic.timer s /\ Basic.dac s' = 0 /\
               (n < 0 \/ 12 <= n)) \/
              (Basic.currentNote s' = n /\ 0 <= n < 12 /\
               261 <= Basic.currentFreq s' <= 987 /\
               float_to_int (note_frequency n (Basic.isHighOctave s))
                 = Ok (Basic.currentFreq s') /\
               Basic.timer s'
                 = mkTimer (1000000 / (Basic.currentFreq s' * SAMPLES)) true true /\
               Basic.dac s' = Basic.dac s)).
Proof.
  destruct (Z.lt_ge_cases n 0) as [Hneg|Hpos];
    [|destruct (Z.lt_ge_cases n 12) as [Hlt|Hge]].
  - exists (Basic.stopNote s). split.
    + unfold Basic.playNote.
      replace (n <? 0) with true by (symmetry; apply Z.ltb_lt; lia). reflexivity.
    + split; [repeat split|]. left. repeat split. left. assumption.
  - destruct (Basic_playNote_valid n s) as (f & Hf & Hb & Hp); [lia|].
    eexists. split; [exact Hp|]. split; [repeat split|].
    right. cbn. repeat split; try assumption; lia.
  - exists (Basic.stopNote s). split.
    + unfold Basic.playNote.
      replace (n >=? 12) with true by (symmetry; apply Z.geb_le; lia).
      rewrite orb_true_r. reflexivity.
    + split; [repeat split|]. left. repeat split. right. assumption.
Qed.

Lemma Menu_playNote_total (io : Inputs) (n : Z) (s : Menu.State) :
  exists s', Menu.playNote io n s = Ok s' /\ Menu_same_controls s s' /\
             ((Menu.currentNote s' = -1 /\ Menu.currentFreq s' = 0 /\
               Menu.timer s' = Menu.timer s /\ Menu.dac s' = 0 /\
               Menu.ratchetOn s' = Menu.ratchetOn s /\
               Menu.lastRatchetToggle s' = Menu.lastRatchetToggle s /\
               (n < 0 \/ 12 <= n)) \/
              (Menu.currentNote s' = n /\ 0 <= n < 12 /\
               261 <= Menu.currentFreq s' <= 987 /\
               float_to_int (note_frequency n (Menu.isHighOctave s))
                 = Ok (Menu.currentFreq s') /\
               Menu.timer s'
                 = mkTimer (1000000 / (Menu.currentFreq s' * SAMPLES)) true true /\
               Menu.dac s' = Menu.dac s /\
               Menu.ratchetOn s' = true /\
               Menu.lastRatchetToggle s' = to_ulong (millis io))).
Proof.
  destruct (Z.lt_ge_cases n 0) as [Hneg|Hpos];
    [|destruct (Z.lt_ge_cases n 12) as [Hlt|Hge]].
  - exists (Menu.stopNote s). split.
    + unfold Menu.playNote.
      replace (n <? 0) with true by (symmetry; apply Z.ltb_lt; lia). reflexivity.
    + split; [repeat split|]. left. repeat split. left. assumption.
  - destruct (Menu_playNote_valid io n s) as (f & Hf & Hb & Hp); [lia|].
    eexists. split; [exact Hp|]. split; [repeat split|].
    right. cbn. repeat split; try assumption; lia.
  - exists (Menu.stopNote s). split.
    + unfold Menu.playNote.
      replace (n >=? 12) with true by (symmetry; apply Z.geb_le; lia).
      rewrite orb_true_r. reflexivity.
    + split; [repeat split|]. left. repeat split. right. assumption.
Qed.

(** ** Keyboard scanning *)

Lemma Basic_scanKeys_none (io : Inputs) (pins : list Z) :
  forall (i : Z) (s : Basic.State),
    (forall p, In p pins -> digitalRead io p = LOW) ->
    Basic.scanKeys io pins i s = Ok (s, false).
Proof.
  induction pins as [|pin rest IH]; intros i s H; [reflexivity|].
  cbn [Basic.scanKeys]. rewrite (H pin) by (left; reflexivity). cbn.
  apply IH. intros p Hp. apply H. right. exact Hp.
Qed.

Lemma Basic_scanKeys_first (io : Inputs) (pins : list Z) :
  forall (k : nat) (i : Z) (s : Basic.State),
    (k < length pins)%nat ->
    digitalRead io (nth k pins 0) = HIGH ->
    (forall j, (j < k)%nat -> digitalRead io (nth j pins 0) = LOW) ->
    Basic.scanKeys io pins i s
    = (s1 <- (if negb (Basic.currentNote s =? i + Z.of_nat k)
              then Basic.playNote (i + Z.of_nat k) s else Ok s) ;;
       Ok (s1, true)).
Proof.
  induction pins as [|pin rest IH]; intros k i s Hk Hhigh Hlow; [simpl in Hk; lia|].
  destruct k as [|k]; cbn [Basic.scanKeys].
  - cbn in Hhigh. rewrite Hhigh. cbn [Level_eqb]. rewrite Z.add_0_r. reflexivity.
  - pose proof (Hlow O ltac:(lia)) as H0. cbn [nth] in H0. rewrite H0. cbn [Level_eqb].
    rewrite (IH k (i + 1) s).
    + replace (i + 1 + Z.of_nat k) with (i + Z.of_nat (S k)) by lia. reflexivity.
    + simpl in Hk. lia.
    + exact Hhigh.
    + intros j Hj. apply (Hlow (S j)). lia.
Qed.

Lemma Menu_scanKeys_none (io : Inputs) (pins : list Z) :
  forall (i : Z) (s : Menu.State),
    (forall p, In p pins -> digitalRead io p = LOW) ->
    Menu.scanKeys io pins i s = Ok (s, false).
Proof.
  induction pins as [|pin rest IH]; intros i s H; [reflexivity|].
  cbn [Menu.scanKeys]. rewrite (H pin) by (left; reflexivity). cbn.
  apply IH. intros p Hp. apply H. right. exact Hp.
Qed.

Lemma Menu_scanKeys_first (io : Inputs) (pins : list Z) :
  forall (k : nat) (i : Z) (s : Menu.State),
    (k < length pins)%nat ->
    digitalRead io (nth k pins 0) = HIGH ->
    (forall j, (j < k)%nat -> digitalRead io (nth j pins 0) = LOW) ->
    Menu.scanKeys io pins i s
    = (s1 <- (if negb (Menu.currentNote s =? i + Z.of_nat k)
              then Menu.playNote io (i + Z.of_nat k) s else Ok s) ;;
       Ok (s1, true)).
Proof.
  induction pins as [|pin rest IH]; intros k i s Hk Hhigh Hlow; [simpl in Hk; lia|].
  destruct k as [|k]; cbn [Menu.scanKeys].
  - cbn in Hhigh. rewrite Hhigh. cbn [Level_eqb]. rewrite Z.add_0_r. reflexivity.
  - pose proof (Hlow O ltac:(lia)) as H0. cbn [nth] in H0. rewrite H0. cbn [Level_eqb].
    rewrite (IH k (i + 1) s).
    + replace (i + 1 + Z.of_nat k) with (i + Z.of_nat (S k)) by lia. reflexivity.
    + simpl in Hk. lia.
    + exact Hhigh.
    + intros j Hj. apply (Hlow (S j)). lia.
Qed.

(** Basic edition, monophonic precedence.  When several keys are touched the
    one first in scan order sounds: if key k reads HIGH and every key before
    it reads LOW, [scanKeyboard] leaves k as the current note whatever the
    later keys read.  A key that is already sounding is not played again (the
    state is returned as it was); any other key goes through [playNote]. *)
Theorem Basic_scanKeyboard_first_key_wins (io : Inputs) (k : Z) (s : Basic.State) :
  0 <= k < 12 ->
  digitalRead io (nth (Z.to_nat k) Basic.KEY_PINS 0) = HIGH ->
  (forall j, 0 <= j < k -> digitalRead io (nth (Z.to_nat j) Basic.KEY_PINS 0) = LOW) ->
  exists s',
    Basic.scanKeyboard io s = Ok s' /\
    Basic.currentNote s' = k /\
    (Basic.currentNote s = k -> s' = s) /\
    (Basic.currentNote s <> k ->
     Basic.playNote k s = Ok s' /\ 261 <= Basic.currentFreq s' <= 987).
Proof.
  intros Hk Hhigh Hlow.
  assert (Hscan := Basic_scanKeys_first io Basic.KEY_PINS (Z.to_nat k) 0 s).
  rewrite Z2Nat.id, Z.add_0_l in Hscan by lia.
  unfold Basic.scanKeyboard. rewrite Hscan; clear Hscan.
  - destruct (Z.eqb_spec (Basic.currentNote s) k) as [E|E]; cbn.
    + exists s. rewrite E.
      replace (k =? -1) with false by (symmetry; apply Z.eqb_neq; lia).
      cbn. split_all; try reflexivity; intros; try reflexivity; congruence.
    + destruct (Basic_playNote_total k s) as (s' & Hp & _ & [(_ & _ & _ & _ & Hbad)|Hgood]);
        [lia|].
      destruct Hgood as (Hn & _ & Hf & _).
      exists s'. rewrite Hp. cbn. rewrite Hn.
      replace (k =? -1) with false by (symmetry; apply Z.eqb_neq; lia).
      cbn. split_all; try reflexivity; intros; split_all; try assumption; try lia;
        congruence.
  - cbn. lia.
  - exact Hhigh.
  - intros j Hj. rewrite <- (Nat2Z.id j). apply Hlow. lia.
Qed.

Lemma Basic_scanKeyboard_first_key_wins_witness :
  exists s',
    Basic.scanKeyboard (mkInputs (fun pin => if (pin =? 14) || (pin =? 32) then HIGH else LOW) 0)
                       Basic.initial_state = Ok s' /\
    Basic.currentNote s' = 2.
Proof.
  destruct (Basic_scanKeyboard_first_key_wins
              (mkInputs (fun pin => if (pin =? 14) || (pin =? 32) then HIGH else LOW) 0)
              2 Basic.initial_state) as (s' & H & Hn & _).
  - lia.
  - reflexivity.
  - intros j Hj. assert (j = 0 \/ j = 1) as [->| ->] by lia; reflexivity.
  - exists s'. split; assumption.
Defined.

(** Menu edition, monophonic precedence: as in the basic edition; a key that
    is already sounding is not played again, so its ratchet timing is not
    reset either. *)
Theorem Menu_scanKeyboard_first_key_wins (io : Inputs) (k : Z) (s : Menu.State) :
  0 <= k < 12 ->
  digitalRead io (nth (Z.to_nat k) Menu.KEY_PINS 0) = HIGH ->
  (forall j, 0 <= j < k -> digitalRead io (nth (Z.to_nat j) Menu.KEY_PINS 0) = LOW) ->
  exists s',
    Menu.scanKeyboard io s = Ok s' /\
    Menu.currentNote s' = k /\
    (Menu.currentNote s = k -> s' = s) /\
    (Menu.currentNote s <> k ->
     Menu.playNote io k s = Ok s' /\ 261 <= Menu.currentFreq s' <= 987 /\
     Menu.ratchetOn s' = true).
Proof.
  intros Hk Hhigh Hlow.
  assert (Hscan := Menu_scanKeys_first io Menu.KEY_PINS (Z.to_nat k) 0 s).
  rewrite Z2Nat.id, Z.add_0_l in Hscan by lia.
  unfold Menu.scanKeyboard. rewrite Hscan; clear Hscan.
  - destruct (Z.eqb_spec (Menu.currentNote s) k) as [E|E]; cbn.
    + exists s. rewrite E.
      replace (k =? -1) with false by (symmetry; apply Z.eqb_neq; lia).
      cbn. split_all; try reflexivity; intros; try reflexivity; congruence.
    + destruct (Menu_playNote_total io k s)
        as (s' & Hp & _ & [(_ & _ & _ & _ & _ & _ & Hbad)|Hgood]); [lia|].
      destruct Hgood as (Hn & _ & Hf & _ & _ & _ & Hr & _).
      exists s'. rewrite Hp. cbn. rewrite Hn.
      replace (k =? -1) with false by (symmetry; apply Z.eqb_neq; lia).
      cbn. split_all; try reflexivity; intros; split_all; try assumption; try lia;
        congruence.
  - cbn. lia.
  - exact Hhigh.
  - intros j Hj. rewrite <- (Nat2Z.id j). apply Hlow. lia.
Qed.

Lemma Menu_scanKeyboard_first_key_wins_witness :
  exists s',
    Menu.scanKeyboard (mkInputs (fun pin => if (pin =? 12) || (pin =? 17) then HIGH else LOW) 0)
                      Menu.initial_state = Ok s' /\
    Menu.currentNote s' = 1.
Proof.
  destruct (Menu_scanKeyboard_first_key_wins
              (mkInputs (fun pin => if (pin =? 12) || (pin =? 17) then HIGH else LOW) 0)
              1 Menu.initial_state) as (s' & H & Hn & _).
  - lia.
  - reflexivity.
  - intros j Hj. assert (j = 0) as -> by lia. reflexivity.
  - exists s'. split; assumption.
Defined.

(** Release, both editions.  When no key reads HIGH, [scanKeyboard] stops the
    note if one was recorded and otherwise changes nothing; either way no
    note is recorded afterwards, and scanning again changes nothing more. *)
Theorem scanKeyboard_release_stops_the_note
        (iob iom : Inputs) (sb : Basic.State) (sm : Menu.State) :
  (forall p, In p Basic.KEY_PINS -> digitalRead iob p = LOW) ->
  (forall p, In p Menu.KEY_PINS -> digitalRead iom p = LOW) ->
  Basic.scanKeyboard iob sb
    = Ok (if Basic.currentNote sb =? -1 then sb else Basic.stopNote sb) /\
  Menu.scanKeyboard iom sm
    = Ok (if Menu.currentNote sm =? -1 then sm else Menu.stopNote sm) /\
  (forall sb', Basic.scanKeyboard iob sb = Ok sb' ->
               Basic.currentNote sb' = -1 /\ Basic.scanKeyboard iob sb' = Ok sb') /\
  (forall sm', Menu.scanKeyboard iom sm = Ok sm' ->
               Menu.currentNote sm' = -1 /\ Menu.scanKeyboard iom sm' = Ok sm').
Proof.
  intros Hb Hm.
  assert (Eb : forall s, Basic.scanKeyboard iob s
                         = Ok (if Basic.currentNote s =? -1 then s else Basic.stopNote s)).
  { intros s. unfold Basic.scanKeyboard. rewrite Basic_scanKeys_none by exact Hb.
    cbn. destruct (Basic.currentNote s =? -1); reflexivity. }
  assert (Em : forall s, Menu.scanKeyboard iom s
                         = Ok (if Menu.currentNote s =? -1 then s else Menu.stopNote s)).
  { intros s. unfold Menu.scanKeyboard. rewrite Menu_scanKeys_none by exact Hm.
    cbn. destruct (Menu.currentNote s =? -1); reflexivity. }
  split; [apply Eb|]. split; [apply Em|]. split.
  - intros sb' H. rewrite Eb in H. apply Ok_inj in H.
    assert (Hn : Basic.currentNote sb' = -1).
    { subst sb'. destruct (Z.eqb_spec (Basic.currentNote sb) (-1)); [assumption|reflexivity]. }
    split; [exact Hn|]. rewrite Eb, Hn. reflexivity.
  - intros sm' H. rewrite Em in H. apply Ok_inj in H.
    assert (Hn : Menu.currentNote sm' = -1).
    { subst sm'. destruct (Z.eqb_spec (Menu.currentNote sm) (-1)); [assumption|reflexivity]. }
    split; [exact Hn|]. rewrite Em, Hn. reflexivity.
Qed.

Lemma scanKeyboard_release_stops_the_note_witness :
  Basic.scanKeyboard (mkInputs (fun _ => LOW) 0) (Basic.set_currentNote 4 Basic.initial_state)
  = Ok (Basic.stopNote (Basic.set_currentNote 4 Basic.initial_state)).
Proof.
  apply (scanKeyboard_release_stops_the_note
           (mkInputs (fun _ => LOW) 0) (mkInputs (fun _ => LOW) 0)
           (Basic.set_currentNote 4 Basic.initial_state) Menu.initial_state);
    intros p _; reflexivity.
Defined.

(** ** The menu edition's dial and button *)

(** Menu edition, rest mode.  A falling edge of CLK moves the dial value by 5
    in the direction DT gives, clamped to [0, 100], and sets the volume to
    value x 255 / 100 (a byte); the mode stays REST.  Without a falling edge
    only the remembered CLK level changes. *)
Theorem Menu_readEncoder_sets_volume (io : Inputs) (s : Menu.State) :
  Menu.currentMode s = Menu.REST ->
  0 <= Menu.encoderValue s <= 100 ->
  exists s',
    Menu.readEncoder io s = Ok s' /\
    0 <= Menu.encoderValue s' <= 100 /\
    Menu.currentMode s' = Menu.REST /\
    Menu.lastEncoderCLK s' = digitalRead io Menu.ENCODER_CLK /\
    (Menu.lastEncoderCLK s = HIGH -> digitalRead io Menu.ENCODER_CLK = LOW ->
     Menu.encoderValue s'
       = (match digitalRead io Menu.ENCODER_DT with
          | HIGH => Z.min 100 (Menu.encoderValue s + 5)
          | LOW => Z.max 0 (Menu.encoderValue s - 5)
          end) /\
     Menu.volume s' = Menu.encoderValue s' * 255 / 100 /\
     0 <= Menu.volume s' <= 255) /\
    (Menu.lastEncoderCLK s = LOW \/ digitalRead io Menu.ENCODER_CLK = HIGH ->
     s' = Menu.set_lastEncoderCLK (digitalRead io Menu.ENCODER_CLK) s).
Proof.
  intros Hm Hv. unfold Menu.readEncoder.
  destruct (Menu.lastEncoderCLK s) eqn:Hl, (digitalRead io Menu.ENCODER_CLK) eqn:Hc;
    cbn [Level_eqb negb andb bind];
    try solve [ eexists; split; [reflexivity|]; cbn; split_all;
                first [ assumption | reflexivity | lia
                      | intros; discriminate | intros; reflexivity ] ].
  rewrite Hm.
  destruct (digitalRead io Menu.ENCODER_DT) eqn:Hd; cbn [Level_eqb bind].
  - change (int_mul (-1) 5) with (-5).
    eexists. split; [reflexivity|]. cbn.
    rewrite int_add_small by (unfold INT_MIN, INT_MAX; lia).
    replace (Menu.encoderValue s + -5) with (Menu.encoderValue s - 5) by lia.
    assert (Hcon : Menu.constrain (Menu.encoderValue s - 5) 0 100
                   = Z.max 0 (Menu.encoderValue s - 5)).
    { unfold Menu.constrain.
      destruct (Z.ltb_spec (Menu.encoderValue s - 5) 0); [lia|].
      destruct (Z.gtb_spec (Menu.encoderValue s - 5) 100); lia. }
    rewrite Hcon.
    destruct (volume_of_position (Z.max 0 (Menu.encoderValue s - 5))) as [E B]; [lia|].
    rewrite E. split_all;
      first [ assumption | lia | intros [H|H]; discriminate
            | intros; split_all; first [reflexivity | lia] ].
  - change (int_mul 1 5) with 5.
    eexists. split; [reflexivity|]. cbn.
    rewrite int_add_small by (unfold INT_MIN, INT_MAX; lia).
    assert (Hcon : Menu.constrain (Menu.encoderValue s + 5) 0 100
                   = Z.min 100 (Menu.encoderValue s + 5)).
    { unfold Menu.constrain.
      destruct (Z.ltb_spec (Menu.encoderValue s + 5) 0); [lia|].
      destruct (Z.gtb_spec (Menu.encoderValue s + 5) 100); lia. }
    rewrite Hcon.
    destruct (volume_of_position (Z.min 100 (Menu.encoderValue s + 5))) as [E B]; [lia|].
    rewrite E. split_all;
      first [ assumption | lia | intros [H|H]; discriminate
            | intros; split_all; first [reflexivity | lia] ].
Qed.

Lemma Menu_readEncoder_sets_volume_witness :
  exists s',
    Menu.readEncoder (mkInputs (fun pin => if pin =? 19 then HIGH else LOW) 0)
                     (Menu.set_encoderValue 100 Menu.initial_state) = Ok s' /\
    0 <= Menu.encoderValue s' <= 100.
Proof.
  destruct (Menu_readEncoder_sets_volume
              (mkInputs (fun pin => if pin =? 19 then HIGH else LOW) 0)
              (Menu.set_encoderValue 100 Menu.initial_state))
    as (s' & H & Hb & _).
  - reflexivity.
  - simpl. lia.
  - exists s'. split; assumption.
Defined.

(** Menu edition.  Button presses walk the modes in a cycle, REST to
    MENU_BROWSE to SETTING_ADJUST and back to REST, so three presses return
    to the mode they started from; entering the menu from REST always lands
    on the Waveform screen.  A press changes nothing of the synthesizer: the
    waveform, octave, choppiness, volume, note, frequency, phase and timer
    stay as they were. *)
Theorem Menu_button_walks_the_modes (s : Menu.State) :
  Menu.currentMode (Menu.handleButtonPress s)
    = (match Menu.currentMode s with
       | Menu.REST => Menu.MENU_BROWSE
       | Menu.MENU_BROWSE => Menu.SETTING_ADJUST
       | Menu.SETTING_ADJUST => Menu.REST
       end) /\
  Menu.currentMode
    (Menu.handleButtonPress (Menu.handleButtonPress (Menu.handleButtonPress s)))
    = Menu.currentMode s /\
  Menu.currentMenu (Menu.handleButtonPress s)
    = (match Menu.currentMode s with
       | Menu.REST => Menu.MENU_WAVEFORM
       | _ => Menu.currentMenu s
       end) /\
  Menu.selectedWaveform (Menu.handleButtonPress s) = Menu.selectedWaveform s /\
  Menu.currentWaveform (Menu.handleButtonPress s) = Menu.currentWaveform s /\
  Menu.isHighOctave (Menu.handleButtonPress s) = Menu.isHighOctave s /\
  Menu.choppiness (Menu.handleButtonPress s) = Menu.choppiness s /\
  Menu.volume (Menu.handleButtonPress s) = Menu.volume s /\
  Menu.currentNote (Menu.handleButtonPress s) = Menu.currentNote s /\
  Menu.currentFreq (Menu.handleButtonPress s) = Menu.currentFreq s /\
  Menu.currentSample (Menu.handleButtonPress s) = Menu.currentSample s /\
  Menu.timer (Menu.handleButtonPress s) = Menu.timer s.
Proof.
  unfold Menu.handleButtonPress.
  destruct (Menu.currentMode s) eqn:Hm; cbn; rewrite ?Hm; cbn; repeat split.
Qed.

(** The dial value that leaving the menu recomputes from the volume. *)
Lemma dial_of_volume (v : Z) :
  0 <= v <= 255 ->
  Z.quot (int_mul v 100) 255 = v * 100 / 255 /\ 0 <= v * 100 / 255 <= 100.
Proof.
  intros H. rewrite int_mul_small by (unfold INT_MIN, INT_MAX; lia).
  rewrite Z.quot_div_nonneg by lia. split; [reflexivity | div_lia].
Qed.

(** Menu edition.  Leaving the menu (a press in SETTING_ADJUST) recomputes
    the dial value as volume x 100 / 255, a value of [0, 100].  This does not
    always undo volume = value x 255 / 100: when the volume came from dial
    value e, the recomputed value is e or e - 1, never more and never less
    (from 50 it is 49). *)
Theorem Menu_leaving_menu_resyncs_dial (e : Z) (s : Menu.State) :
  Menu.currentMode s = Menu.SETTING_ADJUST ->
  0 <= Menu.volume s <= 255 ->
  0 <= e <= 100 ->
  Menu.encoderValue (Menu.handleButtonPress s) = Menu.volume s * 100 / 255 /\
  0 <= Menu.encoderValue (Menu.handleButtonPress s) <= 100 /\
  (Menu.volume s = e * 255 / 100 ->
   e - 1 <= Menu.encoderValue (Menu.handleButtonPress s) <= e) /\
  (Menu.volume s = 50 * 255 / 100 -> Menu.encoderValue (Menu.handleButtonPress s) = 49).
Proof.
  intros Hm Hv He. unfold Menu.handleButtonPress. rewrite Hm. cbn.
  destruct (dial_of_volume _ Hv) as [E B]. rewrite E.
  split_all; try lia.
  - intros Hvol. rewrite Hvol. div_lia.
  - intros Hvol. rewrite Hvol. reflexivity.
Qed.

Lemma Menu_leaving_menu_resyncs_dial_witness :
  Menu.encoderValue
    (Menu.handleButtonPress
       (Menu.set_currentMode Menu.SETTING_ADJUST (Menu.set_volume 127 Menu.initial_state)))
  = 49.
Proof.
  apply (Menu_leaving_menu_resyncs_dial 50
           (Menu.set_currentMode Menu.SETTING_ADJUST (Menu.set_volume 127 Menu.initial_state)));
    try reflexivity; simpl; lia.
Defined.

(** Menu edition.  [readEncoderButton] acts on a press only when the button
    reads LOW, read HIGH at the previous call, and more than 200 ms have
    passed since the last accepted press (on the 32-bit clock); then the mode
    advances and the press time is recorded.  Otherwise mode, screen and dial
    value stay; in particular a button held down over further calls does not
    advance the mode again. *)
Theorem Menu_button_needs_edge_and_debounce (io io' : Inputs) (s : Menu.State) :
  Menu.lastButtonState (Menu.readEncoderButton io s) = digitalRead io Menu.ENCODER_SW /\
  (digitalRead io Menu.ENCODER_SW = LOW -> Menu.lastButtonState s = HIGH ->
   Menu.buttonDebounce < to_ulong (millis io - Menu.lastButtonPress s) ->
   Menu.readEncoderButton io s
     = Menu.set_lastButtonState LOW
         (Menu.set_lastButtonPress (to_ulong (millis io)) (Menu.handleButtonPress s))) /\
  (digitalRead io Menu.ENCODER_SW = HIGH \/ Menu.lastButtonState s = LOW \/
   to_ulong (millis io - Menu.lastButtonPress s) <= Menu.buttonDebounce ->
   Menu.readEncoderButton io s
     = Menu.set_lastButtonState (digitalRead io Menu.ENCODER_SW) s) /\
  (digitalRead io Menu.ENCODER_SW = LOW ->
   Menu.currentMode (Menu.readEncoderButton io' (Menu.readEncoderButton io s))
     = Menu.currentMode (Menu.readEncoderButton io s)).
Proof.
  assert (Hno : forall (i : Inputs) (t : Menu.State),
             digitalRead i Menu.ENCODER_SW = HIGH \/ Menu.lastButtonState t = LOW \/
             to_ulong (millis i - Menu.lastButtonPress t) <= Menu.buttonDebounce ->
             Menu.readEncoderButton i t
             = Menu.set_lastButtonState (digitalRead i Menu.ENCODER_SW) t).
  { intros i t H. unfold Menu.readEncoderButton.
    destruct (digitalRead i Menu.ENCODER_SW), (Menu.lastButtonState t); cbn; try reflexivity.
    destruct (Z.gtb_spec (to_ulong (millis i - Menu.lastButtonPress t)) Menu.buttonDebounce);
      [|reflexivity].
    destruct H as [H|[H|H]]; try discriminate. lia. }
  split_all.
  - reflexivity.
  - intros Hb Hl Ht. unfold Menu.readEncoderButton. rewrite Hb, Hl. cbn.
    replace (to_ulong (millis io - Menu.lastButtonPress s) >? Menu.buttonDebounce)
      with true by (symmetry; apply Z.gtb_lt; exact Ht).
    reflexivity.
  - apply Hno.
  - intros Hb. rewrite (Hno io' (Menu.readEncoderButton io s)); [reflexivity|].
    right. left. change (Menu.lastButtonState (Menu.readEncoderButton io s))
      with (digitalRead io Menu.ENCODER_SW). exact Hb.
Qed.

(** ** Selecting the waveform *)

(** Menu edition, Waveform screen.  A clockwise detent steps Square to
    Triangle to Sine and back to Square, a counter-clockwise one steps the
    other way; the table pointer always follows the selection; a step one way
    and then the other, or three steps the same way, return to the waveform
    they started from.  No note is started or stopped. *)
Theorem Menu_waveform_selector_cycles (io : Inputs) (d : Z) (s : Menu.State) :
  Menu.currentMenu s = Menu.MENU_WAVEFORM ->
  exists s1 s2 s3 s4,
    Menu.adjustCurrentSetting io d s = Ok s1 /\
    Menu.adjustCurrentSetting io d s1 = Ok s2 /\
    Menu.adjustCurrentSetting io d s2 = Ok s3 /\
    Menu.adjustCurrentSetting io (if d >? 0 then -1 else 1) s1 = Ok s4 /\
    Menu.selectedWaveform s1
      = (if d >? 0
         then match Menu.selectedWaveform s with
              | SQUARE => TRIANGLE | TRIANGLE => SINE | SINE => SQUARE end
         else match Menu.selectedWaveform s with
              | SQUARE => SINE | TRIANGLE => SQUARE | SINE => TRIANGLE end) /\
    Menu.currentWaveform s1 = Menu.selectedWaveform s1 /\
    Menu.selectedWaveform s3 = Menu.selectedWaveform s /\
    Menu.selectedWaveform s4 = Menu.selectedWaveform s /\
    Menu.currentNote s1 = Menu.currentNote s /\
    Menu.currentFreq s1 = Menu.currentFreq s /\
    Menu.timer s1 = Menu.timer s.
Proof.
  intros Hm.
  assert (Hstep : forall (x : Z) (t : Menu.State),
             Menu.currentMenu t = Menu.MENU_WAVEFORM ->
             exists t',
               Menu.adjustCurrentSetting io x t = Ok t' /\
               Menu.currentMenu t' = Menu.MENU_WAVEFORM /\
               Menu.selectedWaveform t'
                 = (if x >? 0
                    then match Menu.selectedWaveform t with
                         | SQUARE => TRIANGLE | TRIANGLE => SINE | SINE => SQUARE end
                    else match Menu.selectedWaveform t with
                         | SQUARE => SINE | TRIANGLE => SQUARE | SINE => TRIANGLE end) /\
               Menu.currentWaveform t' = Menu.selectedWaveform t' /\
               Menu.currentNote t' = Menu.currentNote t /\
               Menu.currentFreq t' = Menu.currentFreq t /\
               Menu.timer t' = Menu.timer t).
  { intros x t Ht. unfold Menu.adjustCurrentSetting. rewrite Ht.
    destruct (x >? 0), (Menu.selectedWaveform t) eqn:Hw;
      eexists; (split; [reflexivity|]); cbn; rewrite ?Hw; cbn; repeat split; assumption. }
  destruct (Hstep d s Hm) as (s1 & H1 & M1 & W1 & P1 & N1 & F1 & T1).
  destruct (Hstep d s1 M1) as (s2 & H2 & M2 & W2 & _).
  destruct (Hstep d s2 M2) as (s3 & H3 & M3 & W3 & _).
  destruct (Hstep (if d >? 0 then -1 else 1) s1 M1) as (s4 & H4 & M4 & W4 & _).
  exists s1, s2, s3, s4. split_all; try assumption.
  - rewrite W3, W2, W1. destruct (d >? 0), (Menu.selectedWaveform s); reflexivity.
  - rewrite W4, W1. destruct (d >? 0), (Menu.selectedWaveform s); reflexivity.
Qed.

Lemma Menu_waveform_selector_cycles_witness :
  exists s1,
    Menu.adjustCurrentSetting (mkInputs (fun _ => LOW) 0) 1 Menu.initial_state = Ok s1 /\
    Menu.currentWaveform s1 = Menu.selectedWaveform s1.
Proof.
  destruct (Menu_waveform_selector_cycles (mkInputs (fun _ => LOW) 0) 1 Menu.initial_state)
    as (s1 & _ & _ & _ & H1 & _ & _ & _ & _ & P1 & _).
  - reflexivity.
  - exists s1. split; assumption.
Defined.

(** Menu edition, browsing.  On a falling edge of CLK in MENU_BROWSE a
    clockwise detent steps Waveform to Octave to Choppiness and back to
    Waveform and a counter-clockwise one steps the other way, and only the
    screen and the remembered CLK level change; a detent one way, CLK back
    up, and a detent the other way return to the screen they started from. *)
Theorem Menu_browse_cycles_screens (io1 io2 io3 : Inputs) (s : Menu.State) :
  Menu.currentMode s = Menu.MENU_BROWSE ->
  Menu.lastEncoderCLK s = HIGH ->
  digitalRead io1 Menu.ENCODER_CLK = LOW ->
  digitalRead io2 Menu.ENCODER_CLK = HIGH ->
  digitalRead io3 Menu.ENCODER_CLK = LOW ->
  digitalRead io3 Menu.ENCODER_DT <> digitalRead io1 Menu.ENCODER_DT ->
  exists s1 s2 s3,
    Menu.readEncoder io1 s = Ok s1 /\
    Menu.readEncoder io2 s1 = Ok s2 /\
    Menu.readEncoder io3 s2 = Ok s3 /\
    s1 = Menu.set_lastEncoderCLK LOW
           (Menu.set_currentMenu
              (match digitalRead io1 Menu.ENCODER_DT, Menu.currentMenu s with
               | HIGH, Menu.MENU_WAVEFORM => Menu.MENU_OCTAVE
               | HIGH, Menu.MENU_OCTAVE => Menu.MENU_CHOPPINESS
               | HIGH, Menu.MENU_CHOPPINESS => Menu.MENU_WAVEFORM
               | LOW, Menu.MENU_WAVEFORM => Menu.MENU_CHOPPINESS
               | LOW, Menu.MENU_OCTAVE => Menu.MENU_WAVEFORM
               | LOW, Menu.MENU_CHOPPINESS => Menu.MENU_OCTAVE
               end) s) /\
    Menu.currentMenu s3 = Menu.currentMenu s /\
    Menu.currentMode s3 = Menu.MENU_BROWSE.
Proof.
  intros Hm Hl H1 H2 H3 Hd.
  assert (Hstep : forall (io : Inputs) (t : Menu.State),
             Menu.currentMode t = Menu.MENU_BROWSE ->
             Menu.lastEncoderCLK t = HIGH ->
             digitalRead io Menu.ENCODER_CLK = LOW ->
             Menu.readEncoder io t
             = Ok (Menu.set_lastEncoderCLK LOW
                     (Menu.set_currentMenu
                        (match digitalRead io Menu.ENCODER_DT, Menu.currentMenu t with
                         | HIGH, Menu.MENU_WAVEFORM => Menu.MENU_OCTAVE
                         | HIGH, Menu.MENU_OCTAVE => Menu.MENU_CHOPPINESS
                         | HIGH, Menu.MENU_CHOPPINESS => Menu.MENU_WAVEFORM
                         | LOW, Menu.MENU_WAVEFORM => Menu.MENU_CHOPPINESS
                         | LOW, Menu.MENU_OCTAVE => Menu.MENU_WAVEFORM
                         | LOW, Menu.MENU_CHOPPINESS => Menu.MENU_OCTAVE
                         end) t))).
  { intros io t Ht Hlt Hclk. unfold Menu.readEncoder. rewrite Hlt, Hclk, Ht. cbn.
    destruct (digitalRead io Menu.ENCODER_DT), (Menu.currentMenu t); reflexivity. }
  assert (Hidle : forall (io : Inputs) (t : Menu.State),
             digitalRead io Menu.ENCODER_CLK = HIGH ->
             Menu.readEncoder io t = Ok (Menu.set_lastEncoderCLK HIGH t)).
  { intros io t Hclk. unfold Menu.readEncoder. rewrite Hclk.
    destruct (Menu.lastEncoderCLK t); reflexivity. }
  do 3 eexists.
  split; [apply (Hstep io1 s Hm Hl H1)|].
  split; [apply Hidle; exact H2|].
  split; [apply Hstep; [exact Hm | reflexivity | exact H3]|].
  split; [reflexivity|]. cbn.
  split; [|exact Hm].
  destruct (digitalRead io1 Menu.ENCODER_DT), (digitalRead io3 Menu.ENCODER_DT),
    (Menu.currentMenu s); try reflexivity; congruence.
Qed.

Lemma Menu_browse_cycles_screens_witness :
  exists s3,
    Menu.readEncoder (mkInputs (fun _ => LOW) 2)
      (Menu.set_lastEncoderCLK HIGH
         (Menu.set_lastEncoderCLK LOW
            (Menu.set_currentMenu Menu.MENU_OCTAVE
               (Menu.set_currentMode Menu.MENU_BROWSE Menu.initial_state)))) = Ok s3 /\
    Menu.currentMenu s3 = Menu.MENU_WAVEFORM.
Proof.
  destruct (Menu_browse_cycles_screens
              (mkInputs (fun pin => if pin =? 19 then HIGH else LOW) 0)
              (mkInputs (fun _ => HIGH) 1)
              (mkInputs (fun _ => LOW) 2)
              (Menu.set_currentMode Menu.MENU_BROWSE Menu.initial_state))
    as (s1 & s2 & s3 & R1 & R2 & R3 & E1 & Hc & _);
    try reflexivity; try discriminate.
  exists s3. subst s1. cbn in R2. apply Ok_inj in R2. subst s2.
  split; [exact R3 | exact Hc].
Defined.

(** Basic edition.  A waveform button counts when it reads LOW and more than
    50 ms (on the 32-bit clock) have passed since it last counted.  When
    several count in one call the one checked last wins: Sine over Triangle
    over Square.  The table pointer follows the selection, the time of a
    press that counted is recorded in the button's own slot, and when no
    button counts nothing changes. *)
Theorem Basic_waveform_buttons_priority (io : Inputs) (s : Basic.State) :
  length (Basic.lastDebounceTime s) = 3%nat ->
  let counts (k : nat) (pin : Z) :=
    Level_eqb (digitalRead io pin) LOW
    && (to_ulong (to_ulong (millis io) - nth k (Basic.lastDebounceTime s) 0)
        >? Basic.debounceDelay) in
  let s' := Basic.readWaveformButtons io s in
  Basic.selectedWaveform s'
    = (if counts 2%nat Basic.BTN_SINE then SINE
       else if counts 1%nat Basic.BTN_TRIANGLE then TRIANGLE
       else if counts 0%nat Basic.BTN_SQUARE then SQUARE
       else Basic.selectedWaveform s) /\
  Basic.currentWaveform s'
    = (if counts 2%nat Basic.BTN_SINE then SINE
       else if counts 1%nat Basic.BTN_TRIANGLE then TRIANGLE
       else if counts 0%nat Basic.BTN_SQUARE then SQUARE
       else Basic.currentWaveform s) /\
  (forall (k : nat) (pin : Z),
      In (k, pin) [(0%nat, Basic.BTN_SQUARE); (1%nat, Basic.BTN_TRIANGLE);
                   (2%nat, Basic.BTN_SINE)] ->
      nth k (Basic.lastDebounceTime s') 0
      = if counts k pin then to_ulong (millis io) else nth k (Basic.lastDebounceTime s) 0) /\
  (counts 0%nat Basic.BTN_SQUARE = false -> counts 1%nat Basic.BTN_TRIANGLE = false ->
   counts 2%nat Basic.BTN_SINE = false -> s' = s) /\
  Basic.currentNote s' = Basic.currentNote s /\
  Basic.currentFreq s' = Basic.currentFreq s /\
  Basic.volume s' = Basic.volume s.
Proof.
  intros Hlen counts s'. subst s'.
  destruct (Basic.lastDebounceTime s) as [|t0 [|t1 [|t2 [|]]]] eqn:Hd; try discriminate.
  unfold Basic.readWaveformButtons, Basic.button. subst counts. cbn beta.
  rewrite Hd. cbn [nth].
  destruct (Level_eqb (digitalRead io Basic.BTN_SQUARE) LOW
            && (to_ulong (to_ulong (millis io) - t0) >? Basic.debounceDelay)) eqn:C0;
    cbn [Basic.lastDebounceTime Basic.set_lastDebounceTime Basic.setWaveform
         Basic.set_selectedWaveform Basic.set_currentWaveform store nth];
    rewrite ?Hd; cbn [store nth];
    destruct (Level_eqb (digitalRead io Basic.BTN_TRIANGLE) LOW
              && (to_ulong (to_ulong (millis io) - t1) >? Basic.debounceDelay)) eqn:C1;
    cbn [Basic.lastDebounceTime Basic.set_lastDebounceTime Basic.setWaveform
         Basic.set_selectedWaveform Basic.set_currentWaveform store nth];
    rewrite ?Hd; cbn [store nth];
    destruct (Level_eqb (digitalRead io Basic.BTN_SINE) LOW
              && (to_ulong (to_ulong (millis io) - t2) >? Basic.debounceDelay)) eqn:C2;
    cbn; rewrite ?Hd; cbn;
    (split_all; try reflexivity; try discriminate;
     [ intros k pin [E|[E|[E|[]]]]; inversion E; subst; cbn; rewrite ?C0, ?C1, ?C2; reflexivity
     | .. ]);
    try (intros; reflexivity); try (intros; discriminate).
Qed.

Lemma Basic_waveform_buttons_priority_witness :
  Basic.selectedWaveform
    (Basic.readWaveformButtons (mkInputs (fun _ => LOW) 1000)
                               (Basic.setWaveform SQUARE Basic.initial_state))
  = SINE.
Proof.
  apply (Basic_waveform_buttons_priority (mkInputs (fun _ => LOW) 1000)
           (Basic.setWaveform SQUARE Basic.initial_state)).
  reflexivity.
Defined.

(** ** Reachable states *)

Lemma alarm_bounds (f : Z) :
  261 <= f <= 987 -> 3 <= 1000000 / (f * SAMPLES) <= 14.
Proof.
  intros H. unfold SAMPLES. split.
  - apply Z.div_le_lower_bound; lia.
  - assert (1000000 / (f * 256) < 15) by (apply Z.div_lt_upper_bound; lia). lia.
Qed.

Lemma to_uint8_byte (z : Z) : 0 <= to_uint8 z <= 255.
Proof.
  unfold to_uint8. pose proof (Z.mod_pos_bound z 256). lia.
Qed.

Lemma Basic_initial_well_formed : Basic.well_formed Basic.initial_state.
Proof.
  unfold Basic.well_formed, SAMPLES. cbn. repeat split; lia.
Qed.

Lemma Basic_onTimer_well_formed (s : Basic.State) :
  Basic.well_formed s -> Basic.well_formed (Basic.onTimer s).
Proof.
  intros (Hs & Hv & He & Hw & Hn & Ha & Hp & Hd).
  unfold Basic.onTimer. destruct (Basic.currentFreq s >? 0).
  - unfold Basic.well_formed. cbn. rewrite next_phase by assumption.
    split_all; try assumption; try lia; try apply to_uint8_byte;
      apply Z.mod_pos_bound; unfold SAMPLES; lia.
  - unfold Basic.well_formed. cbn.
    split_all; try assumption; try lia; apply to_uint8_byte.
Qed.

Lemma Basic_stopNote_well_formed (s : Basic.State) :
  Basic.well_formed s -> Basic.well_formed (Basic.stopNote s).
Proof.
  intros (Hs & Hv & He & Hw & Hn & Ha & Hp & Hd).
  unfold Basic.well_formed. cbn.
  split_all; try assumption; try lia; apply to_uint8_byte.
Qed.

Lemma Basic_playNote_well_formed (n : Z) (s : Basic.State) :
  Basic.well_formed s ->
  exists s', Basic.playNote n s = Ok s' /\ Basic.well_formed s'.
Proof.
  intros Hwf.
  destruct (Basic_playNote_total n s) as (s' & Hp & Hsame & Hcase).
  exists s'. split; [exact Hp|].
  destruct Hwf as (Hs & Hv & He & Hw & Hn & Ha & Hal & Hd).
  destruct Hsame as (S1 & S2 & S3 & S4 & S5 & S6 & S7 & S8).
  unfold Basic.well_formed. rewrite S1, S2, S3, S4, S7.
  destruct Hcase as [(N & F & T & D & _)|(N & Hr & F & _ & T & D)].
  - rewrite N, F, T, D. split_all; try assumption; lia.
  - rewrite N, T, D. pose proof (alarm_bounds _ F). cbn.
    split_all; try assumption; try reflexivity; lia.
Qed.

Lemma Basic_scanKeys_well_formed (io : Inputs) (pins : list Z) :
  forall (i : Z) (s : Basic.State),
    Basic.well_formed s ->
    exists s' any, Basic.scanKeys io pins i s = Ok (s', any) /\ Basic.well_formed s'.
Proof.
  induction pins as [|pin rest IH]; intros i s Hwf; cbn [Basic.scanKeys].
  - exists s, false. split; [reflexivity|assumption].
  - destruct (Level_eqb (digitalRead io pin) HIGH).
    + destruct (negb (Basic.currentNote s =? i)).
      * destruct (Basic_playNote_well_formed i s Hwf) as (s' & Hp & Hwf').
        rewrite Hp. cbn. exists s', true. split; [reflexivity|assumption].
      * cbn. exists s, true. split; [reflexivity|assumption].
    + apply IH. exact Hwf.
Qed.

Lemma Basic_readEncoder_well_formed (io : Inputs) (s : Basic.State) :
  Basic.well_formed s -> Basic.well_formed (Basic.readEncoder io s).
Proof.
  intros (Hs & Hv & He & Hw & Hn & Ha & Hp & Hd).
  unfold Basic.readEncoder.
  destruct (digitalRead io Basic.ENCODER_CLK), (Basic.lastEncoderCLK s);
    cbn [Level_eqb negb andb];
    try (unfold Basic.well_formed; cbn; split_all; first [assumption | lia]).
  destruct (digitalRead io Basic.ENCODER_DT); cbn [Level_eqb].
  - rewrite int_sub_small by (unfold INT_MIN, INT_MAX; lia).
    cbn [Basic.encoderPos Basic.set_encoderPos].
    destruct (Z.ltb_spec (Basic.encoderPos s - 1) 0); unfold Basic.well_formed;
      cbn -[to_uint8 int_mul];
      split_all; try assumption; try lia; apply to_uint8_byte.
  - rewrite int_add_small by (unfold INT_MIN, INT_MAX; lia).
    cbn [Basic.encoderPos Basic.set_encoderPos].
    destruct (Z.gtb_spec (Basic.encoderPos s + 1) 100); unfold Basic.well_formed;
      cbn -[to_uint8 int_mul];
      split_all; try assumption; try lia; apply to_uint8_byte.
Qed.

Lemma Basic_readWaveformButtons_well_formed (io : Inputs) (s : Basic.State) :
  Basic.well_formed s -> Basic.well_formed (Basic.readWaveformButtons io s).
Proof.
  intros (Hs & Hv & He & Hw & Hn & Ha & Hp & Hd).
  unfold Basic.readWaveformButtons, Basic.button.
  repeat match goal with
         | |- context [if ?b then _ else _] => destruct b
         end;
    unfold Basic.well_formed; cbn; split_all; first [assumption | lia | reflexivity].
Qed.

Lemma Basic_loop_well_formed (io : Inputs) (s : Basic.State) :
  Basic.well_formed s ->
  exists s', Basic.loop io s = Ok s' /\ Basic.well_formed s'.
Proof.
  intros Hwf. unfold Basic.loop, Basic.scanKeyboard.
  set (s0 := Basic.set_isHighOctave _ s).
  assert (H0 : Basic.well_formed s0)
    by (destruct Hwf as (? & ? & ? & ? & ? & ? & ? & ?);
        unfold Basic.well_formed; cbn; split_all; first [assumption | lia]).
  apply (Basic_readEncoder_well_formed io) in H0.
  apply (Basic_readWaveformButtons_well_formed io) in H0.
  destruct (Basic_scanKeys_well_formed io Basic.KEY_PINS 0 _ H0) as (s1 & any & Hk & H1).
  rewrite Hk. cbn [bind].
  destruct (negb any && negb (Basic.currentNote s1 =? -1)).
  - eexists. split; [reflexivity|]. apply Basic_stopNote_well_formed. exact H1.
  - exists s1. split; [reflexivity | exact H1].
Qed.

(** Basic edition.  From the state [setup] leaves, and from any state that
    satisfies the invariant, every interleaving of timer interrupts and loop
    iterations runs without a fault (no division by zero, no float out of the
    range of [int]) and keeps the invariant: the phase index within the
    table, volume and DAC value bytes, the dial position in [0, 100], the
    table pointer on the selected waveform, either no note and frequency 0 or
    a key 0..11 with a frequency of 261..987 Hz, and the timer alarm enabled
    with a period of 3..100 microseconds, never 0. *)
Theorem Basic_reachable_states_are_well_formed (events : list Basic.Event) (s : Basic.State) :
  Basic.well_formed s ->
  Basic.well_formed Basic.initial_state /\
  exists s', Basic.run events s = Ok s' /\ Basic.well_formed s'.
Proof.
  intros Hwf. split; [apply Basic_initial_well_formed|].
  revert s Hwf. induction events as [|[|io] rest IH]; intros s Hwf; cbn [Basic.run].
  - exists s. split; [reflexivity|assumption].
  - apply IH. apply Basic_onTimer_well_formed. exact Hwf.
  - destruct (Basic_loop_well_formed io s Hwf) as (s1 & Hl & H1).
    rewrite Hl. cbn [bind]. apply IH. exact H1.
Qed.

Lemma Basic_reachable_states_are_well_formed_witness :
  exists s',
    Basic.run [Basic.Loop (mkInputs (fun _ => HIGH) 0); Basic.Tick;
               Basic.Loop (mkInputs (fun _ => LOW) 1)] Basic.initial_state = Ok s' /\
    Basic.well_formed s'.
Proof.
  assert (Hwf : Basic.well_formed Basic.initial_state).
  { unfold Basic.well_formed, SAMPLES. simpl. repeat split; lia. }
  destruct (Basic_reachable_states_are_well_formed
              [Basic.Loop (mkInputs (fun _ => HIGH) 0); Basic.Tick;
               Basic.Loop (mkInputs (fun _ => LOW) 1)] Basic.initial_state Hwf)
    as (_ & H).
  exact H.
Defined.

Lemma Menu_initial_well_formed : Menu.well_formed Menu.initial_state.
Proof.
  unfold Menu.well_formed, Menu.valid_choppiness, SAMPLES.
  split_all;
    match goal with
    | |- _ \/ _ => left; split; reflexivity
    | |- _ => first [reflexivity | cbn; lia]
    end.
Qed.

Lemma Menu_onTimer_well_formed (io : Inputs) (s : Menu.State) :
  Menu.well_formed s ->
  exists s', Menu.onTimer io s = Ok s' /\ Menu.well_formed s'.
Proof.
  intros (Hs & Hv & He & Hw & Hc & Hn & Ha & Hp & Hd).
  unfold Menu.onTimer.
  assert (Hgate : exists s1,
             (if Menu.choppiness s >? 1
              then
                (period <- Menu.ratchetPeriod (Menu.choppiness s) ;;
                 if to_ulong (to_ulong (millis io) - Menu.lastRatchetToggle s)
                    >=? to_ulong period
                 then Ok (Menu.set_lastRatchetToggle (to_ulong (millis io))
                            (Menu.set_ratchetOn (negb (Menu.ratchetOn s)) s))
                 else Ok s)
              else Ok (Menu.set_ratchetOn true s)) = Ok s1 /\
             Menu_same_controls s s1 /\
             Menu.currentNote s1 = Menu.currentNote s /\
             Menu.currentFreq s1 = Menu.currentFreq s /\
             Menu.timer s1 = Menu.timer s /\ Menu.dac s1 = Menu.dac s).
  { destruct (Z.gtb_spec (Menu.choppiness s) 1) as [Hgt|Hle].
    - destruct (ratchetPeriod_valid _ Hc Hgt) as (p & Ep & _). rewrite Ep. cbn [bind].
      destruct (_ >=? _); eexists; (split; [reflexivity|]); repeat split.
    - eexists. split; [reflexivity|]. repeat split. }
  destruct Hgate as (s1 & E1 & Hsame & N1 & F1 & T1 & D1).
  rewrite E1. cbn [bind].
  destruct Hsame as (S1 & S2 & S3 & S4 & S5 & S6 & S7 & S8 & S9 & S10 & S11 & S12).
  destruct ((Menu.currentFreq s1 >? 0) && Menu.ratchetOn s1);
    eexists; (split; [reflexivity|]); unfold Menu.well_formed;
    cbn -[to_uint8 int_mul int_add Z.rem SAMPLES];
    rewrite ?S3, ?S4, ?S5, ?S6, ?S7, ?S8, ?S10, ?N1, ?F1, ?T1.
  - rewrite next_phase by assumption.
    split_all; try assumption; try lia; try apply to_uint8_byte;
      apply Z.mod_pos_bound; unfold SAMPLES; lia.
  - split_all; try assumption; try lia; apply to_uint8_byte.
Qed.

(** The part of the invariant that does not speak of the note. *)
Lemma Menu_playNote_well_formed (io : Inputs) (n : Z) (s : Menu.State) :
  0 <= Menu.currentSample s < SAMPLES ->
  0 <= Menu.volume s <= 255 ->
  0 <= Menu.encoderValue s <= 100 ->
  Menu.currentWaveform s = Menu.selectedWaveform s ->
  Menu.valid_choppiness (Menu.choppiness s) ->
  alarm_enabled (Menu.timer s) = true ->
  3 <= alarm_value (Menu.timer s) <= 100 ->
  0 <= Menu.dac s <= 255 ->
  exists s', Menu.playNote io n s = Ok s' /\ Menu.well_formed s' /\
             Menu_same_controls s s'.
Proof.
  intros Hs Hv He Hw Hc Ha Hal Hd.
  destruct (Menu_playNote_total io n s) as (s' & Hp & Hsame & Hcase).
  exists s'. split; [exact Hp|]. split; [|exact Hsame].
  destruct Hsame as (S1 & S2 & S3 & S4 & S5 & S6 & S7 & S8 & S9 & S10 & S11 & S12).
  unfold Menu.well_formed. rewrite S3, S4, S5, S6, S7, S8, S10.
  destruct Hcase as [(N & F & T & D & _)|(N & Hr & F & Hfl & T & D & _)].
  - rewrite N, F, T, D. split_all; try assumption; lia.
  - rewrite N, T, D. pose proof (alarm_bounds _ F). cbn.
    split_all; try assumption; try reflexivity; try lia. right. split; assumption.
Qed.

Lemma Menu_stopNote_well_formed (s : Menu.State) :
  Menu.well_formed s -> Menu.well_formed (Menu.stopNote s).
Proof.
  intros (Hs & Hv & He & Hw & Hc & Hn & Ha & Hp & Hd).
  unfold Menu.well_formed. cbn -[to_uint8].
  split_all; try assumption; try lia; apply to_uint8_byte.
Qed.

Lemma Menu_scanKeys_well_formed (io : Inputs) (pins : list Z) :
  forall (i : Z) (s : Menu.State),
    Menu.well_formed s ->
    exists s' any, Menu.scanKeys io pins i s = Ok (s', any) /\ Menu.well_formed s'.
Proof.
  induction pins as [|pin rest IH]; intros i s Hwf; cbn [Menu.scanKeys].
  - exists s, false. split; [reflexivity|assumption].
  - destruct (Level_eqb (digitalRead io pin) HIGH).
    + destruct (negb (Menu.currentNote s =? i)).
      * destruct Hwf as (Hs & Hv & He & Hw & Hc & Hn & Ha & Hp & Hd).
        destruct (Menu_playNote_well_formed io i s) as (s' & Hpl & Hwf' & _); try assumption.
        rewrite Hpl. cbn. exists s', true. split; [reflexivity|assumption].
      * cbn. exists s, true. split; [reflexivity|assumption].
    + apply IH. exact Hwf.
Qed.

Lemma Menu_adjustCurrentSetting_well_formed (io : Inputs) (d : Z) (s : Menu.State) :
  Menu.well_formed s ->
  exists s', Menu.adjustCurrentSetting io d s = Ok s' /\ Menu.well_formed s' /\
             Menu.currentMode s' = Menu.currentMode s /\
             Menu.encoderValue s' = Menu.encoderValue s.
Proof.
  intros Hwf. pose proof Hwf as (Hs & Hv & He & Hw & Hc & Hn & Ha & Hp & Hd).
  destruct (Menu.currentMenu s) eqn:Hm.
  - unfold Menu.adjustCurrentSetting. rewrite Hm.
    destruct (d >? 0), (Menu.selectedWaveform s) eqn:Hsel;
      eexists; (split; [reflexivity|]); unfold Menu.well_formed; cbn; rewrite ?Hsel; cbn;
      split_all; first [assumption | lia | reflexivity].
  - unfold Menu.adjustCurrentSetting. rewrite Hm.
    cbn [Menu.currentNote Menu.set_isHighOctave].
    destruct (Z.eqb_spec (Menu.currentNote s) (-1)) as [E|E]; cbn [negb].
    + eexists. split; [reflexivity|]. unfold Menu.well_formed. cbn.
      split_all; first [assumption | lia | reflexivity].
    + destruct (Menu_playNote_well_formed io (Menu.currentNote s)
                  (Menu.set_isHighOctave (negb (Menu.isHighOctave s)) s))
        as (s' & Hpl & Hwf' & Hsame); try assumption.
      exists s'. split; [exact Hpl|]. split; [exact Hwf'|].
      destruct Hsame as (S1 & S2 & S3 & S4 & S5 & S6 & S7 & S8 & S9 & S10 & _).
      split; assumption.
  - destruct (Menu_adjust_choppiness_step io d s Hm Hc) as (s' & Hadj & _ & _).
    pose proof (Menu_adjustCurrentSetting_valid io d s s' Hadj Hc) as Hc'.
    exists s'. split; [exact Hadj|].
    unfold Menu.adjustCurrentSetting in Hadj. rewrite Hm in Hadj.
    destruct (d >? 0); apply Ok_inj in Hadj; subst s';
      (split; [|split; reflexivity]); unfold Menu.well_formed; cbn in Hc' |- *;
      split_all; first [assumption | lia].
Qed.

Lemma Menu_readEncoder_well_formed (io : Inputs) (s : Menu.State) :
  Menu.well_formed s ->
  exists s', Menu.readEncoder io s = Ok s' /\ Menu.well_formed s'.
Proof.
  intros Hwf. pose proof Hwf as (Hs & Hv & He & Hw & Hc & Hn & Ha & Hp & Hd).
  assert (Hclk : forall (l : Level) (t : Menu.State),
             Menu.well_formed t -> Menu.well_formed (Menu.set_lastEncoderCLK l t)).
  { intros l t (? & ? & ? & ? & ? & ? & ? & ? & ?).
    unfold Menu.well_formed. cbn. split_all; first [assumption | lia]. }
  unfold Menu.readEncoder.
  destruct (negb _ && _).
  - destruct (Menu.currentMode s) eqn:Hm.
    + cbn [bind]. eexists. split; [reflexivity|]. apply Hclk.
      set (delta := int_mul _ 5).
      assert (Hdelta : delta = 5 \/ delta = -5)
        by (subst delta; destruct (Level_eqb _ HIGH); [left|right]; reflexivity).
      assert (Hcon : 0 <= Menu.constrain (int_add (Menu.encoderValue s) delta) 0 100 <= 100).
      { unfold Menu.constrain.
        destruct (Z.ltb_spec (int_add (Menu.encoderValue s) delta) 0); [lia|].
        destruct (Z.gtb_spec (int_add (Menu.encoderValue s) delta) 100); lia. }
      unfold Menu.well_formed. cbn -[to_uint8 int_mul int_add Menu.constrain].
      split_all; try assumption; try lia; apply to_uint8_byte.
    + cbn [bind]. destruct (_ >? 0); eexists; (split; [reflexivity|]); apply Hclk;
        unfold Menu.well_formed; cbn; split_all; first [assumption | lia].
    + destruct (Menu_adjustCurrentSetting_well_formed io
                  (if Level_eqb (digitalRead io Menu.ENCODER_DT) HIGH then 1 else -1) s Hwf)
        as (s' & Hadj & Hwf' & _).
      rewrite Hadj. cbn [bind]. eexists. split; [reflexivity|]. apply Hclk. exact Hwf'.
  - cbn [bind]. eexists. split; [reflexivity|]. apply Hclk. exact Hwf.
Qed.

Lemma Menu_readEncoderButton_well_formed (io : Inputs) (s : Menu.State) :
  Menu.well_formed s -> Menu.well_formed (Menu.readEncoderButton io s).
Proof.
  intros (Hs & Hv & He & Hw & Hc & Hn & Ha & Hp & Hd).
  destruct (dial_of_volume _ Hv) as [E B].
  unfold Menu.readEncoderButton, Menu.handleButtonPress.
  match goal with |- context [if ?b then _ else _] => destruct b end;
    [destruct (Menu.currentMode s)|];
    unfold Menu.well_formed; cbn -[int_mul]; rewrite ?E;
    split_all; first [assumption | lia].
Qed.

Lemma Menu_loop_well_formed (io : Inputs) (s : Menu.State) :
  Menu.well_formed s ->
  exists s', Menu.loop io s = Ok s' /\ Menu.well_formed s'.
Proof.
  intros Hwf. unfold Menu.loop, Menu.scanKeyboard.
  destruct (Menu_readEncoder_well_formed io s Hwf) as (s1 & E1 & H1).
  rewrite E1. cbn [bind].
  apply (Menu_readEncoderButton_well_formed io) in H1.
  destruct (Menu_scanKeys_well_formed io Menu.KEY_PINS 0 _ H1) as (s2 & any & E2 & H2).
  rewrite E2. cbn [bind].
  destruct (negb any && negb (Menu.currentNote s2 =? -1)).
  - eexists. split; [reflexivity|]. apply Menu_stopNote_well_formed. exact H2.
  - exists s2. split; [reflexivity | exact H2].
Qed.

(** Menu edition.  From the state [setup] leaves, and from any state that
    satisfies the invariant, every interleaving of timer interrupts and loop
    iterations runs without a fault and keeps the invariant: the phase index
    within the table, volume and DAC value bytes, the dial value in [0, 100],
    the table pointer on the selected waveform, the choppiness level one of
    1, 2, 4, 8, either no note and frequency 0 or a key 0..11 whose programmed
    frequency is the truncated table frequency at the current octave, and the
    timer alarm enabled with a period of 3..100 microseconds, never 0. *)
Theorem Menu_reachable_states_are_well_formed (events : list Menu.Event) (s : Menu.State) :
  Menu.well_formed s ->
  Menu.well_formed Menu.initial_state /\
  exists s', Menu.run events s = Ok s' /\ Menu.well_formed s'.
Proof.
  intros Hwf. split; [apply Menu_initial_well_formed|].
  revert s Hwf. induction events as [|[io|io] rest IH]; intros s Hwf; cbn [Menu.run].
  - exists s. split; [reflexivity|assumption].
  - destruct (Menu_onTimer_well_formed io s Hwf) as (s1 & Hl & H1).
    rewrite Hl. cbn [bind]. apply IH. exact H1.
  - destruct (Menu_loop_well_formed io s Hwf) as (s1 & Hl & H1).
    rewrite Hl. cbn [bind]. apply IH. exact H1.
Qed.

Lemma Menu_reachable_states_are_well_formed_witness :
  exists s',
    Menu.run [Menu.Loop (mkInputs (fun _ => HIGH) 0); Menu.Tick (mkInputs (fun _ => LOW) 1);
              Menu.Loop (mkInputs (fun _ => LOW) 300)] Menu.initial_state = Ok s' /\
    Menu.well_formed s'.
Proof.
  assert (Hwf : Menu.well_formed Menu.initial_state).
  { unfold Menu.well_formed, Menu.valid_choppiness, SAMPLES.
    split_all;
      match goal with
      | |- _ \/ _ => left; split; reflexivity
      | |- _ => first [reflexivity | simpl; lia]
      end. }
  destruct (Menu_reachable_states_are_well_formed
              [Menu.Loop (mkInputs (fun _ => HIGH) 0); Menu.Tick (mkInputs (fun _ => LOW) 1);
               Menu.Loop (mkInputs (fun _ => LOW) 300)] Menu.initial_state Hwf)
    as (_ & H).
  exact H.
Defined.

(** ** The ratchet gate and the millisecond clock *)

Lemma elapsed_since (last d : Z) :
  0 <= d < 2 ^ 32 -> to_ulong (to_ulong (last + d) - last) = d.
Proof.
  intros H. unfold to_ulong. rewrite Zminus_mod_idemp_l.
  replace (last + d - last) with d by lia. apply Z.mod_small. exact H.
Qed.

(** Menu edition.  The gate measures elapsed time on the 32-bit millisecond
    clock by an unsigned difference, so it is right across the clock's
    wrap-around: if the clock reads d ms (d below 2^32) past the last toggle,
    modulo 2^32, then [onTimer] flips the gate and records the clock exactly
    when d is at least the ratchet period, and leaves both alone otherwise. *)
Theorem Menu_ratchet_timing_survives_clock_wrap (io : Inputs) (d : Z) (s : Menu.State) :
  Menu.valid_choppiness (Menu.choppiness s) -> 1 < Menu.choppiness s ->
  0 <= d < 2 ^ 32 ->
  to_ulong (millis io) = to_ulong (Menu.lastRatchetToggle s + d) ->
  exists p s',
    Menu.ratchetPeriod (Menu.choppiness s) = Ok p /\
    Menu.onTimer io s = Ok s' /\
    Menu.ratchetOn s' = (if d >=? p then negb (Menu.ratchetOn s) else Menu.ratchetOn s) /\
    Menu.lastRatchetToggle s'
      = (if d >=? p then to_ulong (millis io) else Menu.lastRatchetToggle s).
Proof.
  intros Hc Hgt Hd Hclock.
  assert (Hp : exists p, Menu.ratchetPeriod (Menu.choppiness s) = Ok p /\ to_ulong p = p).
  { destruct Hc as [E|[E|[E|E]]]; rewrite E in *; try lia;
      eexists; split; reflexivity. }
  destruct Hp as (p & Hp & Hu). exists p.
  unfold Menu.onTimer.
  replace (Menu.choppiness s >? 1) with true by (symmetry; apply Z.gtb_lt; lia).
  rewrite Hp. cbn [bind]. rewrite Hu, Hclock, elapsed_since by exact Hd.
  destruct (d >=? p); cbn [bind];
    match goal with |- context [if ?b then _ else _] => destruct b end;
    eexists; repeat split.
Qed.

Lemma Menu_ratchet_timing_survives_clock_wrap_witness :
  exists p s',
    Menu.ratchetPeriod 2 = Ok p /\
    Menu.onTimer (mkInputs (fun _ => LOW) 120)
      (Menu.set_lastRatchetToggle (2 ^ 32 - 10) (Menu.set_choppiness 2 Menu.initial_state))
    = Ok s' /\
    Menu.ratchetOn s' = false.
Proof.
  destruct (Menu_ratchet_timing_survives_clock_wrap (mkInputs (fun _ => LOW) 120) 130
              (Menu.set_lastRatchetToggle (2 ^ 32 - 10)
                 (Menu.set_choppiness 2 Menu.initial_state)))
    as (p & s' & Hp & Ht & Hg & _).
  - right. left. reflexivity.
  - simpl. lia.
  - lia.
  - reflexivity.
  - exists p, s'. split; [exact Hp|]. split; [exact Ht|].
    rewrite Hg. simpl in Hp. apply Ok_inj in Hp. subst p. reflexivity.
Defined.

(** ** Pitch resolution of the timer *)

Lemma note_frequency_increases (n m f1 f2 : Z) (high : bool) :
  0 <= n -> n < m -> m < 12 ->
  float_to_int (note_frequency n high) = Ok f1 ->
  float_to_int (note_frequency m high) = Ok f2 ->
  f1 < f2.
Proof.
  intros Hn Hnm Hm H1 H2.
  assert (Hn' : 0 <= n < 12) by lia. assert (Hm' : 0 <= m < 12) by lia.
  each_note Hn'; each_note Hm'; try lia;
    destruct high; vm_compute in H1; vm_compute in H2;
    apply Ok_inj in H1; apply Ok_inj in H2; lia.
Qed.

Lemma Basic_C_and_Csharp_share_a_period (s : Basic.State) :
  exists c0 c1,
    Basic.playNote 0 s = Ok c0 /\ Basic.playNote 1 s = Ok c1 /\
    Basic.currentFreq c0 < Basic.currentFreq c1 /\
    Basic.timer c0 = Basic.timer c1.
Proof.
  destruct (Basic_playNote_valid 0 s) as (f0 & F0 & _ & P0); [lia|].
  destruct (Basic_playNote_valid 1 s) as (f1 & F1 & _ & P1); [lia|].
  do 2 eexists. split; [exact P0|]. split; [exact P1|].
  cbn [Basic.currentFreq Basic.timer Basic.set_currentNote Basic.set_timer
       Basic.set_currentFreq].
  destruct (Basic.isHighOctave s); vm_compute in F0; vm_compute in F1;
    apply Ok_inj in F0; apply Ok_inj in F1; subst f0 f1; (split; [lia | reflexivity]).
Qed.

Lemma Menu_C_and_Csharp_share_a_period (io : Inputs) (s : Menu.State) :
  exists c0 c1,
    Menu.playNote io 0 s = Ok c0 /\ Menu.playNote io 1 s = Ok c1 /\
    Menu.currentFreq c0 < Menu.currentFreq c1 /\
    Menu.timer c0 = Menu.timer c1.
Proof.
  destruct (Menu_playNote_valid io 0 s) as (f0 & F0 & _ & P0); [lia|].
  destruct (Menu_playNote_valid io 1 s) as (f1 & F1 & _ & P1); [lia|].
  do 2 eexists. split; [exact P0|]. split; [exact P1|].
  cbn [Menu.currentFreq Menu.timer Menu.set_currentNote Menu.set_timer
       Menu.set_currentFreq Menu.set_ratchetOn Menu.set_lastRatchetToggle].
  destruct (Menu.isHighOctave s); vm_compute in F0; vm_compute in F1;
    apply Ok_inj in F0; apply Ok_inj in F1; subst f0 f1; (split; [lia | reflexivity]).
Qed.

(** Higher keys program higher frequencies but not always shorter periods:
    for keys n <= m at the same octave the truncated frequency of m is at
    least that of n (strictly more when n < m) and its interrupt period is at
    most that of n; the periods are whole microseconds, and the keys C and C#
    are given the same one (14 at the low octave, 7 at the high), so the timer
    plays them at the same pitch.  Both editions. *)
Theorem interrupt_period_decreases_with_key
        (io : Inputs) (n m : Z) (sb : Basic.State) (sm : Menu.State) :
  0 <= n -> n <= m -> m < 12 ->
  (exists b1 b2 c0 c1,
      Basic.playNote n sb = Ok b1 /\ Basic.playNote m sb = Ok b2 /\
      Basic.currentFreq b1 <= Basic.currentFreq b2 /\
      (n < m -> Basic.currentFreq b1 < Basic.currentFreq b2) /\
      alarm_value (Basic.timer b2) <= alarm_value (Basic.timer b1) /\
      Basic.playNote 0 sb = Ok c0 /\ Basic.playNote 1 sb = Ok c1 /\
      Basic.currentFreq c0 < Basic.currentFreq c1 /\
      Basic.timer c0 = Basic.timer c1) /\
  (exists b1 b2 c0 c1,
      Menu.playNote io n sm = Ok b1 /\ Menu.playNote io m sm = Ok b2 /\
      Menu.currentFreq b1 <= Menu.currentFreq b2 /\
      (n < m -> Menu.currentFreq b1 < Menu.currentFreq b2) /\
      alarm_value (Menu.timer b2) <= alarm_value (Menu.timer b1) /\
      Menu.playNote io 0 sm = Ok c0 /\ Menu.playNote io 1 sm = Ok c1 /\
      Menu.currentFreq c0 < Menu.currentFreq c1 /\
      Menu.timer c0 = Menu.timer c1).
Proof.
  intros Hn Hnm Hm.
  assert (Hmono : forall high f1 f2,
             float_to_int (note_frequency n high) = Ok f1 ->
             float_to_int (note_frequency m high) = Ok f2 ->
             261 <= f1 -> 261 <= f2 ->
             f1 <= f2 /\ (n < m -> f1 < f2) /\
             1000000 / (f2 * SAMPLES) <= 1000000 / (f1 * SAMPLES)).
  { intros high f1 f2 H1 H2 B1 B2.
    assert (Hle : f1 <= f2 /\ (n < m -> f1 < f2)).
    { destruct (Z.eq_dec n m) as [->|Hne].
      - assert (f1 = f2) by congruence. lia.
      - pose proof (note_frequency_increases n m f1 f2 high Hn ltac:(lia) Hm H1 H2). lia. }
    split; [apply Hle|]. split; [apply Hle|].
    apply Z.div_le_compat_l; unfold SAMPLES; lia. }
  split.
  - destruct (Basic_playNote_valid n sb) as (f1 & F1 & B1 & P1); [lia|].
    destruct (Basic_playNote_valid m sb) as (f2 & F2 & B2 & P2); [lia|].
    destruct (Hmono _ _ _ F1 F2) as (M1 & M2 & M3); try lia.
    destruct (Basic_C_and_Csharp_share_a_period sb) as (c0 & c1 & Q0 & Q1 & Qf & Qt).
    do 2 eexists. exists c0, c1.
    split; [exact P1|]. split; [exact P2|].
    cbn [Basic.currentFreq Basic.timer Basic.set_currentNote Basic.set_timer
         Basic.set_currentFreq Menu.currentFreq Menu.timer Menu.set_currentNote
         Menu.set_timer Menu.set_currentFreq Menu.set_ratchetOn
         Menu.set_lastRatchetToggle alarm_value].
    split_all; assumption.
  - destruct (Menu_playNote_valid io n sm) as (f1 & F1 & B1 & P1); [lia|].
    destruct (Menu_playNote_valid io m sm) as (f2 & F2 & B2 & P2); [lia|].
    destruct (Hmono _ _ _ F1 F2) as (M1 & M2 & M3); try lia.
    destruct (Menu_C_and_Csharp_share_a_period io sm) as (c0 & c1 & Q0 & Q1 & Qf & Qt).
    do 2 eexists. exists c0, c1.
    split; [exact P1|]. split; [exact P2|].
    cbn [Basic.currentFreq Basic.timer Basic.set_currentNote Basic.set_timer
         Basic.set_currentFreq Menu.currentFreq Menu.timer Menu.set_currentNote
         Menu.set_timer Menu.set_currentFreq Menu.set_ratchetOn
         Menu.set_lastRatchetToggle alarm_value].
    split_all; assumption.
Qed.

Lemma interrupt_period_decreases_with_key_witness :
  exists b1 b2,
    Basic.playNote 3 Basic.initial_state = Ok b1 /\
    Basic.playNote 8 Basic.initial_state = Ok b2 /\
    alarm_value (Basic.timer b2) <= alarm_value (Basic.timer b1).
Proof.
  destruct (interrupt_period_decreases_with_key (mkInputs (fun _ => LOW) 0) 3 8
              Basic.initial_state Menu.initial_state)
    as ((b1 & b2 & _ & _ & P1 & P2 & _ & _ & Hal & _) & _); try lia.
  exists b1, b2. split; [exact P1|]. split; [exact P2 | exact Hal].
Defined.

(** ** The 7-segment display *)




(** Menu edition, setting screens.  While a setting is adjusted the display
    tells its values apart for the waveform (three patterns) and the octave
    (two), but not for the choppiness: levels 1, 2 and 4 have patterns of
    their own while 8 is shown exactly as 4, because the pattern for 8 is the
    pattern for 4 or-ed with a segment it already has. *)
Theorem Menu_display_tells_settings_apart (s1 s2 : Menu.State) :
  Menu.currentMode s1 = Menu.SETTING_ADJUST ->
  Menu.currentMode s2 = Menu.SETTING_ADJUST ->
  Menu.currentMenu s2 = Menu.currentMenu s1 ->
  Menu.valid_choppiness (Menu.choppiness s1) ->
  Menu.valid_choppiness (Menu.choppiness s2) ->
  (Menu.currentMenu s1 = Menu.MENU_WAVEFORM ->
   (Menu.updateDisplay s1 = Menu.updateDisplay s2 <->
    Menu.selectedWaveform s1 = Menu.selectedWaveform s2)) /\
  (Menu.currentMenu s1 = Menu.MENU_OCTAVE ->
   (Menu.updateDisplay s1 = Menu.updateDisplay s2 <->
    Menu.isHighOctave s1 = Menu.isHighOctave s2)) /\
  (Menu.currentMenu s1 = Menu.MENU_CHOPPINESS ->
   (Menu.updateDisplay s1 = Menu.updateDisplay s2 <->
    (Menu.choppiness s1 = Menu.choppiness s2 \/
     (Menu.choppiness s1 = 4 /\ Menu.choppiness s2 = 8) \/
     (Menu.choppiness s1 = 8 /\ Menu.choppiness s2 = 4)))).
Proof.
  intros M1 M2 Hsame C1 C2.
  unfold Menu.updateDisplay. rewrite M1, M2, Hsame.
  split_all; intros Hmenu; rewrite Hmenu.
  - destruct (Menu.selectedWaveform s1), (Menu.selectedWaveform s2);
      split; intros H; try reflexivity; try discriminate H.
  - destruct (Menu.isHighOctave s1), (Menu.isHighOctave s2);
      split; intros H; try reflexivity; try discriminate H.
  - destruct C1 as [E1|[E1|[E1|E1]]], C2 as [E2|[E2|[E2|E2]]]; rewrite E1, E2;
      split; intros H; try reflexivity; try (vm_compute in H; discriminate H);
      try lia.
Qed.

Lemma Menu_display_tells_settings_apart_witness :
  Menu.updateDisplay
    (Menu.set_choppiness 4
       (Menu.set_currentMenu Menu.MENU_CHOPPINESS
          (Menu.set_currentMode Menu.SETTING_ADJUST Menu.initial_state)))
  = Menu.updateDisplay
      (Menu.set_choppiness 8
         (Menu.set_currentMenu Menu.MENU_CHOPPINESS
            (Menu.set_currentMode Menu.SETTING_ADJUST Menu.initial_state))).
Proof.
  set (s := Menu.set_currentMenu Menu.MENU_CHOPPINESS
              (Menu.set_currentMode Menu.SETTING_ADJUST Menu.initial_state)).
  assert (C4 : Menu.valid_choppiness (Menu.choppiness (Menu.set_choppiness 4 s)))
    by (right; right; left; reflexivity).
  assert (C8 : Menu.valid_choppiness (Menu.choppiness (Menu.set_choppiness 8 s)))
    by (right; right; right; reflexivity).
  destruct (Menu_display_tells_settings_apart
              (Menu.set_choppiness 4 s) (Menu.set_choppiness 8 s)
              eq_refl eq_refl eq_refl C4 C8)
    as (_ & _ & H).
  apply H; [reflexivity|]. right. left. split; reflexivity.
Defined.
